(** * The charity selector: a shallow embedding and its checked properties

    The development follows [charity-selector/src]: [types.ts] (records),
    [utils/csvReader.ts] ([parseUserProfile], [validateCharity]) and
    [charitySelector.ts] ([getRandomInt], [selectRandomItems],
    [createTailoringRules], [applyTailoringRules], [selectCharities]).

    JavaScript numbers that count things are integers here ([Z]), and where
    the code multiplies or adds doubles the result is rounded as a double
    is ([to_double]); strings are [string], the bytes of their UTF-8 text;
    arrays are lists.  The program has three effects, all kept: the calls of
    [Math.random()], the console, and exceptions. *)

From Stdlib Require Import ZArith List String Ascii Bool Lia Permutation.
From Stdlib Require Import DecimalString DecimalPos.
Import ListNotations.

Local Open Scope string_scope.
Local Open Scope list_scope.
Local Open Scope Z_scope.

(** ** Data ([types.ts]) *)

Module Charity.
Record t : Type := mk
  { id : string; name : string; state : string; category : string; featured : string }.
End Charity.

(** A row of the profile file.  [csv-parser] leaves a column that the file
    does not have [undefined]; for [id], [name], [state] and [age] the code
    treats [undefined] as it treats the empty string, which stands for both
    here; the three flags are read through [?.] and are optional. *)
Module RawUserProfile.
Record t : Type := mk
  { id : string; name : string; state : string;
    isMarried : option string; hasChildren : option string; hasPets : option string;
    age : string }.
End RawUserProfile.

(** The numbers that [parseInt(s, 10) || 0] can give: an integer that is a
    double, or an infinity. *)
Inductive number : Type :=
| Finite (z : Z)
| Infinite (negative : bool).

Module UserProfile.
Record t : Type := mk
  { id : string; name : string; state : string;
    isMarried : bool; hasChildren : bool; hasPets : bool; age : number }.
End UserProfile.

Record SelectionConstraints : Type :=
  { totalCharities : Z; maxStateCharities : Z; minAnimalCharitiesIfPets : Z }.

Record TailoringRule : Type :=
  { applies : UserProfile.t -> bool;
    getMinCount : UserProfile.t -> Z;
    getCategory : unit -> string }.

(** ** Effects *)

(** What a [throw] or a rejected promise carries: an [Error] object with its
    message, or some other value. *)
Inductive thrown : Type :=
| JsError (message : string)
| JsOther.

Inductive level : Type := LOG | WARN | ERROR.

(** The second argument of a console call, when there is one. *)
Inductive console_arg : Type :=
| ArgCharity (c : Charity.t)
| ArgThrown (e : thrown).

Record console_entry : Type :=
  { entry_level : level; entry_text : string; entry_arg : option console_arg }.

(** The world a call runs in.  [random_source k] is the numerator of the
    [k]-th value that [Math.random()] will return, [random_calls] the number
    of calls made so far, [console] what has been printed, oldest first. *)
Record World : Type :=
  { random_source : nat -> Z; random_calls : nat; console : list console_entry }.

Definition M (A : Type) : Type := World -> (thrown + A) * World.

Definition ret {A} (a : A) : M A := fun w => (inr a, w).

Definition bind {A B} (m : M A) (f : A -> M B) : M B :=
  fun w => match m w with
           | (inl e, w') => (inl e, w')
           | (inr a, w') => f a w'
           end.

Definition throw {A} (e : thrown) : M A := fun w => (inl e, w).

Definition try_catch {A} (body : M A) (handler : thrown -> M A) : M A :=
  fun w => match body w with
           | (inl e, w') => handler e w'
           | (inr a, w') => (inr a, w')
           end.

Declare Scope js_scope.
Delimit Scope js_scope with js.
Notation "x <- m ;; k" := (bind m (fun x => k))
  (at level 61, m at next level, right associativity) : js_scope.
Notation "m ;; k" := (bind m (fun _ => k))
  (at level 61, right associativity) : js_scope.
Local Open Scope js_scope.

Definition console_print (lv : level) (text : string) (arg : option console_arg) : M unit :=
  fun w => (inr tt,
            {| random_source := random_source w;
               random_calls := random_calls w;
               console := console w ++ [ {| entry_level := lv; entry_text := text; entry_arg := arg |} ] |}).

Definition console_log (text : string) : M unit := console_print LOG text None.
Definition console_warn (text : string) : M unit := console_print WARN text None.
Definition console_error (text : string) (arg : console_arg) : M unit := console_print ERROR text (Some arg).

(** [Math.random()] returns a double in [0, 1).  It is the fraction
    [k / 2^53] with [0 <= k < 2^53] here. *)
Definition two53 : Z := 9007199254740992.

(** Rounding to 53 significant bits, to the nearest and on a tie to the even
    one, as every operation on doubles rounds: [nearest53 p] for [0 <= p]
    keeps [p] when it has at most 53 bits, and else rounds it to a multiple
    of [2 ^ (Z.log2 p - 52)]. *)
Definition nearest53 (p : Z) : Z :=
  let e := Z.log2 p - 52 in
  if e <=? 0 then p
  else
    let q := p / 2 ^ e in
    let r := p mod 2 ^ e in
    let half := 2 ^ (e - 1) in
    if ((half <? r) || ((r =? half) && Z.odd q))%bool
    then (q + 1) * 2 ^ e
    else q * 2 ^ e.

(** The double nearest to the integer [n], for [n] below [2 ^ 1024] in
    magnitude, where the doubles end.  Scaled by [2 ^ 53] it is also the
    double nearest to the fraction [n / 2 ^ 53]. *)
Definition to_double (n : Z) : Z := Z.sgn n * nearest53 (Z.abs n).

Definition Math_random : M Z :=
  fun w => (inr (random_source w (random_calls w) mod two53),
            {| random_source := random_source w;
               random_calls := S (random_calls w);
               console := console w |}).

(** [Math.floor(r * m)] for [r = k / 2^53] and an integer [m] that is a
    double: the product is rounded to a double, of numerator
    [to_double (k * m)] over [2^53], before the floor is taken. *)
Definition floor_times (k m : Z) : Z := to_double (k * m) / two53.

(** [r < 0.5] for [r = k / 2^53]. *)
Definition below_half (k : Z) : bool := 2 * k <? two53.

(** ** JavaScript odds and ends *)

Definition truthy (s : string) : bool := negb (s =? "")%string.

(** Template strings print an integer in decimal and a boolean as a word. *)
Definition show (z : Z) : string := NilZero.string_of_int (Z.to_int z).
Definition show_bool (b : bool) : string := if b then "true" else "false".

Definition len {A} (l : list A) : Z := Z.of_nat (List.length l).

(** [array.some(p)] and [array.includes(x)]. *)
Definition some {A} (p : A -> bool) (l : list A) : bool := existsb p l.
Definition includes (l : list string) (x : string) : bool := existsb (String.eqb x) l.

(** [array.filter(p)] for a callback with effects. *)
Fixpoint filterM {A} (p : A -> M bool) (l : list A) : M (list A) :=
  match l with
  | [] => ret []
  | x :: l' =>
      b <- p x ;;
      rest <- filterM p l' ;;
      ret (if b then x :: rest else rest)
  end.

(** [String.prototype.toUpperCase] on the ASCII letters; other bytes are
    left as they are. *)
Definition upper_ascii (c : ascii) : ascii :=
  let n := nat_of_ascii c in
  if (Nat.leb 97 n && Nat.leb n 122)%bool then ascii_of_nat (n - 32)%nat else c.

Fixpoint toUpperCase (s : string) : string :=
  match s with
  | EmptyString => EmptyString
  | String c s' => String (upper_ascii c) (toUpperCase s')
  end.

(** [parseInt(s, 10)]: leading white space, an optional sign, then the
    longest run of decimal digits; [None] is [NaN].  White space is what the
    language takes as such: the space and the characters from U+0009 to
    U+000D, of one byte, and U+00A0, U+1680, U+2000 to U+200A, U+2028,
    U+2029, U+202F, U+205F, U+3000 and U+FEFF, of two or three bytes. *)
Definition is_space (c : ascii) : bool :=
  let n := nat_of_ascii c in
  (Nat.eqb n 32 || (Nat.leb 9 n && Nat.leb n 13))%bool.

Definition is_space2 (c1 c2 : ascii) : bool :=
  (Nat.eqb (nat_of_ascii c1) 194 && Nat.eqb (nat_of_ascii c2) 160)%bool.

Definition is_space3 (c1 c2 c3 : ascii) : bool :=
  let a := nat_of_ascii c1 in
  let b := nat_of_ascii c2 in
  let c := nat_of_ascii c3 in
  ((Nat.eqb a 225 && Nat.eqb b 154 && Nat.eqb c 128)
   || (Nat.eqb a 226 && Nat.eqb b 128
       && ((Nat.leb 128 c && Nat.leb c 138) || Nat.eqb c 168 || Nat.eqb c 169
           || Nat.eqb c 175))
   || (Nat.eqb a 226 && Nat.eqb b 129 && Nat.eqb c 159)
   || (Nat.eqb a 227 && Nat.eqb b 128 && Nat.eqb c 128)
   || (Nat.eqb a 239 && Nat.eqb b 187 && Nat.eqb c 191))%bool.

Definition digit_of (c : ascii) : option Z :=
  let n := nat_of_ascii c in
  if (Nat.leb 48 n && Nat.leb n 57)%bool then Some (Z.of_nat (n - 48)%nat) else None.

Fixpoint skip_spaces (s : string) : string :=
  match s with
  | String c1 s1 =>
      if is_space c1 then skip_spaces s1
      else match s1 with
           | String c2 s2 =>
               if is_space2 c1 c2 then skip_spaces s2
               else match s2 with
                    | String c3 s3 => if is_space3 c1 c2 c3 then skip_spaces s3 else s
                    | EmptyString => s
                    end
           | EmptyString => s
           end
  | EmptyString => EmptyString
  end.

Fixpoint digits (acc : option Z) (s : string) : option Z :=
  match s with
  | String c s' =>
      match digit_of c with
      | Some d => digits (Some (10 * match acc with Some a => a | None => 0 end + d)) s'
      | None => acc
      end
  | EmptyString => acc
  end.

(** The integer that the digits spell, with its sign. *)
Definition mathInt (s : string) : option Z :=
  match skip_spaces s with
  | String "-" s' => option_map Z.opp (digits None s')
  | String "+" s' => digits None s'
  | s' => digits None s'
  end.

(** The integer [n] as a number: the double nearest to it, an infinity when
    that is beyond the doubles. *)
Definition number_of (n : Z) : number :=
  let d := to_double n in
  if Z.abs d <? 2 ^ 1024 then Finite d else Infinite (n <? 0).

Definition parseInt10 (s : string) : option number := option_map number_of (mathInt s).

(** ** Reading the input ([utils/csvReader.ts]) *)

(** What [readCsvFile] finds at a path: the file system and the CSV parser
    are outside the program, so a call is given what they answer. *)
Inductive file (T : Type) : Type :=
| NotFound
| NotAFile
| ZeroSize
| Content (rows : list T)
| StreamError (message : string)
| AccessError (e : thrown).
Arguments NotFound {T}.
Arguments NotAFile {T}.
Arguments ZeroSize {T}.
Arguments Content {T} rows.
Arguments StreamError {T} message.
Arguments AccessError {T} e.

(** [error instanceof Error ? error.message : 'Unknown error'] *)
Definition message_of (error : thrown) : string :=
  match error with
  | JsError message => message
  | JsOther => "Unknown error"
  end.

(** The promise of [readCsvFile], awaited: a rejection is a [throw]. *)
Definition readCsvFile {T} (path : string) (f : file T) : M (list T) :=
  match f with
  | NotFound => throw (JsError ("CSV file not found: " ++ path))
  | NotAFile => throw (JsError ("Path is not a file: " ++ path))
  | ZeroSize => throw (JsError ("CSV file is empty: " ++ path))
  | Content results =>
      if len results =? 0
      then throw (JsError ("No valid data found in CSV file: " ++ path))
      else
        console_log ("Successfully loaded " ++ show (len results) ++ " records from " ++ path) ;;
        ret results
  | StreamError message =>
      console_error ("Error reading CSV file " ++ path ++ ":") (ArgThrown (JsError message)) ;;
      throw (JsError ("Failed to read CSV file: " ++ path ++ ". " ++ message))
  | AccessError error =>
      console_error ("Error accessing CSV file " ++ path ++ ":") (ArgThrown error) ;;
      throw (JsError ("Failed to access CSV file: " ++ path ++ ". " ++ message_of error))
  end.

(** [raw?.toUpperCase() === 'TRUE'] *)
Definition flag (raw : option string) : bool :=
  match raw with
  | Some s => (toUpperCase s =? "TRUE")%string
  | None => false
  end.

(** [parseInt(raw, 10) || 0]: [NaN] and both zeros are falsy. *)
Definition int_or_zero (raw : string) : number :=
  match parseInt10 raw with
  | Some (Finite z) => if z =? 0 then Finite 0 else Finite z
  | Some (Infinite negative) => Infinite negative
  | None => Finite 0
  end.

Definition parseUserProfile (rawProfile : RawUserProfile.t) : M UserProfile.t :=
  try_catch
    (if (negb (truthy (RawUserProfile.id rawProfile))
         || negb (truthy (RawUserProfile.name rawProfile))
         || negb (truthy (RawUserProfile.state rawProfile)))%bool
     then throw (JsError "Profile missing required fields (id, name, state)")
     else ret {| UserProfile.id := RawUserProfile.id rawProfile;
                 UserProfile.name := RawUserProfile.name rawProfile;
                 UserProfile.state := RawUserProfile.state rawProfile;
                 UserProfile.isMarried := flag (RawUserProfile.isMarried rawProfile);
                 UserProfile.hasChildren := flag (RawUserProfile.hasChildren rawProfile);
                 UserProfile.hasPets := flag (RawUserProfile.hasPets rawProfile);
                 UserProfile.age := int_or_zero (RawUserProfile.age rawProfile) |})
    (fun error =>
       console_error "Error parsing user profile:" (ArgThrown error) ;;
       throw (JsError ("Failed to parse user profile: " ++ message_of error))).

Definition validateCharity (charity : Charity.t) : M bool :=
  try_catch
    (if (negb (truthy (Charity.id charity)) || negb (truthy (Charity.name charity)))%bool
     then console_error "Charity missing required fields (id, name):" (ArgCharity charity) ;;
          ret false
     else if (truthy (Charity.featured charity)
              && negb (includes ["NATIONAL"; "STATE"; ""] (Charity.featured charity)))%bool
     then console_error "Charity has invalid featured value:" (ArgCharity charity) ;;
          ret false
     else if ((Charity.featured charity =? "STATE")%string
              && negb (truthy (Charity.state charity)))%bool
     then console_error "State charity missing state field:" (ArgCharity charity) ;;
          ret false
     else ret true)
    (fun error =>
       console_error "Error validating charity:" (ArgThrown error) ;;
       ret false).

(** ** [shuffle] of lodash

    [charitySelector.ts] imports [shuffle] from lodash, which is not under
    [src/].  The specification asks for an unbiased shuffle, "Fisher-Yates or
    equivalent", and for draws "uniformly at random without replacement";
    lodash does it by [shuffleSelf(copyArray(array))], a Fisher-Yates pass
    that, for each [index] from the first to the last, draws
    [rand = baseRandom(index, lastIndex)] and exchanges the two elements. *)

(** [array[i] = x] on an index of the array. *)
Fixpoint set_nth {A} (i : nat) (x : A) (l : list A) : list A :=
  match l, i with
  | [], _ => []
  | _ :: l', O => x :: l'
  | y :: l', S i' => y :: set_nth i' x l'
  end.

(** Modelled from the spec: lodash's [baseRandom(lower, upper)], a random
    integer between the two bounds, [lower + floor(random() * (upper - lower + 1))].
    The bounds are indices of an array, so the sums are exact. *)
Definition baseRandom (lower upper : Z) : M Z :=
  r <- Math_random ;;
  ret (lower + floor_times r (upper - lower + 1)).

(** Modelled from the spec: the Fisher-Yates pass of lodash's [shuffleSelf],
    [while (++index < size)], with [steps] the number of turns that are left.
    Both indices are within the array on every turn; were one not, the array
    is left as it is. *)
Fixpoint shuffleSelf {A} (steps : nat) (index : Z) (array : list A) : M (list A) :=
  match steps with
  | O => ret array
  | S steps' =>
      rand <- baseRandom index (len array - 1) ;;
      match nth_error array (Z.to_nat rand), nth_error array (Z.to_nat index) with
      | Some value, Some other =>
          shuffleSelf steps' (index + 1)
            (set_nth (Z.to_nat index) value (set_nth (Z.to_nat rand) other array))
      | _, _ => shuffleSelf steps' (index + 1) array
      end
  end.

(** Modelled from the spec: lodash's [shuffle], the unbiased shuffle of a
    copy of the array. *)
Definition shuffle {A} (collection : list A) : M (list A) :=
  shuffleSelf (List.length collection) 0 collection.

(** ** The selector ([charitySelector.ts]) *)

Definition DEFAULT_CONSTRAINTS : SelectionConstraints :=
  {| totalCharities := 12; maxStateCharities := 5; minAnimalCharitiesIfPets := 4 |}.

(** [Math.floor(Math.random() * (max - min + 1)) + min] for integers [min]
    and [max] that are doubles; the difference, each sum and the product
    are rounded. *)
Definition getRandomInt (min max : Z) : M Z :=
  r <- Math_random ;;
  ret (to_double (floor_times r (to_double (to_double (max - min) + 1)) + min)).

Definition selectRandomItems {T} (items : list T) (count : Z) : M (list T) :=
  try_catch
    (if count <=? 0 then ret []
     else if count >=? len items then shuffle items
     else
       shuffled <- shuffle items ;;
       ret (firstn (Z.to_nat count) shuffled))
    (fun error =>
       console_error "Error selecting random items:" (ArgThrown error) ;;
       ret []).

Definition createTailoringRules (_ : unit) : list TailoringRule :=
  [ {| applies := fun profile => UserProfile.hasPets profile;
       getMinCount := fun _ => minAnimalCharitiesIfPets DEFAULT_CONSTRAINTS;
       getCategory := fun _ => "ANIMAL_RELATED" |} ].

(** What [applyTailoringRules] returns, and what its loop carries. *)
Record Tailored : Type :=
  { national : list Charity.t;
    state : list Charity.t;
    remainingNational : Z;
    remainingState : Z }.

Definition same_id (c : Charity.t) (s : Charity.t) : bool :=
  (Charity.id s =? Charity.id c)%string.

(** The loop [for (let i = 0; i < actualMinCount; i++)] (lines 82-98), with
    [turns] turns left. *)
Fixpoint distribute (turns : nat) (maxFromState maxFromNational fromState fromNational : Z)
  : M (Z * Z) :=
  match turns with
  | O => ret (fromState, fromNational)
  | S turns' =>
      let canPickState := fromState <? maxFromState in
      let canPickNational := fromNational <? maxFromNational in
      if (canPickState && canPickNational)%bool then
        r <- Math_random ;;
        if below_half r
        then distribute turns' maxFromState maxFromNational (fromState + 1) fromNational
        else distribute turns' maxFromState maxFromNational fromState (fromNational + 1)
      else if canPickState
      then distribute turns' maxFromState maxFromNational (fromState + 1) fromNational
      else if canPickNational
      then distribute turns' maxFromState maxFromNational fromState (fromNational + 1)
      else distribute turns' maxFromState maxFromNational fromState fromNational
  end.

(** The items of a pool that a rule can still take (lines 59-64). *)
Definition available (category : string) (taken pool : list Charity.t) : list Charity.t :=
  filter (fun c => ((Charity.category c =? category)%string
                    && negb (some (same_id c) taken))%bool) pool.

(** The [try] block of one turn of [for (const rule of rules)]
    (lines 56-108). *)
Definition applyRule_try (profile : UserProfile.t)
    (nationalCharities stateCharities : list Charity.t)
    (rule : TailoringRule) (acc : Tailored) : M Tailored :=
  let category := getCategory rule tt in
  let minCount := getMinCount rule profile in
  let availableNational := available category (national acc) nationalCharities in
  let availableState := available category (state acc) stateCharities in
  let totalAvailable := len availableNational + len availableState in
  (if totalAvailable <? minCount
   then console_warn ("Warning: Only " ++ show totalAvailable ++ " " ++ category
                      ++ " charities available, need " ++ show minCount)
   else ret tt) ;;
  let actualMinCount :=
    Z.min minCount (Z.min totalAvailable (remainingNational acc + remainingState acc)) in
  if actualMinCount <=? 0 then ret acc
  else
    let maxFromState := Z.min (remainingState acc) (len availableState) in
    let maxFromNational := Z.min (remainingNational acc) (len availableNational) in
    picked <- distribute (Z.to_nat actualMinCount) maxFromState maxFromNational 0 0 ;;
    let fromState := fst picked in
    let fromNational := snd picked in
    newStateCharities <- selectRandomItems availableState fromState ;;
    newNationalCharities <- selectRandomItems availableNational fromNational ;;
    console_log ("Applied " ++ getCategory rule tt ++ " rule: selected "
                 ++ show fromNational ++ " national + " ++ show fromState
                 ++ " state charities") ;;
    ret {| national := national acc ++ newNationalCharities;
           state := state acc ++ newStateCharities;
           remainingNational := remainingNational acc - fromNational;
           remainingState := remainingState acc - fromState |}.

(** One turn of [for (const rule of rules)] (lines 53-111).  Nothing can
    throw between the first [push] and the end of the [try] block, so the
    handler finds the four variables as they were before the turn. *)
Definition applyRule (profile : UserProfile.t) (nationalCharities stateCharities : list Charity.t)
    (rule : TailoringRule) (acc : Tailored) : M Tailored :=
  if negb (applies rule profile) then ret acc
  else
    try_catch
      (applyRule_try profile nationalCharities stateCharities rule acc)
      (fun error =>
         console_error ("Error applying tailoring rule for " ++ getCategory rule tt ++ ":")
           (ArgThrown error) ;;
         ret acc).

Fixpoint forRules (profile : UserProfile.t) (nationalCharities stateCharities : list Charity.t)
    (rules : list TailoringRule) (acc : Tailored) : M Tailored :=
  match rules with
  | [] => ret acc
  | rule :: rules' =>
      acc' <- applyRule profile nationalCharities stateCharities rule acc ;;
      forRules profile nationalCharities stateCharities rules' acc'
  end.

Definition applyTailoringRules (profile : UserProfile.t)
    (nationalCharities stateCharities : list Charity.t)
    (selectedNationalCount selectedStateCount : Z) : M Tailored :=
  try_catch
    (let rules := createTailoringRules tt in
     forRules profile nationalCharities stateCharities rules
       {| national := []; state := [];
          remainingNational := selectedNationalCount;
          remainingState := selectedStateCount |})
    (fun error =>
       console_error "Error applying tailoring rules:" (ArgThrown error) ;;
       ret {| national := []; state := [];
              remainingNational := selectedNationalCount;
              remainingState := selectedStateCount |}).

Definition is_national (c : Charity.t) : bool := (Charity.featured c =? "NATIONAL")%string.

Definition is_state_of (userProfile : UserProfile.t) (c : Charity.t) : bool :=
  ((Charity.featured c =? "STATE")%string
   && (Charity.state c =? UserProfile.state userProfile)%string)%bool.

Definition is_animal (c : Charity.t) : bool := (Charity.category c =? "ANIMAL_RELATED")%string.

(** Lines 157-185 of [selectCharities]: the two targets after the check
    that the animal minimum can be met; the result is
    [(selectedStateCount, selectedNationalCount)]. *)
Definition rebalanceForAnimals (userProfile : UserProfile.t)
    (nationalCharities stateCharities : list Charity.t)
    (selectedStateCount selectedNationalCount : Z) : Z * Z :=
  if UserProfile.hasPets userProfile then
    let availableAnimalNational := len (filter is_animal nationalCharities) in
    let availableAnimalState := len (filter is_animal stateCharities) in
    let totalAvailableAnimals := availableAnimalNational + availableAnimalState in
    if totalAvailableAnimals >=? minAnimalCharitiesIfPets DEFAULT_CONSTRAINTS then
      let maxAnimalFromState := Z.min availableAnimalState selectedStateCount in
      let maxAnimalFromNational := Z.min availableAnimalNational selectedNationalCount in
      if maxAnimalFromState + maxAnimalFromNational <? minAnimalCharitiesIfPets DEFAULT_CONSTRAINTS then
        let neededMoreAnimals :=
          minAnimalCharitiesIfPets DEFAULT_CONSTRAINTS - (maxAnimalFromState + maxAnimalFromNational) in
        if ((availableAnimalNational >? maxAnimalFromNational)
            && (selectedNationalCount <? len nationalCharities))%bool then
          let canIncrease :=
            Z.min neededMoreAnimals
              (Z.min (availableAnimalNational - maxAnimalFromNational)
                     (len nationalCharities - selectedNationalCount)) in
          (selectedStateCount - canIncrease, selectedNationalCount + canIncrease)
        else if ((availableAnimalState >? maxAnimalFromState)
                 && (selectedStateCount
                     <? Z.min (maxStateCharities DEFAULT_CONSTRAINTS) (len stateCharities)))%bool then
          let canIncrease :=
            Z.min neededMoreAnimals
              (Z.min (availableAnimalState - maxAnimalFromState)
                     (Z.min (maxStateCharities DEFAULT_CONSTRAINTS) (len stateCharities)
                      - selectedStateCount)) in
          (selectedStateCount + canIncrease, selectedNationalCount - canIncrease)
        else (selectedStateCount, selectedNationalCount)
      else (selectedStateCount, selectedNationalCount)
    else (selectedStateCount, selectedNationalCount)
  else (selectedStateCount, selectedNationalCount).

Definition insufficient_total (totalAvailable nationalCount selectedStateCount : Z) : string :=
  "Insufficient total charities: need " ++ show (totalCharities DEFAULT_CONSTRAINTS)
  ++ ", have " ++ show totalAvailable ++ " (" ++ show nationalCount ++ " national + "
  ++ show selectedStateCount ++ " state)".

(** Lines 189-211 of [selectCharities]: the targets are adjusted to what
    the national pool holds, or the call fails; the result is
    [(selectedStateCount, selectedNationalCount)]. *)
Definition adjustTargets (nationalCharities stateCharities : list Charity.t)
    (selectedStateCount selectedNationalCount : Z) : M (Z * Z) :=
  if selectedNationalCount >? len nationalCharities then
    let shortage := selectedNationalCount - len nationalCharities in
    console_warn ("Insufficient national charities: need " ++ show selectedNationalCount
                  ++ ", have " ++ show (len nationalCharities) ++ ". Adjusting targets.") ;;
    let maxPossibleStateAdjusted :=
      Z.min (maxStateCharities DEFAULT_CONSTRAINTS) (len stateCharities) in
    let canAddToState := Z.min shortage (maxPossibleStateAdjusted - selectedStateCount) in
    let selectedStateCount := selectedStateCount + canAddToState in
    let selectedNationalCount := selectedNationalCount - canAddToState in
    if selectedNationalCount >? len nationalCharities then
      let selectedNationalCount := len nationalCharities in
      let totalAvailable := len nationalCharities + selectedStateCount in
      if totalAvailable <? totalCharities DEFAULT_CONSTRAINTS
      then throw (JsError (insufficient_total totalAvailable (len nationalCharities) selectedStateCount))
      else ret (selectedStateCount, selectedNationalCount)
    else ret (selectedStateCount, selectedNationalCount)
  else ret (selectedStateCount, selectedNationalCount).

Definition insufficient_charities (have : Z) : string :=
  "Insufficient charities: need " ++ show (totalCharities DEFAULT_CONSTRAINTS)
  ++ ", have " ++ show have.

Definition count_mismatch (expectedCount got : Z) : string :=
  "Selection count mismatch: expected " ++ show expectedCount ++ ", got " ++ show got.

(** The [try] block of [selectCharities] (lines 123-253) is written in three
    parts, in the order of the source: what is read and checked before the
    pools exist, the pools and the two targets, and the selection. *)

(** Lines 123-142: the two files, the profile, the valid charities and the
    check of their number. *)
Definition loadInputs (charitiesPath profilePath : string)
    (charitiesFile : file Charity.t) (profileFile : file RawUserProfile.t)
  : M (UserProfile.t * list Charity.t) :=
  console_log "Starting charity selection process..." ;;
  rawCharities <- readCsvFile charitiesPath charitiesFile ;;
  rawProfiles <- readCsvFile profilePath profileFile ;;
  match rawProfiles with
  | [] => throw (JsError "No user profile found in profile CSV")
  | first :: _ =>
      userProfile <- parseUserProfile first ;;
      console_log ("User profile loaded: " ++ UserProfile.name userProfile ++ " from "
                   ++ UserProfile.state userProfile ++ ", hasPets: "
                   ++ show_bool (UserProfile.hasPets userProfile)) ;;
      validCharities <- filterM validateCharity rawCharities ;;
      console_log (show (len validCharities) ++ " valid charities out of "
                   ++ show (len rawCharities) ++ " total") ;;
      if len validCharities <? totalCharities DEFAULT_CONSTRAINTS
      then throw (JsError (insufficient_charities (len validCharities)))
      else ret (userProfile, validCharities)
  end.

(** The pools and the targets that the selection starts from. *)
Record Plan : Type :=
  { nationalCharities : list Charity.t;
    stateCharities : list Charity.t;
    selectedStateCount : Z;
    selectedNationalCount : Z }.

(** Lines 144-211: the pools, the random number of state charities, and the
    two adjustments of the targets. *)
Definition planTargets (userProfile : UserProfile.t) (validCharities : list Charity.t)
  : M Plan :=
  let nationalCharities := filter is_national validCharities in
  let stateCharities := filter (is_state_of userProfile) validCharities in
  console_log ("Available: " ++ show (len nationalCharities) ++ " national, "
               ++ show (len stateCharities) ++ " state charities") ;;
  let maxPossibleState :=
    Z.min (maxStateCharities DEFAULT_CONSTRAINTS) (len stateCharities) in
  drawn <- getRandomInt 0 maxPossibleState ;;
  let targets :=
    rebalanceForAnimals userProfile nationalCharities stateCharities
      drawn (totalCharities DEFAULT_CONSTRAINTS - drawn) in
  console_log ("Target selection: " ++ show (snd targets) ++ " national + "
               ++ show (fst targets) ++ " state = "
               ++ show (totalCharities DEFAULT_CONSTRAINTS) ++ " total") ;;
  adjusted <- adjustTargets nationalCharities stateCharities (fst targets) (snd targets) ;;
  ret {| nationalCharities := nationalCharities;
         stateCharities := stateCharities;
         selectedStateCount := fst adjusted;
         selectedNationalCount := snd adjusted |}.

(** Lines 213-253: the tailoring rules, the filling of what is left, the
    check of the count and the last shuffle. *)
Definition fillSelection (userProfile : UserProfile.t) (plan : Plan) : M (list Charity.t) :=
  tailoringResult <- applyTailoringRules userProfile
                       (nationalCharities plan) (stateCharities plan)
                       (selectedNationalCount plan) (selectedStateCount plan) ;;
  let remainingNationalCharities :=
    filter (fun c => negb (some (same_id c) (national tailoringResult)))
           (nationalCharities plan) in
  let remainingStateCharities :=
    filter (fun c => negb (some (same_id c) (state tailoringResult)))
           (stateCharities plan) in
  additionalNational <-
    selectRandomItems remainingNationalCharities (remainingNational tailoringResult) ;;
  additionalState <-
    selectRandomItems remainingStateCharities (remainingState tailoringResult) ;;
  let finalSelection :=
    national tailoringResult ++ state tailoringResult
    ++ additionalNational ++ additionalState in
  let expectedCount :=
    Z.min (totalCharities DEFAULT_CONSTRAINTS)
          (len (nationalCharities plan) + len (stateCharities plan)) in
  if negb (len finalSelection =? expectedCount)
  then throw (JsError (count_mismatch expectedCount (len finalSelection)))
  else
    shuffledResults <- shuffle finalSelection ;;
    console_log ("Successfully selected " ++ show (len shuffledResults) ++ " charities") ;;
    console_log ("Final distribution: "
                 ++ show (len (filter is_national shuffledResults)) ++ " national, "
                 ++ show (len (filter (fun c => (Charity.featured c =? "STATE")%string)
                                 shuffledResults)) ++ " state") ;;
    ret shuffledResults.

(** Everything that comes before [applyTailoringRules]. *)
Definition planning (charitiesPath profilePath : string)
    (charitiesFile : file Charity.t) (profileFile : file RawUserProfile.t)
  : M (UserProfile.t * Plan) :=
  loaded <- loadInputs charitiesPath profilePath charitiesFile profileFile ;;
  plan <- planTargets (fst loaded) (snd loaded) ;;
  ret (fst loaded, plan).

Definition selectCharities_try (charitiesPath profilePath : string)
    (charitiesFile : file Charity.t) (profileFile : file RawUserProfile.t)
  : M (list Charity.t) :=
  planned <- planning charitiesPath profilePath charitiesFile profileFile ;;
  fillSelection (fst planned) (snd planned).

Definition selection_failed (inner : string) : string := "Charity selection failed: " ++ inner.

Definition selectCharities (charitiesPath profilePath : string)
    (charitiesFile : file Charity.t) (profileFile : file RawUserProfile.t)
  : M (list Charity.t) :=
  try_catch
    (selectCharities_try charitiesPath profilePath charitiesFile profileFile)
    (fun error =>
       console_error "Error in selectCharities:" (ArgThrown error) ;;
       throw (JsError (selection_failed (message_of error)))).

(** ** The command line ([index.ts]) *)

(** How a run of the program can end: a function returns, throws, or the
    process is ended by [process.exit(code)], which no [catch] sees. *)
Inductive ending (A : Type) : Type :=
| Returned (a : A)
| Threw (e : thrown)
| Exited (code : Z).
Arguments Returned {A} a.
Arguments Threw {A} e.
Arguments Exited {A} code.

Definition Proc (A : Type) : Type := World -> ending A * World.

Definition lift {A} (m : M A) : Proc A :=
  fun w => match m w with
           | (inl e, w') => (Threw e, w')
           | (inr a, w') => (Returned a, w')
           end.

Definition andThen {A B} (m : Proc A) (f : A -> Proc B) : Proc B :=
  fun w => match m w with
           | (Returned a, w') => f a w'
           | (Threw e, w') => (Threw e, w')
           | (Exited code, w') => (Exited code, w')
           end.

Definition catching {A} (body : Proc A) (handler : thrown -> Proc A) : Proc A :=
  fun w => match body w with
           | (Threw e, w') => handler e w'
           | (Returned a, w') => (Returned a, w')
           | (Exited code, w') => (Exited code, w')
           end.

Definition process_exit {A} (code : Z) : Proc A := fun w => (Exited code, w).

Declare Scope proc_scope.
Delimit Scope proc_scope with proc.
Notation "x <- m ;; k" := (andThen m (fun x => k))
  (at level 61, m at next level, right associativity) : proc_scope.
Notation "m ;; k" := (andThen m (fun _ => k))
  (at level 61, right associativity) : proc_scope.

(** What the process is started with: its arguments, the variable
    [NODE_ENV], what the file system holds at each path, and the text that
    the platform gives as the [stack] of an [Error] with a given message. *)
Record Process : Type :=
  { argv : list string;
    NODE_ENV : option string;
    stack_of : string -> string;
    charities_at : string -> file Charity.t;
    profiles_at : string -> file RawUserProfile.t }.

Definition usage_line : string :=
  "Usage: node index.js <charities_csv_path> <profile_csv_path>".

Definition example_line : string :=
  "Example: node index.js charities.csv example-profile.csv".

(** An argument that is missing is [undefined], which [!] takes as it takes
    the empty string. *)
Definition validateCommandLineArgs (env : Process) : Proc (string * string) :=
  let charitiesPath := nth_error (argv env) 2 in
  let profilePath := nth_error (argv env) 3 in
  match charitiesPath, profilePath with
  | Some charitiesPath, Some profilePath =>
      if (negb (truthy charitiesPath) || negb (truthy profilePath))%bool
      then (lift (console_print ERROR usage_line None) ;;
            lift (console_print ERROR example_line None) ;;
            process_exit 1)%proc
      else lift (ret (charitiesPath, profilePath))
  | _, _ =>
      (lift (console_print ERROR usage_line None) ;;
       lift (console_print ERROR example_line None) ;;
       process_exit 1)%proc
  end.

(** [JSON.stringify] on a string: the quotation mark, the backslash and the
    control characters are escaped, every other byte stands for itself. *)
Definition quotation : string := String "034" EmptyString.
Definition backslash : string := String "092" EmptyString.

Definition hex_digit (n : nat) : string :=
  String (nth n ["0"; "1"; "2"; "3"; "4"; "5"; "6"; "7"; "8"; "9";
                 "a"; "b"; "c"; "d"; "e"; "f"]%char "0"%char) EmptyString.

Definition escape_char (c : ascii) : string :=
  let n := nat_of_ascii c in
  if Nat.eqb n 8 then backslash ++ "b"
  else if Nat.eqb n 9 then backslash ++ "t"
  else if Nat.eqb n 10 then backslash ++ "n"
  else if Nat.eqb n 12 then backslash ++ "f"
  else if Nat.eqb n 13 then backslash ++ "r"
  else if Nat.eqb n 34 then backslash ++ quotation
  else if Nat.eqb n 92 then backslash ++ backslash
  else if Nat.ltb n 32
       then backslash ++ "u00" ++ hex_digit (Nat.div n 16) ++ hex_digit (Nat.modulo n 16)
       else String c EmptyString.

Fixpoint escape (s : string) : string :=
  match s with
  | EmptyString => EmptyString
  | String c s' => escape_char c ++ escape s'
  end.

Definition JSON_string (s : string) : string := quotation ++ escape s ++ quotation.

Definition JSON_key (k : string) : string := quotation ++ k ++ quotation ++ ":".

(** [JSON.stringify(output)] for the object of lines 277-283, whose five
    values are strings, as [types.ts] has them and as [csv-parser] gives
    them for a file with the five columns. *)
Definition JSON_charity (charity : Charity.t) : string :=
  "{" ++ JSON_key "id" ++ JSON_string (Charity.id charity)
  ++ "," ++ JSON_key "name" ++ JSON_string (Charity.name charity)
  ++ "," ++ JSON_key "state" ++ JSON_string (Charity.state charity)
  ++ "," ++ JSON_key "category" ++ JSON_string (Charity.category charity)
  ++ "," ++ JSON_key "featured" ++ JSON_string (Charity.featured charity)
  ++ "}".

Definition formatCharityOutput (charity : Charity.t) : M string :=
  try_catch
    (ret (JSON_charity charity))
    (fun error =>
       console_error "Error formatting charity output:" (ArgThrown error) ;;
       ret ("{" ++ JSON_key "error" ++ JSON_string "Failed to format charity data" ++ "}")%string).

(** [array.forEach((item, index) => ...)] from [index] on. *)
Fixpoint forEach {T} (l : list T) (index : Z) (f : T -> Z -> M unit) : M unit :=
  match l with
  | [] => ret tt
  | x :: l' => f x index ;; forEach l' (index + 1) f
  end.

(** [console.error] with two strings prints them with a space between
    them. *)
Definition main (env : Process) : Proc unit :=
  catching
    (lift (console_log "FreeWill Charity Selector") ;;
     lift (console_log "========================") ;;
     paths <- validateCommandLineArgs env ;;
     let charitiesPath := fst paths in
     let profilePath := snd paths in
     lift (console_log ("Charities file: " ++ charitiesPath)%string) ;;
     lift (console_log ("Profile file: " ++ profilePath)%string) ;;
     lift (console_log "") ;;
     selectedCharities <-
       lift (selectCharities charitiesPath profilePath
               (charities_at env charitiesPath) (profiles_at env profilePath)) ;;
     lift (console_log "Selected Charities:") ;;
     lift (console_log "==================") ;;
     lift (forEach selectedCharities 0
             (fun charity index =>
                try_catch
                  (line <- formatCharityOutput charity ;; console_log line)%js
                  (fun error =>
                     console_error ("Error outputting charity " ++ show (index + 1) ++ ":")%string
                       (ArgThrown error)))) ;;
     lift (console_log "") ;;
     lift (console_log ("Total charities selected: " ++ show (len selectedCharities))%string))%proc
    (fun error =>
       (lift (console_print ERROR "" None) ;;
        lift (console_print ERROR "CHARITY SELECTION FAILED" None) ;;
        lift (console_print ERROR "========================" None) ;;
        lift (match error with
              | JsError message =>
                  (console_print ERROR ("Error: " ++ message)%string None ;;
                   match NODE_ENV env with
                   | Some mode =>
                       if (mode =? "development")%string
                       then console_print ERROR ("Stack trace: " ++ stack_of env message)%string None
                       else ret tt
                   | None => ret tt
                   end)%js
              | JsOther => console_error "Unknown error occurred:" (ArgThrown error)
              end) ;;
        process_exit 1)%proc).

(** * The vocabulary of the properties *)

(** ** Tactics *)

(** Comparisons that a test has decided, as propositions. *)
Ltac decided :=
  repeat match goal with
    | H : (_ >=? _) = _ |- _ => rewrite Z.geb_leb in H
    | H : (_ >? _) = _ |- _ => rewrite Z.gtb_ltb in H
    | H : (_ <=? _) = true |- _ => apply Z.leb_le in H
    | H : (_ <=? _) = false |- _ => apply Z.leb_gt in H
    | H : (_ <? _) = true |- _ => apply Z.ltb_lt in H
    | H : (_ <? _) = false |- _ => apply Z.ltb_ge in H
    | H : (_ =? _) = true |- _ => apply Z.eqb_eq in H
    | H : (_ =? _) = false |- _ => apply Z.eqb_neq in H
    end.

(** Unfold the plumbing of the monad and the console in the goal. *)
Ltac plumbing :=
  cbv [bind ret throw try_catch console_log console_warn console_error console_print];
  cbv beta iota.

(** ** The checks of the input, without their effects *)

(** What [validateCharity] answers, without the console. *)
Definition is_valid (charity : Charity.t) : bool :=
  if (negb (truthy (Charity.id charity)) || negb (truthy (Charity.name charity)))%bool
  then false
  else if (truthy (Charity.featured charity)
           && negb (includes ["NATIONAL"; "STATE"; ""] (Charity.featured charity)))%bool
  then false
  else if ((Charity.featured charity =? "STATE")%string
           && negb (truthy (Charity.state charity)))%bool
  then false
  else true.

(** The test and the record of [parseUserProfile]. *)
Definition profile_ok (rawProfile : RawUserProfile.t) : bool :=
  (truthy (RawUserProfile.id rawProfile)
   && truthy (RawUserProfile.name rawProfile)
   && truthy (RawUserProfile.state rawProfile))%bool.

Definition profile_of (rawProfile : RawUserProfile.t) : UserProfile.t :=
  {| UserProfile.id := RawUserProfile.id rawProfile;
     UserProfile.name := RawUserProfile.name rawProfile;
     UserProfile.state := RawUserProfile.state rawProfile;
     UserProfile.isMarried := flag (RawUserProfile.isMarried rawProfile);
     UserProfile.hasChildren := flag (RawUserProfile.hasChildren rawProfile);
     UserProfile.hasPets := flag (RawUserProfile.hasPets rawProfile);
     UserProfile.age := int_or_zero (RawUserProfile.age rawProfile) |}.

Definition profile_failure : string :=
  "Failed to parse user profile: Profile missing required fields (id, name, state)".

(** A file is read when it holds at least one row. *)
Definition loaded {T} (f : file T) (rows : list T) : Prop :=
  f = Content rows /\ rows <> [].

(** The two files are read and the profile has its three fields. *)
Definition good_inputs (charitiesFile : file Charity.t) (profileFile : file RawUserProfile.t)
    (raw : list Charity.t) (first : RawUserProfile.t) : Prop :=
  loaded charitiesFile raw
  /\ (exists others, loaded profileFile (first :: others))
  /\ profile_ok first = true.

(** ** Pools and targets *)

Definition nationalPool (raw : list Charity.t) : list Charity.t :=
  filter is_national (filter is_valid raw).

Definition statePool (userProfile : UserProfile.t) (raw : list Charity.t) : list Charity.t :=
  filter (is_state_of userProfile) (filter is_valid raw).

(** The items a user can be shown: valid, and featured nationally or in the
    user's state. *)
Definition eligible (userProfile : UserProfile.t) (c : Charity.t) : bool :=
  (is_valid c && (is_national c || is_state_of userProfile c))%bool.

(** What the state pool can give at most, and what both pools can. *)
Definition stateCap (statePool : list Charity.t) : Z :=
  Z.min (maxStateCharities DEFAULT_CONSTRAINTS) (len statePool).

Definition achievable (nationalPool statePool : list Charity.t) : Z :=
  len nationalPool + stateCap statePool.

(** The animals that both targets leave room for. *)
Definition animal_room (nationalPool statePool : list Charity.t) (n0 s0 : Z) : Z :=
  Z.min (len (filter is_animal statePool)) s0 + Z.min (len (filter is_animal nationalPool)) n0.

(** What [planTargets] hands to the selection. *)
Record well_planned (userProfile : UserProfile.t) (raw : list Charity.t) (plan : Plan)
  : Prop :=
  { wp_national : nationalCharities plan = nationalPool raw;
    wp_state : stateCharities plan = statePool userProfile raw;
    wp_state_count : 0 <= selectedStateCount plan <= stateCap (statePool userProfile raw);
    wp_national_count : 0 <= selectedNationalCount plan <= len (nationalPool raw);
    wp_total :
      selectedStateCount plan + selectedNationalCount plan = totalCharities DEFAULT_CONSTRAINTS;
    wp_animals :
      UserProfile.hasPets userProfile = true ->
      minAnimalCharitiesIfPets DEFAULT_CONSTRAINTS
      <= len (filter is_animal (nationalPool raw))
         + len (filter is_animal (statePool userProfile raw)) ->
      minAnimalCharitiesIfPets DEFAULT_CONSTRAINTS
      <= animal_room (nationalPool raw) (statePool userProfile raw)
           (selectedNationalCount plan) (selectedStateCount plan) }.

Definition expectedCount (plan : Plan) : Z :=
  Z.min (totalCharities DEFAULT_CONSTRAINTS)
        (len (nationalCharities plan) + len (stateCharities plan)).

(** ** What the rules and the filling keep true *)

Definition of_category (category : string) (c : Charity.t) : Prop :=
  Charity.category c = category.

(** What the loop over the rules keeps true: the counts add up, what is
    selected comes from the pools, and its ids are distinct when those of
    the pools are. *)
Record tailoring_inv (nationalPool statePool : list Charity.t) (n0 s0 : Z) (acc : Tailored)
  : Prop :=
  { inv_national_count : len (national acc) + remainingNational acc = n0;
    inv_national_left : 0 <= remainingNational acc;
    inv_state_count : len (state acc) + remainingState acc = s0;
    inv_state_left : 0 <= remainingState acc;
    inv_national_incl : incl (national acc) nationalPool;
    inv_state_incl : incl (state acc) statePool;
    inv_national_ids :
      NoDup (map Charity.id nationalPool) -> NoDup (map Charity.id (national acc));
    inv_state_ids :
      NoDup (map Charity.id statePool) -> NoDup (map Charity.id (state acc)) }.

(** How many items a rule that applies takes in its turn. *)
Definition taken_by (rule : TailoringRule) (profile : UserProfile.t)
    (nationalPool statePool : list Charity.t) (acc : Tailored) : Z :=
  let availableNational := available (getCategory rule tt) (national acc) nationalPool in
  let availableState := available (getCategory rule tt) (state acc) statePool in
  Z.max 0
    (Z.min (Z.min (getMinCount rule profile)
                  (Z.min (len availableNational + len availableState)
                         (remainingNational acc + remainingState acc)))
           (Z.min (remainingState acc) (len availableState)
            + Z.min (remainingNational acc) (len availableNational))).

(** What [fillSelection] puts together before the last shuffle: the items
    taken from the national pool and those taken from the state pool. *)
Record assembled (userProfile : UserProfile.t) (plan : Plan)
    (fromNational fromState : list Charity.t) : Prop :=
  { asm_national_incl : incl fromNational (nationalCharities plan);
    asm_state_incl : incl fromState (stateCharities plan);
    asm_national_len : len fromNational <= selectedNationalCount plan;
    asm_state_len : len fromState <= selectedStateCount plan;
    asm_national_full :
      NoDup (map Charity.id (nationalCharities plan)) ->
      selectedNationalCount plan <= len (nationalCharities plan) ->
      len fromNational = selectedNationalCount plan;
    asm_state_full :
      NoDup (map Charity.id (stateCharities plan)) ->
      selectedStateCount plan <= len (stateCharities plan) ->
      len fromState = selectedStateCount plan;
    asm_national_ids :
      NoDup (map Charity.id (nationalCharities plan)) ->
      NoDup (map Charity.id fromNational);
    asm_state_ids :
      NoDup (map Charity.id (stateCharities plan)) ->
      NoDup (map Charity.id fromState);
    asm_animals :
      UserProfile.hasPets userProfile = true ->
      minAnimalCharitiesIfPets DEFAULT_CONSTRAINTS
      <= animal_room (nationalCharities plan) (stateCharities plan)
           (selectedNationalCount plan) (selectedStateCount plan) ->
      minAnimalCharitiesIfPets DEFAULT_CONSTRAINTS
      <= len (filter is_animal (fromNational ++ fromState)) }.

(** ** Outcomes of a call *)

(** The kinds of failure of the taxonomy, told apart by the text. *)
Definition is_capacity_message (m : string) : bool :=
  String.prefix "Insufficient total charities" m.

Definition is_mismatch_message (m : string) : bool :=
  String.prefix "Selection count mismatch" m.

Definition is_upfront_message (m : string) : bool :=
  String.prefix "Insufficient charities" m.

(** A failure of lines 123-142: no pool exists yet and nothing was drawn. *)
Definition fails_before_pools {A} (charitiesFile : file Charity.t)
    (profileFile : file RawUserProfile.t) (r : thrown + A) (w w' : World) : Prop :=
  exists m,
    r = inl (JsError m)
    /\ is_capacity_message m = false
    /\ is_mismatch_message m = false
    /\ random_calls w' = random_calls w
    /\ forall raw first,
        good_inputs charitiesFile profileFile raw first ->
        len (filter is_valid raw) < totalCharities DEFAULT_CONSTRAINTS
        /\ m = insufficient_charities (len (filter is_valid raw)).

(** A failure of lines 144-211: the pools exist, the number of state
    charities was drawn, the tailoring rules were not entered. *)
Definition fails_in_planning {A} (charitiesFile : file Charity.t)
    (profileFile : file RawUserProfile.t) (r : thrown + A) (w w' : World) : Prop :=
  exists raw first,
    good_inputs charitiesFile profileFile raw first
    /\ totalCharities DEFAULT_CONSTRAINTS <= len (filter is_valid raw)
    /\ achievable (nationalPool raw) (statePool (profile_of first) raw)
       < totalCharities DEFAULT_CONSTRAINTS
    /\ r = inl (JsError (insufficient_total
                           (achievable (nationalPool raw) (statePool (profile_of first) raw))
                           (len (nationalPool raw))
                           (stateCap (statePool (profile_of first) raw))))
    /\ random_calls w' = S (random_calls w).

(** The call reached the selection: it returns a rearrangement of what
    was assembled, or fails the check of the count. *)
Definition selected (charitiesFile : file Charity.t) (profileFile : file RawUserProfile.t)
    (r : thrown + list Charity.t) : Prop :=
  exists raw first plan fromNational fromState,
    good_inputs charitiesFile profileFile raw first
    /\ totalCharities DEFAULT_CONSTRAINTS
       <= achievable (nationalPool raw) (statePool (profile_of first) raw)
    /\ well_planned (profile_of first) raw plan
    /\ assembled (profile_of first) plan fromNational fromState
    /\ if len fromNational + len fromState =? expectedCount plan
       then exists result, r = inr result /\ Permutation (fromNational ++ fromState) result
       else r = inl (JsError (count_mismatch (expectedCount plan)
                                (len fromNational + len fromState))).

(** ** Inputs of the test suite *)

Definition row (i : Z) (category featured state : string) : Charity.t :=
  {| Charity.id := show i; Charity.name := "Charity " ++ show i;
     Charity.state := state; Charity.category := category; Charity.featured := featured |}.

Fixpoint rows (n : nat) (from : Z) (category featured state : string) : list Charity.t :=
  match n with
  | O => []
  | S n' => row from category featured state :: rows n' (from + 1) category featured state
  end.

(** [tests/data/test-profile-with-pets.csv]: a user of New York with pets. *)
Definition pet_owner : RawUserProfile.t :=
  {| RawUserProfile.id := "1"; RawUserProfile.name := "Test User";
     RawUserProfile.state := "NEW_YORK";
     RawUserProfile.isMarried := Some "TRUE"; RawUserProfile.hasChildren := Some "FALSE";
     RawUserProfile.hasPets := Some "TRUE"; RawUserProfile.age := "35" |}.

(** "should handle boundary cases correctly": 8 national and 4 of the state. *)
Definition boundary_charities : list Charity.t :=
  rows 4 1 "OTHER" "NATIONAL" "TEXAS" ++ rows 4 5 "ANIMAL_RELATED" "NATIONAL" "TEXAS"
  ++ rows 3 9 "OTHER" "STATE" "NEW_YORK" ++ rows 1 12 "ANIMAL_RELATED" "STATE" "NEW_YORK".

(** "should handle case with only state charities available". *)
Definition only_state_charities : list Charity.t := rows 12 1 "OTHER" "STATE" "NEW_YORK".

(** "should throw error when insufficient charities available". *)
Definition five_national_charities : list Charity.t := rows 5 1 "OTHER" "NATIONAL" "NEW_YORK".

(** "should handle minimum animal charity requirement edge cases". *)
Definition exact_animal_charities : list Charity.t :=
  rows 2 1 "ANIMAL_RELATED" "NATIONAL" "TEXAS" ++ rows 2 3 "ANIMAL_RELATED" "STATE" "NEW_YORK"
  ++ rows 15 5 "OTHER" "NATIONAL" "NEW_YORK".

(** Eight national rows and four of the state, where one national row has
    the id of another, an animal charity. *)
Definition repeated_id_charities : list Charity.t :=
  rows 3 1 "OTHER" "NATIONAL" "TEXAS" ++ [row 5 "OTHER" "NATIONAL" "TEXAS"]
  ++ rows 4 5 "ANIMAL_RELATED" "NATIONAL" "TEXAS" ++ rows 4 9 "OTHER" "STATE" "NEW_YORK".

(** Twelve valid rows of which only five are featured. *)
Definition mostly_unfeatured_charities : list Charity.t :=
  rows 5 1 "OTHER" "NATIONAL" "TEXAS" ++ rows 7 6 "OTHER" "" "NEW_YORK".

(** A world with nothing printed yet and some random source. *)
Definition start : World :=
  {| random_source := fun k => (Z.of_nat k + 1) * 6364136223846793005 + 1442695040888963407;
     random_calls := 0;
     console := [] |}.

Definition run (raw : list Charity.t) : (thrown + list Charity.t) * World :=
  selectCharities "charities.csv" "profile.csv" (Content raw) (Content [pet_owner]) start.

Definition returned (outcome : (thrown + list Charity.t) * World) : list Charity.t :=
  match fst outcome with
  | inr result => result
  | inl _ => []
  end.

(** ** Numerals *)

(** The number that a run of decimal digits denotes after the digits of
    [a]. *)
Fixpoint value_acc (d : Decimal.uint) (a : Z) : Z :=
  match d with
  | Decimal.Nil => a
  | Decimal.D0 d' => value_acc d' (10 * a)
  | Decimal.D1 d' => value_acc d' (10 * a + 1)
  | Decimal.D2 d' => value_acc d' (10 * a + 2)
  | Decimal.D3 d' => value_acc d' (10 * a + 3)
  | Decimal.D4 d' => value_acc d' (10 * a + 4)
  | Decimal.D5 d' => value_acc d' (10 * a + 5)
  | Decimal.D6 d' => value_acc d' (10 * a + 6)
  | Decimal.D7 d' => value_acc d' (10 * a + 7)
  | Decimal.D8 d' => value_acc d' (10 * a + 8)
  | Decimal.D9 d' => value_acc d' (10 * a + 9)
  end.


(** ** The command line *)

Definition line (lv : level) (text : string) : console_entry :=
  {| entry_level := lv; entry_text := text; entry_arg := None |}.

(** The world [w] after [entries] have been printed. *)
Definition printed (w : World) (entries : list console_entry) : World :=
  {| random_source := random_source w;
     random_calls := random_calls w;
     console := console w ++ entries |}.

(** Both paths are on the command line and neither is empty. *)
Definition given_paths (env : Process) (charitiesPath profilePath : string) : Prop :=
  nth_error (argv env) 2 = Some charitiesPath
  /\ nth_error (argv env) 3 = Some profilePath
  /\ charitiesPath <> ""%string /\ profilePath <> ""%string.

(** What [main] prints before it calls [selectCharities]. *)
Definition announcement (charitiesPath profilePath : string) : list console_entry :=
  [ line LOG "FreeWill Charity Selector";
    line LOG "========================";
    line LOG ("Charities file: " ++ charitiesPath);
    line LOG ("Profile file: " ++ profilePath);
    line LOG "" ].

Definition development (env : Process) : bool :=
  match NODE_ENV env with
  | Some mode => (mode =? "development")%string
  | None => false
  end.

Fixpoint every (p : ascii -> bool) (s : string) : bool :=
  match s with
  | EmptyString => true
  | String c s' => (p c && every p s')%bool
  end.

(** No byte of [s] is below 32: no line feed, carriage return or tab. *)
Definition above_controls (s : string) : bool :=
  every (fun c => Nat.leb 32 (nat_of_ascii c)) s.

Definition hex_value (c : ascii) : option nat :=
  let n := nat_of_ascii c in
  if (Nat.leb 48 n && Nat.leb n 57)%bool then Some (n - 48)%nat
  else if (Nat.leb 97 n && Nat.leb n 102)%bool then Some (n - 87)%nat
  else None.

(** Reading back the first character of what [escape] wrote; a quotation
    mark ends the text. *)
Definition unescape_head (s : string) : option (ascii * string) :=
  match s with
  | EmptyString => None
  | String c rest =>
      if Nat.eqb (nat_of_ascii c) 34 then None
      else if Nat.eqb (nat_of_ascii c) 92
      then match rest with
           | EmptyString => None
           | String e rest' =>
               let n := nat_of_ascii e in
               if Nat.eqb n 98 then Some (ascii_of_nat 8, rest')
               else if Nat.eqb n 116 then Some (ascii_of_nat 9, rest')
               else if Nat.eqb n 110 then Some (ascii_of_nat 10, rest')
               else if Nat.eqb n 102 then Some (ascii_of_nat 12, rest')
               else if Nat.eqb n 114 then Some (ascii_of_nat 13, rest')
               else if Nat.eqb n 34 then Some (ascii_of_nat 34, rest')
               else if Nat.eqb n 92 then Some (ascii_of_nat 92, rest')
               else match rest' with
                    | String _ (String _ (String h (String l rest''))) =>
                        match hex_value h, hex_value l with
                        | Some a, Some b => Some (ascii_of_nat (16 * a + b), rest'')
                        | _, _ => None
                        end
                    | _ => None
                    end
           end
      else Some (c, rest)
  end.

(** A user whose age has one digit more than a double keeps. *)
Definition aged_owner : RawUserProfile.t :=
  {| RawUserProfile.id := "3"; RawUserProfile.name := "Test User";
     RawUserProfile.state := "NEW_YORK";
     RawUserProfile.isMarried := Some "FALSE"; RawUserProfile.hasChildren := Some "FALSE";
     RawUserProfile.hasPets := Some "FALSE"; RawUserProfile.age := "9007199254740993" |}.

(** A user of New York without pets. *)
Definition petless_owner : RawUserProfile.t :=
  {| RawUserProfile.id := "2"; RawUserProfile.name := "Test User";
     RawUserProfile.state := "NEW_YORK";
     RawUserProfile.isMarried := Some "FALSE"; RawUserProfile.hasChildren := Some "FALSE";
     RawUserProfile.hasPets := Some "FALSE"; RawUserProfile.age := "28" |}.

(** [node index.js] with [args], on a file system that holds [charities] and
    the profile of [pet_owner] wherever it is asked. *)
Definition command_line (args : list string) (charities : list Charity.t) : Process :=
  {| argv := "node" :: "index.js" :: args;
     NODE_ENV := Some "development";
     stack_of := fun message => ("Error: " ++ message)%string;
     charities_at := fun _ => Content charities;
     profiles_at := fun _ => Content [pet_owner] |}.

(** * Properties *)

(** ** Lists *)

Section ListFacts.
Context {A : Type}.

Lemma len_nonneg (l : list A) : 0 <= len l.
Proof. unfold len. lia. Qed.

Lemma len_app (l1 l2 : list A) : len (l1 ++ l2) = len l1 + len l2.
Proof. unfold len. rewrite length_app. lia. Qed.

Lemma len_filter_le (p : A -> bool) (l : list A) : len (filter p l) <= len l.
Proof.
  unfold len. induction l as [|x l IH]; cbn [filter List.length]; [lia|].
  destruct (p x); cbn [negb List.length] in *; lia.
Qed.

Lemma len_Permutation (l1 l2 : list A) : Permutation l1 l2 -> len l1 = len l2.
Proof. intros H. unfold len. now rewrite (Permutation_length H). Qed.

Lemma filter_split_len (p : A -> bool) (l : list A) :
  len l = len (filter p l) + len (filter (fun x => negb (p x)) l).
Proof.
  unfold len. induction l as [|x l IH]; cbn [filter List.length]; [lia|].
  destruct (p x); cbn [negb List.length] in *; lia.
Qed.

Lemma filter_Permutation (p : A -> bool) (l1 l2 : list A) :
  Permutation l1 l2 -> Permutation (filter p l1) (filter p l2).
Proof.
  induction 1 as [|x l1 l2 _ IH|x y l|l1 l2 l3 _ IH1 _ IH2]; simpl.
  - constructor.
  - destruct (p x); [now constructor | exact IH].
  - destruct (p x), (p y); try reflexivity. apply perm_swap.
  - now transitivity (filter p l2).
Qed.

Lemma swap_out (j : nat) (x b : A) (l : list A) :
  nth_error l j = Some b -> Permutation (b :: set_nth j x l) (x :: l).
Proof.
  revert j. induction l as [|y t IH]; intros [|j] H; simpl in *; try discriminate.
  - injection H as ->. apply perm_swap.
  - transitivity (y :: b :: set_nth j x t); [apply perm_swap|].
    transitivity (y :: x :: t); [apply perm_skip, IH, H | apply perm_swap].
Qed.

Lemma exchange_Permutation (i j : nat) (a b : A) (l : list A) :
  nth_error l i = Some a -> nth_error l j = Some b ->
  Permutation (set_nth i b (set_nth j a l)) l.
Proof.
  revert i j. induction l as [|x t IH]; intros [|i] [|j] Hi Hj; simpl in *; try discriminate.
  - injection Hi as ->. injection Hj as ->. reflexivity.
  - injection Hi as ->. now apply swap_out.
  - injection Hj as ->. now apply swap_out.
  - apply perm_skip. now apply IH.
Qed.

End ListFacts.

(** ** The random source *)

Lemma Math_random_spec (w w' : World) (r : thrown + Z) :
  Math_random w = (r, w') ->
  exists k, r = inr k /\ 0 <= k < two53 /\ random_calls w' = S (random_calls w).
Proof.
  unfold Math_random. intros H. injection H as <- <-.
  eexists. split; [reflexivity|]. split; [|reflexivity].
  apply Z.mod_pos_bound. reflexivity.
Qed.

Lemma nearest53_small (p : Z) : 0 <= p < two53 -> nearest53 p = p.
Proof.
  intros Hp. unfold nearest53.
  destruct (Z.leb_spec (Z.log2 p - 52) 0) as [_|He]; [reflexivity|].
  exfalso. destruct (Z.eq_dec p 0) as [->|Hn]; [cbn in He; lia|].
  assert (Z.log2 p < 53) by (apply Z.log2_lt_pow2; [lia|exact (proj2 Hp)]). lia.
Qed.

Lemma nearest53_bounds (p : Z) :
  0 <= p -> 0 <= nearest53 p /\ two53 * nearest53 p <= (two53 + 1) * p.
Proof.
  intros Hp. unfold nearest53.
  destruct (Z.leb_spec (Z.log2 p - 52) 0) as [_|He]; [unfold two53; lia|].
  set (e := Z.log2 p - 52) in *.
  assert (Hpos : 0 < p) by (destruct (Z.eq_dec p 0) as [->|]; [cbn in e; lia|lia]).
  pose proof (Z.log2_spec p Hpos) as [Hlow _].
  assert (Hpow : 2 ^ Z.log2 p = two53 * 2 ^ (e - 1)).
  { replace (Z.log2 p) with (53 + (e - 1)) by lia. rewrite Z.pow_add_r by lia. reflexivity. }
  assert (Hdouble : 2 ^ e = 2 * 2 ^ (e - 1)).
  { replace e with (1 + (e - 1)) at 1 by lia. rewrite Z.pow_add_r by lia. reflexivity. }
  assert (Hhalf : 0 < 2 ^ (e - 1)) by (apply Z.pow_pos_nonneg; lia).
  pose proof (Z.div_mod p (2 ^ e) ltac:(lia)) as Hdm.
  pose proof (Z.mod_pos_bound p (2 ^ e) ltac:(lia)) as Hr.
  assert (Hq : 0 <= p / 2 ^ e) by (apply Z.div_pos; lia).
  set (q := p / 2 ^ e) in *. set (r := p mod 2 ^ e) in *. set (h := 2 ^ (e - 1)) in *.
  destruct ((h <? r) || ((r =? h) && Z.odd q))%bool eqn:Eup.
  - assert (h <= r).
    { apply orb_prop in Eup as [H|H]; [apply Z.ltb_lt in H; lia|].
      apply andb_prop in H as [H _]. apply Z.eqb_eq in H. lia. }
    split; [nia|]. unfold two53 in *. nia.
  - split; [nia|]. unfold two53 in *. nia.
Qed.

Lemma nearest53_scaled (a t : Z) :
  0 <= a < two53 -> 0 <= t -> nearest53 (a * 2 ^ t) = a * 2 ^ t.
Proof.
  intros Ha Ht. destruct (Z.eq_dec a 0) as [->|Hn]; [reflexivity|].
  unfold nearest53.
  assert (Hlog : Z.log2 (a * 2 ^ t) = Z.log2 a + t).
  { rewrite <- Z.shiftl_mul_pow2 by lia. apply Z.log2_shiftl; lia. }
  rewrite Hlog.
  assert (Hla : Z.log2 a < 53) by (apply Z.log2_lt_pow2; [lia|exact (proj2 Ha)]).
  pose proof (Z.log2_nonneg a) as Hnn.
  destruct (Z.leb_spec (Z.log2 a + t - 52) 0) as [_|He]; [reflexivity|].
  set (e := Z.log2 a + t - 52) in *.
  assert (Ee : e = Z.log2 a + t - 52) by reflexivity.
  assert (Hsplit : a * 2 ^ t = a * 2 ^ (t - e) * 2 ^ e).
  { rewrite <- Z.mul_assoc. rewrite <- Z.pow_add_r; [|lia|lia].
    now replace (t - e + e) with t by lia. }
  assert (Hpe : 0 < 2 ^ e) by (apply Z.pow_pos_nonneg; lia).
  cbv zeta. rewrite Hsplit. rewrite Z.mod_mul, Z.div_mul by lia.
  assert (Hhalf : 0 < 2 ^ (e - 1)) by (apply Z.pow_pos_nonneg; lia).
  destruct (Z.ltb_spec (2 ^ (e - 1)) 0); [lia|].
  destruct (Z.eqb_spec 0 (2 ^ (e - 1))); [lia|]. reflexivity.
Qed.

Lemma to_double_exact (n : Z) : - two53 <= n <= two53 -> to_double n = n.
Proof.
  intros Hn. unfold to_double.
  destruct (Z.eq_dec (Z.abs n) two53) as [E|E].
  - rewrite E. change (nearest53 two53) with two53. lia.
  - rewrite nearest53_small by lia. lia.
Qed.

Lemma floor_times_range (k m : Z) :
  0 <= k < two53 -> 0 < m -> 0 <= floor_times k m < m.
Proof.
  intros Hk Hm. unfold floor_times, to_double.
  assert (Hp : 0 <= k * m) by nia.
  destruct (nearest53_bounds (Z.abs (k * m)) ltac:(lia)) as [Hlow Hup].
  rewrite Z.abs_eq in * by exact Hp.
  destruct (Z.eq_dec (k * m) 0) as [E|E].
  - rewrite E. cbn. lia.
  - rewrite Z.sgn_pos by lia. rewrite Z.mul_1_l. split.
    + apply Z.div_pos; [exact Hlow|reflexivity].
    + apply Z.div_lt_upper_bound; [reflexivity|]. unfold two53 in *. nia.
Qed.

Lemma getRandomInt_exact (min max : Z) (w : World) :
  - two53 <= min -> min <= max -> max <= two53 -> max - min < two53 ->
  getRandomInt min max w
  = (inr (floor_times (random_source w (random_calls w) mod two53) (max - min + 1) + min),
     {| random_source := random_source w;
        random_calls := S (random_calls w);
        console := console w |}).
Proof.
  intros Hmin Hle Hmax Hspan. unfold getRandomInt, bind, ret, Math_random.
  assert (Hk : 0 <= random_source w (random_calls w) mod two53 < two53)
    by (apply Z.mod_pos_bound; reflexivity).
  rewrite (to_double_exact (max - min)) by lia.
  rewrite (to_double_exact (max - min + 1)) by lia.
  pose proof (floor_times_range _ (max - min + 1) Hk ltac:(lia)).
  rewrite to_double_exact by lia. reflexivity.
Qed.

Lemma getRandomInt_spec (min max : Z) (w w' : World) (r : thrown + Z) :
  - two53 <= min -> min <= max -> max <= two53 -> max - min < two53 ->
  getRandomInt min max w = (r, w') ->
  exists z, r = inr z /\ min <= z <= max /\ random_calls w' = S (random_calls w).
Proof.
  intros Hmin Hle Hmax Hspan. rewrite getRandomInt_exact by trivial.
  intros H. injection H as <- <-.
  eexists. split; [reflexivity|]. split; [|reflexivity].
  assert (Hk : 0 <= random_source w (random_calls w) mod two53 < two53)
    by (apply Z.mod_pos_bound; reflexivity).
  pose proof (floor_times_range _ (max - min + 1) Hk ltac:(lia)). lia.
Qed.

(** ** [shuffle] and [selectRandomItems] return rearrangements *)

Lemma shuffleSelf_spec {A} (steps : nat) :
  forall (index : Z) (array : list A) (w w' : World) (r : thrown + list A),
    shuffleSelf steps index array w = (r, w') ->
    exists res, r = inr res /\ Permutation array res.
Proof.
  induction steps as [|steps IH]; intros index array w w' r; simpl.
  - unfold ret. intros H. injection H as <- <-. now exists array.
  - unfold bind at 1. unfold baseRandom, bind, ret.
    destruct (Math_random w) as [rk w1] eqn:E.
    apply Math_random_spec in E as (k & -> & _ & _).
    set (rand := index + floor_times k (len array - 1 - index + 1)).
    destruct (nth_error array (Z.to_nat rand)) as [value|] eqn:Er;
      [destruct (nth_error array (Z.to_nat index)) as [other|] eqn:Ei|];
      intros H; apply IH in H as (res & -> & Hp); exists res; split; trivial.
    transitivity (set_nth (Z.to_nat index) value (set_nth (Z.to_nat rand) other array));
      [|exact Hp].
    symmetry. now apply exchange_Permutation.
Qed.

Lemma shuffle_spec {A} (collection : list A) (w w' : World) (r : thrown + list A) :
  shuffle collection w = (r, w') ->
  exists res, r = inr res /\ Permutation collection res.
Proof. apply shuffleSelf_spec. Qed.

Lemma selectRandomItems_spec {T} (items : list T) (count : Z) (w w' : World)
    (r : thrown + list T) :
  selectRandomItems items count w = (r, w') ->
  exists res rest,
    r = inr res /\ Permutation items (res ++ rest)
    /\ len res = Z.max 0 (Z.min count (len items)).
Proof.
  unfold selectRandomItems, try_catch.
  destruct (count <=? 0) eqn:E0.
  - unfold ret. intros H. injection H as <- <-.
    decided. exists [], items. repeat split; trivial. unfold len at 1. simpl. lia.
  - destruct (count >=? len items) eqn:E1.
    + destruct (shuffle items w) as [rs w1] eqn:Es.
      apply shuffle_spec in Es as (res & -> & Hp).
      intros H. injection H as <- <-.
      exists res, []. rewrite app_nil_r. repeat split; trivial.
      decided. rewrite <- (len_Permutation _ _ Hp). pose proof (len_nonneg items). lia.
    + unfold bind, ret.
      destruct (shuffle items w) as [rs w1] eqn:Es.
      apply shuffle_spec in Es as (res & -> & Hp).
      intros H. injection H as <- <-.
      exists (firstn (Z.to_nat count) res), (skipn (Z.to_nat count) res).
      rewrite firstn_skipn. repeat split; trivial.
      decided. pose proof (len_Permutation _ _ Hp) as Hl. unfold len in *.
      rewrite length_firstn. lia.
Qed.

(** ** Selections from a pool and their ids *)

Lemma some_same_id_true (c : Charity.t) (sel : list Charity.t) :
  some (same_id c) sel = true <-> In (Charity.id c) (map Charity.id sel).
Proof.
  unfold some, same_id. rewrite existsb_exists, in_map_iff. split.
  - intros (s & Hs & He). apply String.eqb_eq in He. now exists s.
  - intros (s & He & Hs). exists s. split; trivial. now apply String.eqb_eq.
Qed.

Lemma some_same_id_false (c : Charity.t) (sel : list Charity.t) :
  some (same_id c) sel = false <-> ~ In (Charity.id c) (map Charity.id sel).
Proof.
  rewrite <- some_same_id_true. destruct (some (same_id c) sel); split; congruence.
Qed.

Lemma filter_keeps_ids_distinct (keep : Charity.t -> bool) (pool : list Charity.t) :
  NoDup (map Charity.id pool) -> NoDup (map Charity.id (filter keep pool)).
Proof.
  induction pool as [|c pool IH]; cbn [filter map]; intros Hd; [constructor|].
  apply NoDup_cons_iff in Hd as [Hc Hd].
  destruct (keep c); cbn [map]; [|now apply IH].
  constructor; [|now apply IH].
  intros (c' & He & Hin)%in_map_iff. apply Hc.
  rewrite <- He. apply in_map. now apply filter_In in Hin.
Qed.

(** What is drawn from the part of a pool that avoids the ids already
    taken keeps the ids distinct. *)
Lemma extend_distinct (pool acc new rest : list Charity.t) (q : Charity.t -> bool) :
  NoDup (map Charity.id pool) ->
  NoDup (map Charity.id acc) ->
  (forall c, q c = true -> some (same_id c) acc = false) ->
  Permutation (filter q pool) (new ++ rest) ->
  NoDup (map Charity.id (acc ++ new)).
Proof.
  intros Hpool Hacc Hq Hp. rewrite map_app. apply NoDup_app; trivial.
  - apply (filter_keeps_ids_distinct q) in Hpool.
    apply (Permutation_map Charity.id) in Hp. rewrite map_app in Hp.
    apply (Permutation_NoDup Hp) in Hpool. now apply NoDup_app_remove_r in Hpool.
  - intros x Hx Hn. apply in_map_iff in Hn as (c & <- & Hc).
    assert (Hf : In c (filter q pool)).
    { apply (Permutation_in c (Permutation_sym Hp)). apply in_or_app. now left. }
    apply filter_In in Hf as [_ Hf]. apply Hq, some_same_id_false in Hf. now apply Hf.
Qed.

Lemma drawn_incl {A} (q : A -> bool) (pool new rest : list A) :
  Permutation (filter q pool) (new ++ rest) -> incl new (filter q pool).
Proof.
  intros Hp c Hc. apply (Permutation_in c (Permutation_sym Hp)).
  apply in_or_app. now left.
Qed.

(** The pool without the ids of a selection made from it. *)
Lemma remaining_len (pool sel : list Charity.t) :
  NoDup (map Charity.id pool) -> incl sel pool -> NoDup (map Charity.id sel) ->
  len (filter (fun c => negb (some (same_id c) sel)) pool) = len pool - len sel.
Proof.
  intros Hpool Hincl Hsel.
  pose proof (filter_split_len (fun c => some (same_id c) sel) pool) as Hsplit.
  assert (Hsame : len (filter (fun c => some (same_id c) sel) pool) = len sel).
  { unfold len. f_equal.
    rewrite <- (length_map Charity.id (filter _ pool)), <- (length_map Charity.id sel).
    apply Permutation_length, NoDup_Permutation; trivial.
    - now apply filter_keeps_ids_distinct.
    - intros x. split.
      + intros (c & <- & Hc)%in_map_iff. apply filter_In in Hc as [_ Hc].
        now apply some_same_id_true.
      + intros (s & <- & Hs)%in_map_iff. apply in_map, filter_In. split; [now apply Hincl|].
        apply some_same_id_true. now apply in_map. }
  cbv beta in Hsplit. lia.
Qed.

(** ** The tailoring rules *)

Lemma distribute_spec (turns : nat) :
  forall (maxFromState maxFromNational fromState fromNational : Z)
         (w w' : World) (r : thrown + Z * Z),
    fromState <= maxFromState -> fromNational <= maxFromNational ->
    distribute turns maxFromState maxFromNational fromState fromNational w = (r, w') ->
    exists fromState' fromNational',
      r = inr (fromState', fromNational')
      /\ fromState <= fromState' <= maxFromState
      /\ fromNational <= fromNational' <= maxFromNational
      /\ fromState' + fromNational'
         = Z.min (fromState + fromNational + Z.of_nat turns) (maxFromState + maxFromNational).
Proof.
  induction turns as [|turns IH]; intros mS mN fS fN w w' r HS HN.
  - cbn [distribute]. unfold ret. intros H. injection H as <- <-.
    exists fS, fN. repeat split; lia.
  - cbn [distribute].
    destruct (fS <? mS) eqn:ES; destruct (fN <? mN) eqn:EN; cbn [andb]; decided.
    + unfold bind at 1. destruct (Math_random w) as [rk w1] eqn:E.
      apply Math_random_spec in E as (k & -> & _ & _).
      destruct (below_half k); intros H; apply IH in H as (a & b & -> & ? & ? & ?);
        try lia; exists a, b; repeat split; lia.
    + intros H; apply IH in H as (a & b & -> & ? & ? & ?);
        try lia; exists a, b; repeat split; lia.
    + intros H; apply IH in H as (a & b & -> & ? & ? & ?);
        try lia; exists a, b; repeat split; lia.
    + intros H; apply IH in H as (a & b & -> & ? & ? & ?);
        try lia; exists a, b; repeat split; lia.
Qed.

Lemma available_category (category : string) (taken pool : list Charity.t) :
  Forall (of_category category) (available category taken pool).
Proof.
  apply Forall_forall. intros c Hc. apply filter_In in Hc as [_ Hc].
  apply andb_prop in Hc as [Hc _]. now apply String.eqb_eq in Hc.
Qed.

Lemma available_fresh (category : string) (taken : list Charity.t) (c : Charity.t) :
  ((Charity.category c =? category)%string && negb (some (same_id c) taken))%bool = true ->
  some (same_id c) taken = false.
Proof.
  intros H. apply andb_prop in H as [_ H]. now destruct (some (same_id c) taken).
Qed.

Lemma applyRule_try_spec (profile : UserProfile.t) (nationalPool statePool : list Charity.t)
    (rule : TailoringRule) (acc : Tailored) (n0 s0 : Z) (w w' : World)
    (r : thrown + Tailored) :
  tailoring_inv nationalPool statePool n0 s0 acc ->
  applyRule_try profile nationalPool statePool rule acc w = (r, w') ->
  exists acc' newNational newState,
    r = inr acc'
    /\ national acc' = national acc ++ newNational
    /\ state acc' = state acc ++ newState
    /\ tailoring_inv nationalPool statePool n0 s0 acc'
    /\ Forall (of_category (getCategory rule tt)) (newNational ++ newState)
    /\ len newNational + len newState = taken_by rule profile nationalPool statePool acc.
Proof.
  intros [Hnc Hnl Hsc Hsl Hni Hsi Hnd Hsd].
  unfold applyRule_try, taken_by. cbv zeta.
  set (aN := available (getCategory rule tt) (national acc) nationalPool).
  set (aS := available (getCategory rule tt) (state acc) statePool).
  set (actual := Z.min (getMinCount rule profile)
                   (Z.min (len aN + len aS) (remainingNational acc + remainingState acc))).
  pose proof (len_nonneg aN) as HaN. pose proof (len_nonneg aS) as HaS.
  unfold bind at 1.
  assert (Hwarn : exists w1,
             (if len aN + len aS <? getMinCount rule profile
              then console_warn ("Warning: Only " ++ show (len aN + len aS) ++ " "
                                 ++ getCategory rule tt ++ " charities available, need "
                                 ++ show (getMinCount rule profile))
              else ret tt) w = (inr tt, w1)).
  { destruct (len aN + len aS <? getMinCount rule profile); eexists; reflexivity. }
  destruct Hwarn as (w1 & ->).
  destruct (actual <=? 0) eqn:Eact; decided.
  - unfold ret. intros H. injection H as <- <-.
    exists acc, [], []. rewrite !app_nil_r. repeat split; trivial.
    unfold len at 1 2. simpl. lia.
  - unfold bind at 1.
    destruct (distribute _ _ _ 0 0 w1) as [rd w2] eqn:Ed.
    apply distribute_spec in Ed as (fS & fN & -> & HfS & HfN & Hsum); try lia.
    cbn [fst snd]. unfold bind at 1.
    destruct (selectRandomItems aS fS w2) as [rs w3] eqn:Es.
    apply selectRandomItems_spec in Es as (newS & restS & -> & HpS & HlS).
    unfold bind at 1.
    destruct (selectRandomItems aN fN w3) as [rn w4] eqn:En.
    apply selectRandomItems_spec in En as (newN & restN & -> & HpN & HlN).
    plumbing. intros H. injection H as <- <-.
    assert (HlenS : len newS = fS) by lia.
    assert (HlenN : len newN = fN) by lia.
    eexists _, newN, newS. split; [reflexivity|]. cbn [national state].
    split; [reflexivity|]. split; [reflexivity|]. split; [|split].
    + constructor; cbn [national state remainingNational remainingState];
        rewrite ?len_app; try lia.
      * apply incl_app; trivial.
        intros c Hc. apply (drawn_incl _ _ _ _ HpN) in Hc. now apply filter_In in Hc.
      * apply incl_app; trivial.
        intros c Hc. apply (drawn_incl _ _ _ _ HpS) in Hc. now apply filter_In in Hc.
      * intros Hd. eapply extend_distinct; [exact Hd | now apply Hnd | | exact HpN].
        apply available_fresh.
      * intros Hd. eapply extend_distinct; [exact Hd | now apply Hsd | | exact HpS].
        apply available_fresh.
    + apply Forall_app. split.
      * apply Forall_forall. intros c Hc. apply (drawn_incl _ _ _ _ HpN) in Hc.
        now apply (proj1 (Forall_forall _ _) (available_category _ _ _)) in Hc.
      * apply Forall_forall. intros c Hc. apply (drawn_incl _ _ _ _ HpS) in Hc.
        now apply (proj1 (Forall_forall _ _) (available_category _ _ _)) in Hc.
    + lia.
Qed.

Lemma applyRule_spec (profile : UserProfile.t) (nationalPool statePool : list Charity.t)
    (rule : TailoringRule) (acc : Tailored) (n0 s0 : Z) (w w' : World)
    (r : thrown + Tailored) :
  tailoring_inv nationalPool statePool n0 s0 acc ->
  applyRule profile nationalPool statePool rule acc w = (r, w') ->
  exists acc' newNational newState,
    r = inr acc'
    /\ national acc' = national acc ++ newNational
    /\ state acc' = state acc ++ newState
    /\ tailoring_inv nationalPool statePool n0 s0 acc'
    /\ Forall (of_category (getCategory rule tt)) (newNational ++ newState)
    /\ (applies rule profile = true ->
        len newNational + len newState = taken_by rule profile nationalPool statePool acc).
Proof.
  intros Hinv. unfold applyRule.
  destruct (applies rule profile); cbn [negb].
  - unfold try_catch.
    destruct (applyRule_try profile nationalPool statePool rule acc w) as [rt w1] eqn:Et.
    apply (applyRule_try_spec _ _ _ _ _ _ _ _ _ _ Hinv) in Et
      as (acc' & newN & newS & -> & H1 & H2 & H3 & H4 & H5).
    intros H. injection H as <- <-. exists acc', newN, newS. now repeat (split; trivial).
  - unfold ret. intros H. injection H as <- <-.
    exists acc, [], []. rewrite !app_nil_r.
    repeat (split; trivial); discriminate.
Qed.

Lemma forRules_spec (profile : UserProfile.t) (nationalPool statePool : list Charity.t)
    (n0 s0 : Z) (rules : list TailoringRule) :
  forall (acc : Tailored) (w w' : World) (r : thrown + Tailored),
    tailoring_inv nationalPool statePool n0 s0 acc ->
    forRules profile nationalPool statePool rules acc w = (r, w') ->
    exists acc', r = inr acc' /\ tailoring_inv nationalPool statePool n0 s0 acc'.
Proof.
  induction rules as [|rule rules IH]; intros acc w w' r Hinv; cbn [forRules].
  - unfold ret. intros H. injection H as <- <-. now exists acc.
  - unfold bind.
    destruct (applyRule profile nationalPool statePool rule acc w) as [ra w1] eqn:Ea.
    apply (applyRule_spec _ _ _ _ _ _ _ _ _ _ Hinv) in Ea as (acc' & _ & _ & -> & _ & _ & Hinv' & _).
    now apply IH.
Qed.

Lemma start_inv (nationalPool statePool : list Charity.t) (n0 s0 : Z) :
  0 <= n0 -> 0 <= s0 ->
  tailoring_inv nationalPool statePool n0 s0
    {| national := []; state := []; remainingNational := n0; remainingState := s0 |}.
Proof.
  intros Hn Hs. constructor; cbn [national state remainingNational remainingState];
    trivial; try (unfold len; simpl; lia); try (intros c []); intros _; constructor.
Qed.

Lemma filter_all {A} (p : A -> bool) (l : list A) :
  Forall (fun x => p x = true) l -> filter p l = l.
Proof.
  induction 1 as [|x l Hx _ IH]; simpl; [reflexivity|]. now rewrite Hx, IH.
Qed.

Lemma available_animals (pool : list Charity.t) :
  available "ANIMAL_RELATED" [] pool = filter is_animal pool.
Proof.
  unfold available. apply filter_ext. intros c. unfold is_animal. cbn [some existsb negb].
  apply andb_true_r.
Qed.

Lemma applyTailoringRules_spec (profile : UserProfile.t)
    (nationalPool statePool : list Charity.t) (n0 s0 : Z) (w w' : World)
    (r : thrown + Tailored) :
  0 <= n0 -> 0 <= s0 ->
  applyTailoringRules profile nationalPool statePool n0 s0 w = (r, w') ->
  exists t,
    r = inr t
    /\ tailoring_inv nationalPool statePool n0 s0 t
    /\ (UserProfile.hasPets profile = true ->
        minAnimalCharitiesIfPets DEFAULT_CONSTRAINTS <= animal_room nationalPool statePool n0 s0 ->
        minAnimalCharitiesIfPets DEFAULT_CONSTRAINTS
        <= len (filter is_animal (national t ++ state t))).
Proof.
  intros Hn Hs. unfold applyTailoringRules, try_catch. cbv zeta.
  cbn [createTailoringRules forRules]. unfold bind.
  pose proof (start_inv nationalPool statePool n0 s0 Hn Hs) as Hinv.
  match goal with
  | |- context [applyRule ?p ?a ?b ?rule ?acc w] =>
      destruct (applyRule p a b rule acc w) as [ra w1] eqn:Ea;
      apply (applyRule_spec _ _ _ _ _ _ _ _ _ _ Hinv) in Ea
        as (acc' & newN & newS & -> & HN & HS & Hinv' & Hcat & Htaken)
  end.
  unfold ret. intros H. injection H as <- <-.
  exists acc'. split; [reflexivity|]. split; [exact Hinv'|].
  intros Hpets Hroom. cbn [applies] in Htaken. specialize (Htaken Hpets).
  unfold taken_by in Htaken.
  cbn [getCategory getMinCount national state remainingNational remainingState] in Htaken.
  rewrite !available_animals in Htaken.
  rewrite HN, HS. cbn [national state app].
  rewrite (filter_all is_animal (newN ++ newS)).
  - rewrite len_app. unfold animal_room in Hroom.
    cbn [minAnimalCharitiesIfPets DEFAULT_CONSTRAINTS] in *. lia.
  - cbn [getCategory] in Hcat. eapply Forall_impl; [|exact Hcat].
    intros c Hc. unfold of_category in Hc. unfold is_animal. now apply String.eqb_eq.
Qed.

(** ** Reading and checking the input *)

Lemma validateCharity_spec (c : Charity.t) (w w' : World) (r : thrown + bool) :
  validateCharity c w = (r, w') ->
  r = inr (is_valid c) /\ random_calls w' = random_calls w.
Proof.
  unfold validateCharity, is_valid.
  destruct (negb (truthy (Charity.id c)) || negb (truthy (Charity.name c)))%bool;
    [|destruct (truthy (Charity.featured c)
                && negb (includes ["NATIONAL"; "STATE"; ""] (Charity.featured c)))%bool;
      [|destruct ((Charity.featured c =? "STATE")%string
                  && negb (truthy (Charity.state c)))%bool]];
    plumbing; intros H; injection H as <- <-; split; reflexivity.
Qed.

Lemma filterM_validateCharity (l : list Charity.t) :
  forall (w w' : World) (r : thrown + list Charity.t),
    filterM validateCharity l w = (r, w') ->
    r = inr (filter is_valid l) /\ random_calls w' = random_calls w.
Proof.
  induction l as [|c l IH]; intros w w' r; cbn [filterM filter].
  - unfold ret. intros H. injection H as <- <-. now split.
  - unfold bind at 1. destruct (validateCharity c w) as [rc w1] eqn:Ec.
    apply validateCharity_spec in Ec as [-> Hc1].
    unfold bind at 1. destruct (filterM validateCharity l w1) as [rl w2] eqn:El.
    apply IH in El as [-> Hc2].
    unfold ret. intros H. injection H as <- <-. split; [reflexivity | congruence].
Qed.

Lemma parseUserProfile_spec (rawProfile : RawUserProfile.t) (w w' : World)
    (r : thrown + UserProfile.t) :
  parseUserProfile rawProfile w = (r, w') ->
  random_calls w' = random_calls w
  /\ r = if profile_ok rawProfile then inr (profile_of rawProfile)
         else inl (JsError profile_failure).
Proof.
  unfold parseUserProfile, profile_ok, profile_of, profile_failure.
  destruct (truthy (RawUserProfile.id rawProfile)),
           (truthy (RawUserProfile.name rawProfile)),
           (truthy (RawUserProfile.state rawProfile));
    cbn [negb orb andb]; plumbing; intros H; injection H as <- <-; split; reflexivity.
Qed.

Lemma readCsvFile_spec {T} (path : string) (f : file T) (w w' : World)
    (r : thrown + list T) :
  readCsvFile path f w = (r, w') ->
  random_calls w' = random_calls w
  /\ ((exists rows, r = inr rows /\ loaded f rows)
      \/ (exists m, r = inl (JsError m)
                    /\ is_capacity_message m = false
                    /\ is_mismatch_message m = false
                    /\ is_upfront_message m = false
                    /\ forall rows, ~ loaded f rows)).
Proof.
  unfold readCsvFile, loaded.
  destruct f as [| | |rows|m|e]; try (destruct (len rows =? 0) eqn:E0);
    plumbing; intros H; injection H as <- <-; (split; [reflexivity|]);
    try (right; eexists; repeat (split; [reflexivity|]); intros rows' [Hc Hn]; try discriminate).
  - injection Hc as <-. decided. destruct rows; [now apply Hn | discriminate].
  - left. exists rows. repeat split. intros ->. discriminate.
Qed.

Lemma loaded_unique {T} (f : file T) (rows rows' : list T) :
  loaded f rows -> loaded f rows' -> rows = rows'.
Proof. intros [-> _] [H _]. now injection H. Qed.

Lemma loadInputs_loaded (charitiesPath profilePath : string)
    (raw : list Charity.t) (first : RawUserProfile.t) (others : list RawUserProfile.t)
    (w w' : World) (r : thrown + UserProfile.t * list Charity.t) :
  raw <> [] -> profile_ok first = true ->
  loadInputs charitiesPath profilePath (Content raw) (Content (first :: others)) w = (r, w') ->
  random_calls w' = random_calls w
  /\ r = if len (filter is_valid raw) <? totalCharities DEFAULT_CONSTRAINTS
         then inl (JsError (insufficient_charities (len (filter is_valid raw))))
         else inr (profile_of first, filter is_valid raw).
Proof.
  intros Hraw Hok. unfold loadInputs. plumbing. unfold readCsvFile.
  destruct (len raw =? 0) eqn:E0.
  { decided. destruct raw; [now elim Hraw | discriminate]. }
  destruct (len (first :: others) =? 0) eqn:E1; [discriminate|].
  plumbing.
  match goal with
  | |- context [parseUserProfile first ?w2] =>
      destruct (parseUserProfile first w2) as [r3 w3] eqn:E3
  end.
  apply parseUserProfile_spec in E3 as [Hc3 ->]. rewrite Hok.
  destruct (filterM validateCharity raw _) as [r4 w4] eqn:E4.
  apply filterM_validateCharity in E4 as [-> Hc4]. cbn [random_calls] in *.
  destruct (len (filter is_valid raw) <? totalCharities DEFAULT_CONSTRAINTS);
    intros H; injection H as <- <-; cbn [random_calls]; split; congruence.
Qed.

Lemma loadInputs_cases (charitiesPath profilePath : string)
    (charitiesFile : file Charity.t) (profileFile : file RawUserProfile.t)
    (w w' : World) (r : thrown + UserProfile.t * list Charity.t) :
  loadInputs charitiesPath profilePath charitiesFile profileFile w = (r, w') ->
  random_calls w' = random_calls w
  /\ ((exists raw first others,
          loaded charitiesFile raw /\ loaded profileFile (first :: others)
          /\ profile_ok first = true
          /\ totalCharities DEFAULT_CONSTRAINTS <= len (filter is_valid raw)
          /\ r = inr (profile_of first, filter is_valid raw))
      \/ (exists m, r = inl (JsError m)
                    /\ is_capacity_message m = false
                    /\ is_mismatch_message m = false)).
Proof.
  unfold loadInputs. plumbing.
  destruct (readCsvFile charitiesPath charitiesFile _) as [r1 w1] eqn:E1.
  apply readCsvFile_spec in E1 as [Hc1 [(raw & -> & Hl1) | (m & -> & Hm1 & Hm2 & _)]];
    cbn [random_calls] in Hc1.
  2: { intros H. injection H as <- <-. split; trivial. right. now exists m. }
  destruct (readCsvFile profilePath profileFile w1) as [r2 w2] eqn:E2.
  apply readCsvFile_spec in E2 as [Hc2 [(profiles & -> & Hl2) | (m & -> & Hm1 & Hm2 & _)]].
  2: { intros H. injection H as <- <-. split; [congruence|]. right. now exists m. }
  destruct profiles as [|first others].
  { intros H. injection H as <- <-. split; [congruence|]. right.
    eexists. repeat (split; [reflexivity|]). reflexivity. }
  destruct (parseUserProfile first w2) as [r3 w3] eqn:E3.
  apply parseUserProfile_spec in E3 as [Hc3 ->].
  destruct (profile_ok first) eqn:Eok.
  2: { intros H. injection H as <- <-. split; [congruence|]. right.
       eexists. repeat (split; [reflexivity|]). reflexivity. }
  destruct (filterM validateCharity raw _) as [r4 w4] eqn:E4.
  apply filterM_validateCharity in E4 as [-> Hc4]. cbn [random_calls] in Hc4.
  destruct (len (filter is_valid raw) <? totalCharities DEFAULT_CONSTRAINTS) eqn:Elt;
    intros H; injection H as <- <-; cbn [random_calls]; (split; [congruence|]).
  - right. eexists. repeat (split; [reflexivity|]). reflexivity.
  - left. exists raw, first, others. decided. now repeat (split; trivial).
Qed.

(** ** The two targets *)

Lemma rebalanceForAnimals_spec (userProfile : UserProfile.t)
    (nationalPool statePool : list Charity.t) (drawn : Z) :
  0 <= drawn <= Z.min (maxStateCharities DEFAULT_CONSTRAINTS) (len statePool) ->
  let targets :=
    rebalanceForAnimals userProfile nationalPool statePool drawn
      (totalCharities DEFAULT_CONSTRAINTS - drawn) in
  0 <= fst targets <= Z.min (maxStateCharities DEFAULT_CONSTRAINTS) (len statePool)
  /\ fst targets + snd targets = totalCharities DEFAULT_CONSTRAINTS
  /\ (UserProfile.hasPets userProfile = true ->
      minAnimalCharitiesIfPets DEFAULT_CONSTRAINTS
      <= len (filter is_animal nationalPool) + len (filter is_animal statePool) ->
      minAnimalCharitiesIfPets DEFAULT_CONSTRAINTS
      <= animal_room nationalPool statePool (snd targets) (fst targets)).
Proof.
  intros Hd. unfold rebalanceForAnimals, animal_room.
  cbn [totalCharities maxStateCharities minAnimalCharitiesIfPets DEFAULT_CONSTRAINTS] in *.
  pose proof (len_filter_le is_animal nationalPool).
  pose proof (len_filter_le is_animal statePool).
  pose proof (len_nonneg (filter is_animal nationalPool)).
  pose proof (len_nonneg (filter is_animal statePool)).
  destruct (UserProfile.hasPets userProfile); cbv zeta;
    [|cbn [fst snd]; repeat split; (lia || discriminate)].
  repeat match goal with
         | |- context [if ?b then _ else _] => destruct b eqn:?; cbn [andb] in *
         end;
    cbn [fst snd]; decided;
    repeat match goal with
           | H : (_ && _)%bool = true |- _ => apply andb_prop in H as [? ?]
           end;
    decided; repeat split; intros; lia.
Qed.

Lemma adjustTargets_spec (nationalPool statePool : list Charity.t) (s n : Z)
    (w w' : World) (r : thrown + Z * Z) :
  0 <= s <= stateCap statePool ->
  s + n = totalCharities DEFAULT_CONSTRAINTS ->
  adjustTargets nationalPool statePool s n w = (r, w') ->
  random_calls w' = random_calls w
  /\ if achievable nationalPool statePool <? totalCharities DEFAULT_CONSTRAINTS
     then r = inl (JsError (insufficient_total (achievable nationalPool statePool)
                              (len nationalPool) (stateCap statePool)))
     else exists s' n',
         r = inr (s', n')
         /\ s <= s' <= stateCap statePool
         /\ 0 <= n' <= len nationalPool
         /\ s' + n' = totalCharities DEFAULT_CONSTRAINTS
         /\ (n' = n \/ len nationalPool <= n').
Proof.
  unfold adjustTargets, achievable, stateCap.
  cbn [totalCharities maxStateCharities DEFAULT_CONSTRAINTS].
  intros Hs Hsum. pose proof (len_nonneg nationalPool) as HN.
  pose proof (len_nonneg statePool) as HS.
  destruct (n >? len nationalPool) eqn:E1; plumbing; cbv zeta.
  - set (add := Z.min (n - len nationalPool) (Z.min 5 (len statePool) - s)).
    destruct (n - add >? len nationalPool) eqn:E2.
    + decided.
      assert (Hadd : s + add = Z.min 5 (len statePool)) by lia.
      rewrite Hadd.
      destruct (len nationalPool + Z.min 5 (len statePool) <? 12) eqn:E3;
        intros H; injection H as <- <-; cbn [random_calls]; (split; [reflexivity|]).
      * reflexivity.
      * decided. lia.
    + decided. intros H. injection H as <- <-. cbn [random_calls]. split; [reflexivity|].
      destruct (len nationalPool + Z.min 5 (len statePool) <? 12) eqn:E3; decided; [lia|].
      exists (s + add), (n - add). repeat split; lia.
  - decided. intros H. injection H as <- <-. split; [reflexivity|].
    destruct (len nationalPool + Z.min 5 (len statePool) <? 12) eqn:E3; decided; [lia|].
    exists s, n. repeat split; lia.
Qed.

Lemma planTargets_spec (userProfile : UserProfile.t) (validCharities : list Charity.t)
    (w w' : World) (r : thrown + Plan) :
  planTargets userProfile validCharities w = (r, w') ->
  let nationalPool := filter is_national validCharities in
  let statePool := filter (is_state_of userProfile) validCharities in
  random_calls w' = S (random_calls w)
  /\ if achievable nationalPool statePool <? totalCharities DEFAULT_CONSTRAINTS
     then r = inl (JsError (insufficient_total (achievable nationalPool statePool)
                              (len nationalPool) (stateCap statePool)))
     else exists plan,
         r = inr plan
         /\ nationalCharities plan = nationalPool
         /\ stateCharities plan = statePool
         /\ 0 <= selectedStateCount plan <= stateCap statePool
         /\ 0 <= selectedNationalCount plan <= len nationalPool
         /\ selectedStateCount plan + selectedNationalCount plan
            = totalCharities DEFAULT_CONSTRAINTS
         /\ (UserProfile.hasPets userProfile = true ->
             minAnimalCharitiesIfPets DEFAULT_CONSTRAINTS
             <= len (filter is_animal nationalPool) + len (filter is_animal statePool) ->
             minAnimalCharitiesIfPets DEFAULT_CONSTRAINTS
             <= animal_room nationalPool statePool
                  (selectedNationalCount plan) (selectedStateCount plan)).
Proof.
  unfold planTargets. cbv zeta.
  set (nationalPool := filter is_national validCharities).
  set (statePool := filter (is_state_of userProfile) validCharities).
  pose proof (len_nonneg statePool) as HS.
  plumbing.
  destruct (getRandomInt 0 _ _) as [rd w1] eqn:Ed.
  apply getRandomInt_spec in Ed as (drawn & -> & Hd & Hc1);
    [|cbn [maxStateCharities DEFAULT_CONSTRAINTS]; unfold two53; lia ..].
  cbn [random_calls] in Hc1.
  pose proof (rebalanceForAnimals_spec userProfile nationalPool statePool drawn Hd)
    as (Hs & Hsum & Hroom).
  set (targets := rebalanceForAnimals userProfile nationalPool statePool drawn
                    (totalCharities DEFAULT_CONSTRAINTS - drawn)) in *.
  destruct (adjustTargets nationalPool statePool (fst targets) (snd targets) _)
    as [ra w2] eqn:Ea.
  apply adjustTargets_spec in Ea as [Hc2 Ha]; trivial. cbn [random_calls] in Hc2.
  destruct (achievable nationalPool statePool <? totalCharities DEFAULT_CONSTRAINTS).
  - subst ra. intros H. injection H as <- <-. split; [congruence | reflexivity].
  - destruct Ha as (s' & n' & -> & Hs' & Hn' & Hsum' & Hkeep).
    intros H. injection H as <- <-. cbn [random_calls]. split; [congruence|].
    eexists. split; [reflexivity|].
    cbn [nationalCharities stateCharities selectedStateCount selectedNationalCount fst snd].
    repeat (split; trivial); try lia.
    intros Hpets Hanimals. specialize (Hroom Hpets Hanimals).
    unfold animal_room in *. pose proof (len_filter_le is_animal nationalPool). lia.
Qed.

(** ** The selection *)

Lemma not_taken_fresh (taken : list Charity.t) (c : Charity.t) :
  negb (some (same_id c) taken) = true -> some (same_id c) taken = false.
Proof. now destruct (some (same_id c) taken). Qed.

(** One pool: what the rules took from it and what is added to fill it. *)
Lemma fill_pool (pool taken added rest : list Charity.t) (target left : Z) :
  incl taken pool ->
  (NoDup (map Charity.id pool) -> NoDup (map Charity.id taken)) ->
  len taken + left = target -> 0 <= left ->
  Permutation (filter (fun c => negb (some (same_id c) taken)) pool) (added ++ rest) ->
  len added = Z.max 0 (Z.min left (len (filter (fun c => negb (some (same_id c) taken)) pool))) ->
  incl (taken ++ added) pool
  /\ len (taken ++ added) <= target
  /\ (NoDup (map Charity.id pool) -> target <= len pool -> len (taken ++ added) = target)
  /\ (NoDup (map Charity.id pool) -> NoDup (map Charity.id (taken ++ added))).
Proof.
  intros Hincl Hids Hcount Hleft Hp Hlen.
  pose proof (len_nonneg (filter (fun c => negb (some (same_id c) taken)) pool)) as Hnn.
  rewrite len_app. repeat split.
  - apply incl_app; trivial. intros c Hc. apply (drawn_incl _ _ _ _ Hp) in Hc.
    now apply filter_In in Hc.
  - lia.
  - intros Hd Hle. rewrite (remaining_len pool taken Hd Hincl (Hids Hd)) in Hlen. lia.
  - intros Hd. eapply extend_distinct; [exact Hd | now apply Hids | | exact Hp].
    intros c. apply not_taken_fresh.
Qed.

Lemma fillSelection_spec (userProfile : UserProfile.t) (plan : Plan) (w w' : World)
    (r : thrown + list Charity.t) :
  0 <= selectedNationalCount plan -> 0 <= selectedStateCount plan ->
  fillSelection userProfile plan w = (r, w') ->
  exists fromNational fromState,
    assembled userProfile plan fromNational fromState
    /\ if len fromNational + len fromState =? expectedCount plan
       then exists result, r = inr result /\ Permutation (fromNational ++ fromState) result
       else r = inl (JsError (count_mismatch (expectedCount plan)
                                (len fromNational + len fromState))).
Proof.
  intros Hn Hs. unfold fillSelection. cbv zeta. fold (expectedCount plan).
  unfold bind at 1.
  destruct (applyTailoringRules _ _ _ _ _ w) as [rt w1] eqn:Et.
  apply applyTailoringRules_spec in Et as (t & -> & Hinv & Hanimals); trivial.
  destruct Hinv as [Hnc Hnl Hsc Hsl Hni Hsi Hnd Hsd].
  unfold bind at 1.
  destruct (selectRandomItems _ (remainingNational t) w1) as [rn w2] eqn:En.
  apply selectRandomItems_spec in En as (addN & restN & -> & HpN & HlN).
  unfold bind at 1.
  destruct (selectRandomItems _ (remainingState t) w2) as [rs w3] eqn:Es.
  apply selectRandomItems_spec in Es as (addS & restS & -> & HpS & HlS).
  destruct (fill_pool _ _ _ _ _ _ Hni Hnd Hnc Hnl HpN HlN) as (N1 & N2 & N3 & N4).
  destruct (fill_pool _ _ _ _ _ _ Hsi Hsd Hsc Hsl HpS HlS) as (S1 & S2 & S3 & S4).
  assert (Hasm : assembled userProfile plan (national t ++ addN) (state t ++ addS)).
  { constructor; trivial.
    intros Hpets Hroom. specialize (Hanimals Hpets Hroom).
    rewrite !filter_app, !len_app in *.
    pose proof (len_nonneg (filter is_animal addN)).
    pose proof (len_nonneg (filter is_animal addS)). lia. }
  assert (Hfinal : Permutation ((national t ++ addN) ++ state t ++ addS)
                     (national t ++ state t ++ addN ++ addS)).
  { rewrite <- !app_assoc. apply Permutation_app_head.
    rewrite !app_assoc. apply Permutation_app_tail, Permutation_app_comm. }
  pose proof (len_Permutation _ _ Hfinal) as Hlen. rewrite len_app in Hlen.
  destruct (len (national t ++ state t ++ addN ++ addS) =? expectedCount plan) eqn:Etest;
    cbn [negb]; plumbing.
  - destruct (shuffle (national t ++ state t ++ addN ++ addS) w3) as [rf w4] eqn:Ef.
    apply shuffle_spec in Ef as (result & -> & Hperm).
    intros Hrun. injection Hrun as <- <-.
    exists (national t ++ addN), (state t ++ addS). split; trivial.
    rewrite Hlen, Etest. exists result. split; [reflexivity|].
    now transitivity (national t ++ state t ++ addN ++ addS).
  - intros Hrun. injection Hrun as <- <-.
    exists (national t ++ addN), (state t ++ addS). split; trivial.
    rewrite Hlen, Etest. reflexivity.
Qed.

(** ** The whole call *)

Lemma planning_cases (charitiesPath profilePath : string)
    (charitiesFile : file Charity.t) (profileFile : file RawUserProfile.t)
    (w w' : World) (r : thrown + UserProfile.t * Plan) :
  planning charitiesPath profilePath charitiesFile profileFile w = (r, w') ->
  fails_before_pools charitiesFile profileFile r w w'
  \/ fails_in_planning charitiesFile profileFile r w w'
  \/ exists raw first plan,
      good_inputs charitiesFile profileFile raw first
      /\ totalCharities DEFAULT_CONSTRAINTS
         <= achievable (nationalPool raw) (statePool (profile_of first) raw)
      /\ r = inr (profile_of first, plan)
      /\ well_planned (profile_of first) raw plan.
Proof.
  unfold planning. unfold bind at 1.
  destruct (loadInputs charitiesPath profilePath charitiesFile profileFile w)
    as [rl w1] eqn:El.
  pose proof El as Hcases. apply loadInputs_cases in Hcases
    as [Hc1 [(raw & first & others & Hl1 & Hl2 & Hok & Hvalid & ->) | (m & -> & Hm1 & Hm2)]].
  - cbn [fst snd]. unfold bind at 1.
    destruct (planTargets (profile_of first) (filter is_valid raw) w1) as [rp w2] eqn:Ep.
    apply planTargets_spec in Ep. cbv zeta in Ep. destruct Ep as [Hc2 Hp].
    fold (nationalPool raw) in Hp. fold (statePool (profile_of first) raw) in Hp.
    assert (Hgood : good_inputs charitiesFile profileFile raw first).
    { split; [exact Hl1|]. split; [now exists others | exact Hok]. }
    destruct (achievable (nationalPool raw) (statePool (profile_of first) raw)
              <? totalCharities DEFAULT_CONSTRAINTS) eqn:Ea; decided.
    + subst rp. intros H. injection H as <- <-. right. left.
      exists raw, first. repeat (split; trivial). congruence.
    + destruct Hp as (plan & -> & P1 & P2 & P3 & P4 & P5 & P6).
      unfold ret. intros H. injection H as <- <-. right. right.
      exists raw, first, plan. repeat (split; trivial); congruence.
  - intros H. injection H as <- <-. left. exists m.
    split; [reflexivity|]. split; [exact Hm1|]. split; [exact Hm2|]. split; [exact Hc1|].
    intros raw first ([Hf Hraw] & (others & [Hpf _]) & Hok). subst charitiesFile profileFile.
    apply loadInputs_loaded in El as [_ Hr]; trivial.
    destruct (len (filter is_valid raw) <? totalCharities DEFAULT_CONSTRAINTS) eqn:Elt;
      [|discriminate].
    decided. split; [exact Elt | congruence].
Qed.

Lemma selectCharities_try_cases (charitiesPath profilePath : string)
    (charitiesFile : file Charity.t) (profileFile : file RawUserProfile.t)
    (w w' : World) (r : thrown + list Charity.t) :
  selectCharities_try charitiesPath profilePath charitiesFile profileFile w = (r, w') ->
  fails_before_pools charitiesFile profileFile r w w'
  \/ fails_in_planning charitiesFile profileFile r w w'
  \/ selected charitiesFile profileFile r.
Proof.
  unfold selectCharities_try, bind.
  destruct (planning charitiesPath profilePath charitiesFile profileFile w)
    as [rp w1] eqn:Ep.
  apply planning_cases in Ep
    as [(m & -> & H1 & H2 & H3 & H4)
       | [(raw & first & Hg & Hv & Ha & -> & Hc)
         | (raw & first & plan & Hg & Ha & -> & Hplan)]].
  - intros H. injection H as <- <-. left. exists m. now repeat (split; trivial).
  - intros H. injection H as <- <-. right. left. exists raw, first.
    now repeat (split; trivial).
  - cbn [fst snd]. intros Hfill. right. right.
    apply fillSelection_spec in Hfill as (fromNational & fromState & Hasm & Hres);
      try apply Hplan.
    exists raw, first, plan, fromNational, fromState. now repeat (split; trivial).
Qed.

Lemma selectCharities_wraps (charitiesPath profilePath : string)
    (charitiesFile : file Charity.t) (profileFile : file RawUserProfile.t)
    (w w' : World) (r : thrown + list Charity.t) :
  selectCharities charitiesPath profilePath charitiesFile profileFile w = (r, w') ->
  exists r0 w0,
    selectCharities_try charitiesPath profilePath charitiesFile profileFile w = (r0, w0)
    /\ random_calls w' = random_calls w0
    /\ r = match r0 with
           | inr result => inr result
           | inl error => inl (JsError (selection_failed (message_of error)))
           end.
Proof.
  unfold selectCharities, try_catch.
  destruct (selectCharities_try charitiesPath profilePath charitiesFile profileFile w)
    as [[error|result] w0]; plumbing; intros H; injection H as <- <-;
    eexists _, _; repeat split.
Qed.

(** ** The pools *)

Lemma len_filter_impl {A} (p q : A -> bool) (l : list A) :
  (forall x, p x = true -> q x = true) -> len (filter p l) <= len (filter q l).
Proof.
  intros Himp. unfold len. induction l as [|x l IH]; cbn [filter List.length]; [lia|].
  destruct (p x) eqn:Ep; [rewrite (Himp x Ep)|destruct (q x)]; cbn [List.length]; lia.
Qed.

Lemma national_is_not_state (c : Charity.t) :
  is_national c = true -> (Charity.featured c =? "STATE")%string = false.
Proof. unfold is_national. intros H. apply String.eqb_eq in H. now rewrite H. Qed.

Lemma state_of_is_not_national (userProfile : UserProfile.t) (c : Charity.t) :
  is_state_of userProfile c = true -> negb (is_national c) = true.
Proof.
  unfold is_state_of, is_national. intros H. apply andb_prop in H as [H _].
  apply String.eqb_eq in H. now rewrite H.
Qed.

Lemma pools_le_valid (userProfile : UserProfile.t) (raw : list Charity.t) :
  len (nationalPool raw) + len (statePool userProfile raw) <= len (filter is_valid raw).
Proof.
  unfold nationalPool, statePool.
  rewrite (filter_split_len is_national (filter is_valid raw)).
  pose proof (len_filter_impl (is_state_of userProfile) (fun c => negb (is_national c))
                (filter is_valid raw) (state_of_is_not_national userProfile)). lia.
Qed.

Lemma achievable_le_pools (nationalCharities stateCharities : list Charity.t) :
  achievable nationalCharities stateCharities <= len nationalCharities + len stateCharities.
Proof. unfold achievable, stateCap. lia. Qed.

Lemma NoDup_map_same {A B} (f : A -> B) (l : list A) (x y : A) :
  NoDup (map f l) -> In x l -> In y l -> f x = f y -> x = y.
Proof.
  induction l as [|a l IH]; cbn [map]; intros Hd Hx Hy He; [destruct Hx|].
  apply NoDup_cons_iff in Hd as [Ha Hd].
  destruct Hx as [<-|Hx], Hy as [<-|Hy]; trivial.
  - elim Ha. rewrite He. now apply in_map.
  - elim Ha. rewrite <- He. now apply in_map.
  - now apply IH.
Qed.

Lemma nationalPool_ids (raw : list Charity.t) :
  NoDup (map Charity.id raw) -> NoDup (map Charity.id (nationalPool raw)).
Proof. intros H. unfold nationalPool. now do 2 apply filter_keeps_ids_distinct. Qed.

Lemma statePool_ids (userProfile : UserProfile.t) (raw : list Charity.t) :
  NoDup (map Charity.id raw) -> NoDup (map Charity.id (statePool userProfile raw)).
Proof. intros H. unfold statePool. now do 2 apply filter_keeps_ids_distinct. Qed.

Lemma nationalPool_In (raw : list Charity.t) (c : Charity.t) :
  In c (nationalPool raw) <-> In c raw /\ is_valid c = true /\ is_national c = true.
Proof. unfold nationalPool. rewrite !filter_In. tauto. Qed.

Lemma statePool_In (userProfile : UserProfile.t) (raw : list Charity.t) (c : Charity.t) :
  In c (statePool userProfile raw)
  <-> In c raw /\ is_valid c = true /\ is_state_of userProfile c = true.
Proof. unfold statePool. rewrite !filter_In. tauto. Qed.

(** The ids of what was assembled are distinct when those of the input are. *)
Lemma assembled_ids (userProfile : UserProfile.t) (raw : list Charity.t) (plan : Plan)
    (fromNational fromState : list Charity.t) :
  NoDup (map Charity.id raw) ->
  well_planned userProfile raw plan ->
  assembled userProfile plan fromNational fromState ->
  NoDup (map Charity.id (fromNational ++ fromState)).
Proof.
  intros Hd Hplan Hasm. rewrite map_app. apply NoDup_app.
  - apply Hasm. rewrite (wp_national _ _ _ Hplan). now apply nationalPool_ids.
  - apply Hasm. rewrite (wp_state _ _ _ Hplan). now apply statePool_ids.
  - intros x (a & <- & Ha)%in_map_iff (b & He & Hb)%in_map_iff.
    apply (asm_national_incl _ _ _ _ Hasm) in Ha. rewrite (wp_national _ _ _ Hplan) in Ha.
    apply (asm_state_incl _ _ _ _ Hasm) in Hb. rewrite (wp_state _ _ _ Hplan) in Hb.
    apply nationalPool_In in Ha as (Ha & _ & Hn).
    apply statePool_In in Hb as (Hb & _ & Hs).
    assert (b = a) by (now apply (NoDup_map_same Charity.id raw)). subst b.
    apply state_of_is_not_national in Hs. now rewrite Hn in Hs.
Qed.

Lemma good_inputs_content (raw : list Charity.t) (first : RawUserProfile.t)
    (others : list RawUserProfile.t) :
  raw <> [] -> profile_ok first = true ->
  good_inputs (Content raw) (Content (first :: others)) raw first.
Proof.
  intros Hraw Hok. split; [now split|]. split; [|exact Hok].
  exists others. split; [reflexivity | discriminate].
Qed.

Lemma good_inputs_unique (charitiesFile : file Charity.t)
    (profileFile : file RawUserProfile.t) (raw raw' : list Charity.t)
    (first first' : RawUserProfile.t) :
  good_inputs charitiesFile profileFile raw first ->
  good_inputs charitiesFile profileFile raw' first' ->
  raw' = raw /\ first' = first.
Proof.
  intros (H1 & (o & H2) & _) (H1' & (o' & H2') & _).
  split; [exact (loaded_unique _ _ _ H1' H1)|].
  pose proof (loaded_unique _ _ _ H2' H2) as H. now injection H.
Qed.

Lemma good_inputs_of_content (raw raw' : list Charity.t) (first first' : RawUserProfile.t)
    (others : list RawUserProfile.t) :
  good_inputs (Content raw) (Content (first :: others)) raw' first' ->
  raw' = raw /\ first' = first /\ raw <> [] /\ profile_ok first = true.
Proof.
  intros ([H1 Hn] & (o & [H2 _]) & Hok).
  injection H1 as <-. injection H2 as <- _. now repeat split.
Qed.

(** With distinct ids both targets are met and the count is the expected one. *)
Lemma selection_lengths (userProfile : UserProfile.t) (raw : list Charity.t) (plan : Plan)
    (fromNational fromState : list Charity.t) :
  NoDup (map Charity.id raw) ->
  well_planned userProfile raw plan ->
  assembled userProfile plan fromNational fromState ->
  len fromNational + len fromState = totalCharities DEFAULT_CONSTRAINTS
  /\ expectedCount plan = totalCharities DEFAULT_CONSTRAINTS.
Proof.
  intros Hd [P1 P2 P3 P4 P5 _] Hasm.
  pose proof (asm_national_full _ _ _ _ Hasm) as Hn.
  pose proof (asm_state_full _ _ _ _ Hasm) as Hs.
  unfold expectedCount. rewrite P1, P2 in *. unfold stateCap in P3.
  rewrite Hn, Hs; try lia.
  - now apply statePool_ids.
  - now apply nationalPool_ids.
Qed.

(** A call on read files that returns went through the selection. *)
Lemma success_shape (charitiesPath profilePath : string) (raw : list Charity.t)
    (first : RawUserProfile.t) (others : list RawUserProfile.t)
    (w w' : World) (result : list Charity.t) :
  selectCharities charitiesPath profilePath (Content raw) (Content (first :: others)) w
  = (inr result, w') ->
  exists plan fromNational fromState,
    well_planned (profile_of first) raw plan
    /\ assembled (profile_of first) plan fromNational fromState
    /\ Permutation (fromNational ++ fromState) result.
Proof.
  intros Hrun. apply selectCharities_wraps in Hrun as (r0 & w0 & Htry & _ & Hr).
  destruct r0 as [error|result0]; [discriminate|]. injection Hr as ->.
  apply selectCharities_try_cases in Htry
    as [(m & Hm & _) | [(raw' & first' & _ & _ & _ & Hm & _)
                       | (raw' & first' & plan & fN & fS & Hg & _ & Hplan & Hasm & Hres)]];
    try discriminate.
  apply good_inputs_of_content in Hg as (-> & -> & _ & _).
  exists plan, fN, fS. split; [exact Hplan|]. split; [exact Hasm|].
  destruct (len fN + len fS =? expectedCount plan); [|discriminate].
  destruct Hres as (res & Hr & Hp). now injection Hr as ->.
Qed.

(** A call on read files with distinct ids and enough supply returns. *)
Lemma success_when_supplied (charitiesPath profilePath : string) (raw : list Charity.t)
    (first : RawUserProfile.t) (others : list RawUserProfile.t) (w : World) :
  profile_ok first = true ->
  NoDup (map Charity.id raw) ->
  totalCharities DEFAULT_CONSTRAINTS
  <= achievable (nationalPool raw) (statePool (profile_of first) raw) ->
  exists result w',
    selectCharities charitiesPath profilePath (Content raw) (Content (first :: others)) w
    = (inr result, w').
Proof.
  intros Hok Hd Hsupply.
  pose proof (achievable_le_pools (nationalPool raw) (statePool (profile_of first) raw)) as Hle.
  pose proof (pools_le_valid (profile_of first) raw) as Hv.
  assert (Hraw : raw <> []).
  { intros ->. unfold achievable, stateCap, nationalPool, statePool, len in Hsupply.
    cbn in Hsupply. lia. }
  pose proof (good_inputs_content raw first others Hraw Hok) as Hgood.
  destruct (selectCharities charitiesPath profilePath (Content raw)
              (Content (first :: others)) w) as [r w'] eqn:Hrun.
  pose proof Hrun as Hwrap. apply selectCharities_wraps in Hwrap as (r0 & w0 & Htry & _ & Hr).
  apply selectCharities_try_cases in Htry
    as [(m & _ & _ & _ & _ & Hm)
       | [(raw' & first' & Hg & _ & Ha & _)
         | (raw' & first' & plan & fN & fS & Hg & _ & Hplan & Hasm & Hres)]].
  - destruct (Hm raw first Hgood) as [Hlt _]. lia.
  - apply good_inputs_of_content in Hg as (-> & -> & _ & _). lia.
  - apply good_inputs_of_content in Hg as (-> & -> & _ & _).
    destruct (selection_lengths _ _ _ _ _ Hd Hplan Hasm) as [Hlen Hexp].
    rewrite Hlen, Hexp, Z.eqb_refl in Hres. destruct Hres as (result & -> & _).
    subst r. now exists result, w'.
Qed.

Lemma filter_none {A} (p : A -> bool) (l : list A) :
  (forall x, In x l -> p x = false) -> filter p l = [].
Proof.
  induction l as [|x l IH]; intros H; cbn [filter]; [reflexivity|].
  rewrite (H x (in_eq x l)). apply IH. intros y Hy. apply H. now right.
Qed.

Lemma distinct_by_computation (l : list string) : nodup string_dec l = l -> NoDup l.
Proof. intros <-. apply NoDup_nodup. Qed.

(** ** Failures and where they come from *)

Lemma loadInputs_failure_stops (charitiesPath profilePath : string)
    (charitiesFile : file Charity.t) (profileFile : file RawUserProfile.t)
    (w w1 : World) (error : thrown) :
  loadInputs charitiesPath profilePath charitiesFile profileFile w = (inl error, w1) ->
  planning charitiesPath profilePath charitiesFile profileFile w = (inl error, w1).
Proof. intros H. unfold planning, bind. now rewrite H. Qed.

Lemma planning_failure_surfaces (charitiesPath profilePath : string)
    (charitiesFile : file Charity.t) (profileFile : file RawUserProfile.t)
    (w w1 : World) (error : thrown) :
  planning charitiesPath profilePath charitiesFile profileFile w = (inl error, w1) ->
  exists w',
    selectCharities charitiesPath profilePath charitiesFile profileFile w
    = (inl (JsError (selection_failed (message_of error))), w')
    /\ random_calls w' = random_calls w1.
Proof.
  intros H. unfold selectCharities, try_catch, selectCharities_try, bind. rewrite H.
  plumbing. eexists. split; reflexivity.
Qed.

Lemma selection_failed_inj (m1 m2 : string) :
  selection_failed m1 = selection_failed m2 -> m1 = m2.
Proof. unfold selection_failed. cbn [append]. intros H. now injection H. Qed.

Lemma wrapped_inj (e : thrown) (m : string) :
  inl (B := list Charity.t) (JsError (selection_failed (message_of e)))
  = inl (JsError (selection_failed m)) ->
  message_of e = m.
Proof. intros H. apply selection_failed_inj. congruence. Qed.

Lemma capacity_message_kind (a b c : Z) :
  is_capacity_message (insufficient_total a b c) = true
  /\ is_mismatch_message (insufficient_total a b c) = false.
Proof. split; reflexivity. Qed.

Lemma mismatch_message_kind (expected got : Z) :
  is_mismatch_message (count_mismatch expected got) = true
  /\ is_capacity_message (count_mismatch expected got) = false.
Proof. split; reflexivity. Qed.

(** * The claims *)

(** C1, as stated, fails: "sufficient supply" is a total eligible supply
    (national plus state of the user) of at least [totalCharities].  The
    twelve state charities of the test suite are such a supply, all valid
    and with distinct ids, and the call is rejected. *)
Lemma sufficient_supply_counterexample :
  profile_ok pet_owner = true
  /\ NoDup (map Charity.id only_state_charities)
  /\ totalCharities DEFAULT_CONSTRAINTS
     <= len (nationalPool only_state_charities)
        + len (statePool (profile_of pet_owner) only_state_charities)
  /\ fst (run only_state_charities)
     = inl (JsError "Charity selection failed: Insufficient total charities: need 12, have 5 (0 national + 5 state)").
Proof.
  split; [reflexivity|]. split; [apply distinct_by_computation; reflexivity|].
  split; [apply Z.leb_le|]; vm_compute; reflexivity.
Qed.

(** C1 (amended): for every input that is read, whose profile has its
    fields and whose ids are pairwise distinct, if the national pool
    together with at most [maxStateCharities] items of the state pool reach
    [totalCharities], then [selectCharities] returns, whatever the random
    source gives, and the result has exactly [totalCharities] items. *)
Theorem selectCharities_returns_total (charitiesPath profilePath : string)
    (raw : list Charity.t) (first : RawUserProfile.t) (others : list RawUserProfile.t)
    (w : World) :
  profile_ok first = true ->
  NoDup (map Charity.id raw) ->
  totalCharities DEFAULT_CONSTRAINTS
  <= achievable (nationalPool raw) (statePool (profile_of first) raw) ->
  exists result w',
    selectCharities charitiesPath profilePath (Content raw) (Content (first :: others)) w
    = (inr result, w')
    /\ len result = totalCharities DEFAULT_CONSTRAINTS.
Proof.
  intros Hok Hd Hsupply.
  destruct (success_when_supplied charitiesPath profilePath raw first others w Hok Hd Hsupply)
    as (result & w' & Hrun).
  exists result, w'. split; [exact Hrun|].
  apply success_shape in Hrun as (plan & fN & fS & Hplan & Hasm & Hperm).
  rewrite <- (len_Permutation _ _ Hperm), len_app.
  exact (proj1 (selection_lengths _ _ _ _ _ Hd Hplan Hasm)).
Qed.

Lemma selectCharities_returns_total_witness :
  exists result w',
    selectCharities "charities.csv" "profile.csv" (Content boundary_charities)
      (Content [pet_owner]) start = (inr result, w')
    /\ len result = totalCharities DEFAULT_CONSTRAINTS.
Proof.
  apply (selectCharities_returns_total "charities.csv" "profile.csv" boundary_charities
           pet_owner [] start).
  - reflexivity.
  - apply distinct_by_computation. reflexivity.
  - apply Z.leb_le. vm_compute. reflexivity.
Defined.

(** C2: when the profile has pets and the national pool and the state pool
    of the user hold at least four ANIMAL_RELATED charities between them,
    every result that [selectCharities] returns has at least four items of
    that category. *)
Theorem pets_get_four_animals (charitiesPath profilePath : string)
    (raw : list Charity.t) (first : RawUserProfile.t) (others : list RawUserProfile.t)
    (w w' : World) (result : list Charity.t) :
  selectCharities charitiesPath profilePath (Content raw) (Content (first :: others)) w
  = (inr result, w') ->
  UserProfile.hasPets (profile_of first) = true ->
  minAnimalCharitiesIfPets DEFAULT_CONSTRAINTS
  <= len (filter is_animal (nationalPool raw))
     + len (filter is_animal (statePool (profile_of first) raw)) ->
  minAnimalCharitiesIfPets DEFAULT_CONSTRAINTS <= len (filter is_animal result).
Proof.
  intros Hrun Hpets Hanimals.
  apply success_shape in Hrun as (plan & fN & fS & Hplan & Hasm & Hperm).
  rewrite <- (len_Permutation _ _ (filter_Permutation is_animal _ _ Hperm)).
  apply Hasm; trivial.
  rewrite (wp_national _ _ _ Hplan), (wp_state _ _ _ Hplan). now apply Hplan.
Qed.

Lemma pets_get_four_animals_witness :
  UserProfile.hasPets (profile_of pet_owner) = true
  /\ minAnimalCharitiesIfPets DEFAULT_CONSTRAINTS
     <= len (filter is_animal (nationalPool exact_animal_charities))
        + len (filter is_animal (statePool (profile_of pet_owner) exact_animal_charities))
  /\ minAnimalCharitiesIfPets DEFAULT_CONSTRAINTS
     <= len (filter is_animal (returned (run exact_animal_charities))).
Proof.
  assert (Hanimals : minAnimalCharitiesIfPets DEFAULT_CONSTRAINTS
     <= len (filter is_animal (nationalPool exact_animal_charities))
        + len (filter is_animal (statePool (profile_of pet_owner) exact_animal_charities))).
  { apply Z.leb_le. vm_compute. reflexivity. }
  split; [reflexivity|]. split; [exact Hanimals|].
  apply (pets_get_four_animals "charities.csv" "profile.csv" exact_animal_charities
           pet_owner [] start (snd (run exact_animal_charities))).
  - vm_compute. reflexivity.
  - reflexivity.
  - exact Hanimals.
Defined.



(** C4: in every result that [selectCharities] returns, at most
    [maxStateCharities] items are featured for a state, and each of them is
    of the state of the profile. *)
Theorem state_items_bounded (charitiesPath profilePath : string)
    (raw : list Charity.t) (first : RawUserProfile.t) (others : list RawUserProfile.t)
    (w w' : World) (result : list Charity.t) :
  selectCharities charitiesPath profilePath (Content raw) (Content (first :: others)) w
  = (inr result, w') ->
  len (filter (fun c => (Charity.featured c =? "STATE")%string) result)
  <= maxStateCharities DEFAULT_CONSTRAINTS
  /\ forall c, In c result -> Charity.featured c = "STATE" ->
               Charity.state c = UserProfile.state (profile_of first).
Proof.
  intros Hrun.
  apply success_shape in Hrun as (plan & fN & fS & Hplan & Hasm & Hperm).
  pose proof (asm_national_incl _ _ _ _ Hasm) as HN. rewrite (wp_national _ _ _ Hplan) in HN.
  pose proof (asm_state_incl _ _ _ _ Hasm) as HS. rewrite (wp_state _ _ _ Hplan) in HS.
  split.
  - rewrite <- (len_Permutation _ _ (filter_Permutation _ _ _ Hperm)), filter_app, len_app.
    assert (Hnone : filter (fun c => (Charity.featured c =? "STATE")%string) fN = []).
    { apply filter_none. intros c Hc.
      apply HN, nationalPool_In in Hc as (_ & _ & Hc).
      now apply national_is_not_state. }
    rewrite Hnone.
    pose proof (len_filter_le (fun c => (Charity.featured c =? "STATE")%string) fS).
    pose proof (asm_state_len _ _ _ _ Hasm).
    pose proof (wp_state_count _ _ _ Hplan) as Hcap. unfold stateCap in Hcap.
    change (len (@nil Charity.t)) with 0. lia.
  - intros c Hc Hf. apply (Permutation_in c (Permutation_sym Hperm)), in_app_or in Hc.
    destruct Hc as [Hc|Hc].
    + apply HN, nationalPool_In in Hc as (_ & _ & Hc).
      apply national_is_not_state in Hc. rewrite Hf in Hc. discriminate.
    + apply HS, statePool_In in Hc as (_ & _ & Hc).
      unfold is_state_of in Hc. apply andb_prop in Hc as [_ Hc]. now apply String.eqb_eq.
Qed.

Lemma state_items_bounded_witness :
  len (filter (fun c => (Charity.featured c =? "STATE")%string)
         (returned (run boundary_charities)))
  <= maxStateCharities DEFAULT_CONSTRAINTS
  /\ forall c, In c (returned (run boundary_charities)) -> Charity.featured c = "STATE" ->
               Charity.state c = UserProfile.state (profile_of pet_owner).
Proof.
  apply (state_items_bounded "charities.csv" "profile.csv" boundary_charities
           pet_owner [] start (snd (run boundary_charities))).
  vm_compute. reflexivity.
Defined.

(** C5: when the ids of the candidates are pairwise distinct, the ids of
    every result that [selectCharities] returns are pairwise distinct, and
    each item of the result is a candidate that is valid and featured
    nationally or for the state of the profile. *)
Theorem result_distinct_and_eligible (charitiesPath profilePath : string)
    (raw : list Charity.t) (first : RawUserProfile.t) (others : list RawUserProfile.t)
    (w w' : World) (result : list Charity.t) :
  NoDup (map Charity.id raw) ->
  selectCharities charitiesPath profilePath (Content raw) (Content (first :: others)) w
  = (inr result, w') ->
  NoDup (map Charity.id result)
  /\ forall c, In c result -> In c raw /\ eligible (profile_of first) c = true.
Proof.
  intros Hd Hrun.
  apply success_shape in Hrun as (plan & fN & fS & Hplan & Hasm & Hperm).
  split.
  - apply (Permutation_NoDup (Permutation_map Charity.id Hperm)).
    now apply (assembled_ids (profile_of first) raw plan).
  - intros c Hc. apply (Permutation_in c (Permutation_sym Hperm)), in_app_or in Hc.
    unfold eligible. destruct Hc as [Hc|Hc].
    + apply (asm_national_incl _ _ _ _ Hasm) in Hc. rewrite (wp_national _ _ _ Hplan) in Hc.
      apply nationalPool_In in Hc as (Hin & -> & ->). now split.
    + apply (asm_state_incl _ _ _ _ Hasm) in Hc. rewrite (wp_state _ _ _ Hplan) in Hc.
      apply statePool_In in Hc as (Hin & -> & ->). split; [exact Hin | apply orb_true_r].
Qed.

Lemma result_distinct_and_eligible_witness :
  NoDup (map Charity.id exact_animal_charities)
  /\ NoDup (map Charity.id (returned (run exact_animal_charities)))
  /\ forall c, In c (returned (run exact_animal_charities)) ->
               In c exact_animal_charities /\ eligible (profile_of pet_owner) c = true.
Proof.
  assert (Hd : NoDup (map Charity.id exact_animal_charities)).
  { apply distinct_by_computation. reflexivity. }
  split; [exact Hd|].
  apply (result_distinct_and_eligible "charities.csv" "profile.csv" exact_animal_charities
           pet_owner [] start (snd (run exact_animal_charities)) _ Hd).
  vm_compute. reflexivity.
Defined.

(** C6: when the ids of the candidates are pairwise distinct, the check of
    the count never fails: a call on read files either returns a result of
    the expected count, or is rejected with an error that is not "Selection
    count mismatch". *)
Theorem count_check_never_fails (charitiesPath profilePath : string)
    (raw : list Charity.t) (first : RawUserProfile.t) (others : list RawUserProfile.t)
    (w w' : World) (r : thrown + list Charity.t) :
  NoDup (map Charity.id raw) ->
  selectCharities charitiesPath profilePath (Content raw) (Content (first :: others)) w
  = (r, w') ->
  match r with
  | inr result =>
      len result
      = Z.min (totalCharities DEFAULT_CONSTRAINTS)
              (len (nationalPool raw) + len (statePool (profile_of first) raw))
  | inl error =>
      forall expected got,
        error <> JsError (selection_failed (count_mismatch expected got))
  end.
Proof.
  intros Hd Hrun.
  pose proof Hrun as Hwrap. apply selectCharities_wraps in Hwrap as (r0 & w0 & Htry & _ & ->).
  apply selectCharities_try_cases in Htry
    as [(m & -> & _ & Hm & _)
       | [(raw' & first' & _ & _ & _ & -> & _)
         | (raw' & first' & plan & fN & fS & Hg & _ & Hplan & Hasm & Hres)]].
  - intros expected got He. apply (f_equal (@inl thrown (list Charity.t))) in He.
    apply wrapped_inj in He. cbn [message_of] in He. subst m.
    now rewrite (proj1 (mismatch_message_kind expected got)) in Hm.
  - intros expected got He. apply (f_equal (@inl thrown (list Charity.t))) in He.
    apply wrapped_inj in He. cbn [message_of] in He.
    pose proof (proj1 (mismatch_message_kind expected got)) as Hk. rewrite <- He in Hk.
    now rewrite (proj2 (capacity_message_kind _ _ _)) in Hk.
  - apply good_inputs_of_content in Hg as (-> & -> & _ & _).
    destruct (selection_lengths _ _ _ _ _ Hd Hplan Hasm) as [Hlen Hexp].
    rewrite Hlen, Hexp, Z.eqb_refl in Hres. destruct Hres as (result & -> & Hperm).
    rewrite <- (len_Permutation _ _ Hperm), len_app, Hlen.
    unfold expectedCount in Hexp.
    now rewrite (wp_national _ _ _ Hplan), (wp_state _ _ _ Hplan) in Hexp.
Qed.

Lemma count_check_never_fails_witness :
  NoDup (map Charity.id boundary_charities)
  /\ len (returned (run boundary_charities))
     = Z.min (totalCharities DEFAULT_CONSTRAINTS)
             (len (nationalPool boundary_charities)
              + len (statePool (profile_of pet_owner) boundary_charities)).
Proof.
  assert (Hd : NoDup (map Charity.id boundary_charities)).
  { apply distinct_by_computation. reflexivity. }
  split; [exact Hd|].
  apply (count_check_never_fails "charities.csv" "profile.csv" boundary_charities
           pet_owner [] start (snd (run boundary_charities))
           (inr (returned (run boundary_charities))) Hd).
  vm_compute. reflexivity.
Defined.

(** C7, as stated, fails: twelve valid rows of which five are featured pass
    the check made before the pools are built, although the eligible set
    has five items; the call is rejected later, by the check of lines
    205-209. *)
Lemma upfront_check_counterexample :
  len (nationalPool mostly_unfeatured_charities)
  + len (statePool (profile_of pet_owner) mostly_unfeatured_charities)
  < totalCharities DEFAULT_CONSTRAINTS
  /\ fst (loadInputs "charities.csv" "profile.csv" (Content mostly_unfeatured_charities)
            (Content [pet_owner]) start)
     = inr (profile_of pet_owner, mostly_unfeatured_charities)
  /\ fst (run mostly_unfeatured_charities)
     = inl (JsError "Charity selection failed: Insufficient total charities: need 12, have 5 (5 national + 0 state)").
Proof.
  split; [apply Z.ltb_lt|split]; vm_compute; reflexivity.
Qed.

(** C7 (amended): the check made once, before the pools are built, is over
    the candidates that pass [validateCharity], featured or not and of any
    state: whenever fewer than [totalCharities] of them are valid, the part
    of the call that precedes the pools fails with "Insufficient charities",
    and no number has been drawn. *)
Theorem upfront_check_counts_valid (charitiesPath profilePath : string)
    (raw : list Charity.t) (first : RawUserProfile.t) (others : list RawUserProfile.t)
    (w : World) :
  raw <> [] ->
  profile_ok first = true ->
  len (filter is_valid raw) < totalCharities DEFAULT_CONSTRAINTS ->
  exists w1 w',
    loadInputs charitiesPath profilePath (Content raw) (Content (first :: others)) w
    = (inl (JsError (insufficient_charities (len (filter is_valid raw)))), w1)
    /\ random_calls w1 = random_calls w
    /\ selectCharities charitiesPath profilePath (Content raw) (Content (first :: others)) w
       = (inl (JsError (selection_failed
                          (insufficient_charities (len (filter is_valid raw))))), w').
Proof.
  intros Hraw Hok Hshort.
  destruct (loadInputs charitiesPath profilePath (Content raw) (Content (first :: others)) w)
    as [r w1] eqn:Hload.
  pose proof Hload as Hr. apply loadInputs_loaded in Hr as [Hc ->]; trivial.
  apply Z.ltb_lt in Hshort. rewrite Hshort in *.
  apply loadInputs_failure_stops, planning_failure_surfaces in Hload as (w' & Hrun & _).
  now exists w1, w'.
Qed.

Lemma upfront_check_counts_valid_witness :
  exists w1 w',
    loadInputs "charities.csv" "profile.csv" (Content five_national_charities)
      (Content [pet_owner]) start
    = (inl (JsError (insufficient_charities (len (filter is_valid five_national_charities)))),
       w1)
    /\ random_calls w1 = random_calls start
    /\ selectCharities "charities.csv" "profile.csv" (Content five_national_charities)
         (Content [pet_owner]) start
       = (inl (JsError (selection_failed
                          (insufficient_charities
                             (len (filter is_valid five_national_charities))))), w').
Proof.
  apply (upfront_check_counts_valid "charities.csv" "profile.csv" five_national_charities
           pet_owner [] start).
  - discriminate.
  - reflexivity.
  - apply Z.ltb_lt. vm_compute. reflexivity.
Defined.

(** C8, as stated, fails: on the twelve state charities of the test suite
    the call aborts with the shortfall of the capacity planning, and
    [Math.random()] has been called once by then. *)
Lemma draw_before_abort_counterexample :
  fst (run only_state_charities)
  = inl (JsError (selection_failed (insufficient_total 5 0 5)))
  /\ random_calls start = 0%nat
  /\ random_calls (snd (run only_state_charities)) = 1%nat.
Proof. repeat split; vm_compute; reflexivity. Qed.

(** C8 (amended): when [selectCharities] aborts with the shortfall of the
    capacity planning ("Insufficient total charities"), exactly one random
    number has been drawn since the call began, the one of [getRandomInt]
    that sizes the share of the state: no coin of a rule, no sample and no
    shuffle precedes the abort. *)
Theorem one_draw_before_abort (charitiesPath profilePath : string)
    (charitiesFile : file Charity.t) (profileFile : file RawUserProfile.t)
    (w w' : World) (totalAvailable nationalCount stateCount : Z) :
  selectCharities charitiesPath profilePath charitiesFile profileFile w
  = (inl (JsError (selection_failed
                     (insufficient_total totalAvailable nationalCount stateCount))), w') ->
  random_calls w' = S (random_calls w).
Proof.
  intros Hrun.
  apply selectCharities_wraps in Hrun as (r0 & w0 & Htry & Hc & Hr).
  pose proof (capacity_message_kind totalAvailable nationalCount stateCount) as [Hk _].
  apply selectCharities_try_cases in Htry
    as [(m & -> & Hm & _)
       | [(raw & first & _ & _ & _ & -> & Hdraw)
         | (raw & first & plan & fN & fS & _ & _ & _ & _ & Hres)]].
  - symmetry in Hr. apply wrapped_inj in Hr. cbn [message_of] in Hr.
    rewrite <- Hr, Hm in Hk. discriminate.
  - congruence.
  - destruct (len fN + len fS =? expectedCount plan).
    + destruct Hres as (result & -> & _). discriminate.
    + subst r0. symmetry in Hr. apply wrapped_inj in Hr. cbn [message_of] in Hr.
      rewrite <- Hr, (proj2 (mismatch_message_kind _ _)) in Hk. discriminate.
Qed.

Lemma one_draw_before_abort_witness :
  random_calls (snd (run only_state_charities)) = S (random_calls start).
Proof.
  apply (one_draw_before_abort "charities.csv" "profile.csv" (Content only_state_charities)
           (Content [pet_owner]) start (snd (run only_state_charities)) 5 0 5).
  vm_compute. reflexivity.
Defined.

(** C9, as stated, fails: of eight national rows and four of the state of
    the user, all twelve valid and eligible, where one national row has the
    id of an animal charity, the call for a pet owner is rejected.  The
    rows that share an id with an item already selected are left out of
    the rest of the draw (lines 223-225), so one item is missing at the
    check of lines 241-245. *)
Lemma twelve_eligible_counterexample :
  len (nationalPool repeated_id_charities) = 8
  /\ len (statePool (profile_of pet_owner) repeated_id_charities) = 4
  /\ forallb (eligible (profile_of pet_owner)) repeated_id_charities = true
  /\ fst (run repeated_id_charities)
     = inl (JsError "Charity selection failed: Selection count mismatch: expected 12, got 11").
Proof.
  repeat split; vm_compute; reflexivity.
Qed.

(** C9 (amended): for an input that is read, with a profile that has its
    fields and candidates of pairwise distinct ids, of which exactly eight
    are in the national pool and four in the state pool of the user,
    [selectCharities] returns, and every eligible candidate is in the
    result. *)
Theorem twelve_eligible_all_selected (charitiesPath profilePath : string)
    (raw : list Charity.t) (first : RawUserProfile.t) (others : list RawUserProfile.t)
    (w : World) :
  profile_ok first = true ->
  NoDup (map Charity.id raw) ->
  len (nationalPool raw) = 8 ->
  len (statePool (profile_of first) raw) = 4 ->
  exists result w',
    selectCharities charitiesPath profilePath (Content raw) (Content (first :: others)) w
    = (inr result, w')
    /\ forall c, In c raw -> eligible (profile_of first) c = true -> In c result.
Proof.
  intros Hok Hd HN HS.
  assert (Hsupply : totalCharities DEFAULT_CONSTRAINTS
                    <= achievable (nationalPool raw) (statePool (profile_of first) raw)).
  { unfold achievable, stateCap. rewrite HN, HS. cbn. lia. }
  destruct (success_when_supplied charitiesPath profilePath raw first others w Hok Hd Hsupply)
    as (result & w' & Hrun).
  exists result, w'. split; [exact Hrun|].
  apply success_shape in Hrun as (plan & fN & fS & Hplan & Hasm & Hperm).
  destruct (selection_lengths _ _ _ _ _ Hd Hplan Hasm) as [Hlen _].
  assert (Hall : incl (nationalPool raw ++ statePool (profile_of first) raw) (fN ++ fS)).
  { apply NoDup_length_incl.
    - apply (NoDup_map_inv Charity.id). now apply (assembled_ids (profile_of first) raw plan).
    - unfold len in *. rewrite !length_app in *.
      cbn [totalCharities DEFAULT_CONSTRAINTS] in Hlen. lia.
    - apply incl_app.
      + apply incl_appl. rewrite <- (wp_national _ _ _ Hplan). apply Hasm.
      + apply incl_appr. rewrite <- (wp_state _ _ _ Hplan). apply Hasm. }
  intros c Hc He. apply (Permutation_in c Hperm), Hall, in_or_app.
  unfold eligible in He. apply andb_prop in He as [Hv He]. apply orb_prop in He as [He|He].
  - left. now apply nationalPool_In.
  - right. now apply statePool_In.
Qed.

Lemma twelve_eligible_all_selected_witness :
  exists result w',
    selectCharities "charities.csv" "profile.csv" (Content boundary_charities)
      (Content [pet_owner]) start = (inr result, w')
    /\ forall c, In c boundary_charities -> eligible (profile_of pet_owner) c = true ->
                 In c result.
Proof.
  apply (twelve_eligible_all_selected "charities.csv" "profile.csv" boundary_charities
           pet_owner [] start).
  - reflexivity.
  - apply distinct_by_computation. reflexivity.
  - vm_compute. reflexivity.
  - vm_compute. reflexivity.
Defined.

(** C10: every error raised inside [selectCharities] is an [Error] with a
    message, and reaches the caller as one [Error] whose message is
    "Charity selection failed: " followed by that message; and the call
    fails in no other way, so the text of the message is all that tells one
    kind of failure from another. *)
Theorem failures_are_wrapped (charitiesPath profilePath : string)
    (charitiesFile : file Charity.t) (profileFile : file RawUserProfile.t) (w : World) :
  (forall inner w0,
      selectCharities_try charitiesPath profilePath charitiesFile profileFile w
      = (inl inner, w0) ->
      exists m w',
        inner = JsError m
        /\ selectCharities charitiesPath profilePath charitiesFile profileFile w
           = (inl (JsError ("Charity selection failed: " ++ m)), w'))
  /\ (forall error w',
         selectCharities charitiesPath profilePath charitiesFile profileFile w
         = (inl error, w') ->
         exists m w0,
           selectCharities_try charitiesPath profilePath charitiesFile profileFile w
           = (inl (JsError m), w0)
           /\ error = JsError ("Charity selection failed: " ++ m)).
Proof.
  assert (Hinner : forall inner w0,
             selectCharities_try charitiesPath profilePath charitiesFile profileFile w
             = (inl inner, w0) -> exists m, inner = JsError m).
  { intros inner w0 Htry.
    apply selectCharities_try_cases in Htry
      as [(m & Hm & _) | [(raw & first & _ & _ & _ & Hm & _)
                         | (raw & first & plan & fN & fS & _ & _ & _ & _ & Hres)]].
    - injection Hm as ->. now exists m.
    - injection Hm as ->. now eexists.
    - destruct (len fN + len fS =? expectedCount plan).
      + destruct Hres as (result & Hr & _). discriminate.
      + injection Hres as ->. now eexists. }
  split.
  - intros inner w0 Htry. destruct (Hinner inner w0 Htry) as (m & ->).
    exists m. unfold selectCharities, try_catch. rewrite Htry. plumbing.
    eexists. split; reflexivity.
  - intros error w' Hrun.
    apply selectCharities_wraps in Hrun as (r0 & w0 & Htry & _ & Hr).
    destruct r0 as [inner|result]; [|discriminate].
    destruct (Hinner inner w0 Htry) as (m & ->). injection Hr as ->.
    now exists m, w0.
Qed.

Lemma failures_are_wrapped_witness :
  exists m w',
    JsError "CSV file not found: charities.csv" = JsError m
    /\ selectCharities "charities.csv" "profile.csv" NotFound (Content [pet_owner]) start
       = (inl (JsError ("Charity selection failed: " ++ m)), w').
Proof.
  apply (proj1 (failures_are_wrapped "charities.csv" "profile.csv" NotFound
                  (Content [pet_owner]) start)
           (JsError "CSV file not found: charities.csv")
           (snd (selectCharities_try "charities.csv" "profile.csv" NotFound
                   (Content [pet_owner]) start))).
  vm_compute. reflexivity.
Defined.

(** * Further properties of the code *)

(** ** What the random helpers do to the world *)

Lemma Math_random_console (w w' : World) (r : thrown + Z) :
  Math_random w = (r, w') -> console w' = console w.
Proof. unfold Math_random. intros H. now injection H as <- <-. Qed.

Lemma shuffleSelf_effects {A} (steps : nat) :
  forall (index : Z) (array : list A) (w w' : World) (r : thrown + list A),
    shuffleSelf steps index array w = (r, w') ->
    console w' = console w /\ random_calls w' = (random_calls w + steps)%nat.
Proof.
  induction steps as [|steps IH]; intros index array w w' r; cbn [shuffleSelf].
  - unfold ret. intros H. injection H as <- <-. split; [reflexivity | lia].
  - unfold bind at 1. unfold baseRandom, bind, ret.
    destruct (Math_random w) as [rk w1] eqn:E.
    pose proof (Math_random_console _ _ _ E) as Hcon.
    apply Math_random_spec in E as (k & -> & _ & Hcalls).
    destruct (nth_error array (Z.to_nat _)) as [value|];
      [destruct (nth_error array (Z.to_nat index)) as [other|]|];
      intros H; apply IH in H as [Hc Hr]; split; try congruence; lia.
Qed.

Lemma selectRandomItems_effects {T} (items : list T) (count : Z) (w w' : World)
    (r : thrown + list T) :
  selectRandomItems items count w = (r, w') ->
  console w' = console w
  /\ random_calls w'
     = (random_calls w + if (count <=? 0)%Z then 0 else List.length items)%nat.
Proof.
  unfold selectRandomItems, try_catch.
  destruct (count <=? 0).
  - unfold ret. intros H. injection H as <- <-. split; [reflexivity | lia].
  - destruct (count >=? len items).
    + destruct (shuffle items w) as [rs w1] eqn:Es.
      pose proof (shuffleSelf_effects _ _ _ _ _ _ Es) as Heff.
      apply shuffle_spec in Es as (res & -> & _).
      intros H. now injection H as <- <-.
    + unfold bind, ret.
      destruct (shuffle items w) as [rs w1] eqn:Es.
      pose proof (shuffleSelf_effects _ _ _ _ _ _ Es) as Heff.
      apply shuffle_spec in Es as (res & -> & _).
      intros H. now injection H as <- <-.
Qed.

Lemma distribute_console (turns : nat) :
  forall (maxFromState maxFromNational fromState fromNational : Z)
         (w w' : World) (r : thrown + Z * Z),
    distribute turns maxFromState maxFromNational fromState fromNational w = (r, w') ->
    console w' = console w /\ exists picked, r = inr picked.
Proof.
  induction turns as [|turns IH]; intros mS mN fS fN w w' r; cbn [distribute].
  - unfold ret. intros H. injection H as <- <-. split; [reflexivity | now eexists].
  - destruct (fS <? mS); destruct (fN <? mN); cbn [andb]; try apply IH.
    unfold bind at 1. destruct (Math_random w) as [rk w1] eqn:E.
    pose proof (Math_random_console _ _ _ E) as Hcon.
    apply Math_random_spec in E as (k & -> & _ & _).
    destruct (below_half k); intros H; apply IH in H as [Hc Hr]; split; congruence.
Qed.

(** X1: for integer bounds in order, neither beyond [2^53] in magnitude and
    less than [2^53] apart, [getRandomInt] returns an integer between them,
    both included, after exactly one call of [Math.random()], and prints
    nothing. *)
Theorem getRandomInt_within_bounds (min max : Z) (w w' : World) (r : thrown + Z) :
  - two53 <= min -> min <= max -> max <= two53 ->
  max - min < two53 ->
  getRandomInt min max w = (r, w') ->
  exists z, r = inr z /\ min <= z <= max
            /\ random_calls w' = S (random_calls w) /\ console w' = console w.
Proof.
  intros Hmin Hle Hmax Hspan Hrun.
  assert (Hcon : console w' = console w).
  { rewrite getRandomInt_exact in Hrun by trivial. now injection Hrun as <- <-. }
  apply getRandomInt_spec in Hrun as (z & -> & Hz & Hc); trivial.
  now exists z.
Qed.

Lemma getRandomInt_within_bounds_witness :
  exists z, fst (getRandomInt 0 5 start) = inr z /\ 0 <= z <= 5
            /\ random_calls (snd (getRandomInt 0 5 start)) = S (random_calls start)
            /\ console (snd (getRandomInt 0 5 start)) = console start.
Proof.
  apply (getRandomInt_within_bounds 0 5 start (snd (getRandomInt 0 5 start))
           (fst (getRandomInt 0 5 start))).
  - unfold two53. lia.
  - lia.
  - unfold two53. lia.
  - unfold two53. lia.
  - vm_compute. reflexivity.
Defined.

Lemma floor_times_reaches (m z : Z) :
  0 <= z < m -> m <= 2 ^ 26 ->
  exists k, 0 <= k < two53 /\ floor_times k m = z.
Proof.
  intros Hz Hm. change (2 ^ 26) with 67108864 in Hm.
  set (c := (z * 67108864 + m - 1) / m).
  assert (Hc : z * 67108864 <= c * m < z * 67108864 + m).
  { pose proof (Z.div_mod (z * 67108864 + m - 1) m ltac:(lia)) as Hdm.
    pose proof (Z.mod_pos_bound (z * 67108864 + m - 1) m ltac:(lia)) as Hr.
    fold c in Hdm. nia. }
  assert (Hc0 : 0 <= c < 67108864) by nia.
  exists (c * 2 ^ 27). split; [change (2 ^ 27) with 134217728; unfold two53; lia|].
  unfold floor_times, to_double.
  assert (Hcm : 0 <= c * m < two53) by (unfold two53; nia).
  replace (c * 2 ^ 27 * m) with (c * m * 2 ^ 27) by ring.
  destruct (Z.eq_dec (c * m) 0) as [E|E].
  - rewrite E. cbn. nia.
  - rewrite Z.abs_eq, Z.sgn_pos, Z.mul_1_l by nia.
    rewrite nearest53_scaled by (trivial; lia).
    change two53 with (67108864 * 2 ^ 27).
    rewrite Z.div_mul_cancel_r by (try discriminate; lia).
    symmetry. apply (Z.div_unique _ _ z (c * m - z * 67108864)); lia.
Qed.

(** X2: every integer between the bounds is a possible result of
    [getRandomInt]: for integer bounds that are not beyond [2^53] in
    magnitude and less than [2^26] apart, and any value between them, there
    is a random source on which the call returns that value, the rounding of
    the product included. *)
Theorem getRandomInt_reaches_every_value (min max z : Z) (w : World) :
  - two53 <= min -> max <= two53 ->
  min <= z <= max ->
  max - min < 2 ^ 26 ->
  exists source,
    fst (getRandomInt min max
           {| random_source := source; random_calls := random_calls w;
              console := console w |})
    = inr z.
Proof.
  intros Hmin Hmax Hz Hwide. change (2 ^ 26) with 67108864 in Hwide.
  destruct (floor_times_reaches (max - min + 1) (z - min)) as (k & Hk & Hfloor);
    [lia | change (2 ^ 26) with 67108864; lia |].
  exists (fun _ => k).
  rewrite getRandomInt_exact by (trivial; unfold two53; lia).
  cbn [random_source random_calls fst].
  rewrite (Z.mod_small k two53 Hk), Hfloor. f_equal. lia.
Qed.

Lemma getRandomInt_reaches_every_value_witness :
  exists source,
    fst (getRandomInt 0 5
           {| random_source := source; random_calls := random_calls start;
              console := console start |})
    = inr 3.
Proof.
  apply (getRandomInt_reaches_every_value 0 5 3 start).
  - unfold two53. lia.
  - unfold two53. lia.
  - lia.
  - reflexivity.
Defined.

(** X3: [selectRandomItems] never throws and returns a selection without
    repetition: the result followed by some rest is a rearrangement of the
    items, and the result has [count] items, or all of them when [count] is
    larger, or none when [count] is not positive.  It prints nothing, and
    calls [Math.random()] once per item when [count] is positive and not at
    all otherwise. *)
Theorem selectRandomItems_selects {T} (items : list T) (count : Z) (w w' : World)
    (r : thrown + list T) :
  selectRandomItems items count w = (r, w') ->
  exists result rest,
    r = inr result
    /\ Permutation items (result ++ rest)
    /\ len result = Z.max 0 (Z.min count (len items))
    /\ console w' = console w
    /\ random_calls w'
       = (random_calls w + if (count <=? 0)%Z then 0 else List.length items)%nat.
Proof.
  intros Hrun. destruct (selectRandomItems_effects _ _ _ _ _ Hrun) as [Hcon Hcalls].
  apply selectRandomItems_spec in Hrun as (result & rest & -> & Hperm & Hlen).
  now exists result, rest.
Qed.

Lemma selectRandomItems_selects_witness :
  exists result rest,
    fst (selectRandomItems boundary_charities 4 start) = inr result
    /\ Permutation boundary_charities (result ++ rest)
    /\ len result = Z.max 0 (Z.min 4 (len boundary_charities))
    /\ console (snd (selectRandomItems boundary_charities 4 start)) = console start
    /\ random_calls (snd (selectRandomItems boundary_charities 4 start))
       = (random_calls start + if (4 <=? 0)%Z then 0 else List.length boundary_charities)%nat.
Proof.
  apply (selectRandomItems_selects boundary_charities 4 start
           (snd (selectRandomItems boundary_charities 4 start))
           (fst (selectRandomItems boundary_charities 4 start))).
  vm_compute. reflexivity.
Defined.

(** ** The tailoring rules *)

(** X4: the loop that splits the minimum of a rule between the two pools
    (lines 82-98), started at nothing taken, never takes more from a pool
    than its maximum, and takes [turns] items in all unless both pools are
    exhausted before; it prints nothing. *)
Theorem distribute_splits (turns : nat) (maxFromState maxFromNational : Z)
    (w w' : World) (r : thrown + Z * Z) :
  0 <= maxFromState -> 0 <= maxFromNational ->
  distribute turns maxFromState maxFromNational 0 0 w = (r, w') ->
  exists fromState fromNational,
    r = inr (fromState, fromNational)
    /\ 0 <= fromState <= maxFromState
    /\ 0 <= fromNational <= maxFromNational
    /\ fromState + fromNational = Z.min (Z.of_nat turns) (maxFromState + maxFromNational)
    /\ console w' = console w.
Proof.
  intros HS HN Hrun. destruct (distribute_console _ _ _ _ _ _ _ _ Hrun) as [Hcon _].
  apply distribute_spec in Hrun as (fS & fN & -> & H1 & H2 & H3); trivial.
  exists fS, fN. repeat split; trivial; lia.
Qed.

Lemma distribute_splits_witness :
  exists fromState fromNational,
    fst (distribute 4 1 5 0 0 start) = inr (fromState, fromNational)
    /\ 0 <= fromState <= 1
    /\ 0 <= fromNational <= 5
    /\ fromState + fromNational = Z.min (Z.of_nat 4) (1 + 5)
    /\ console (snd (distribute 4 1 5 0 0 start)) = console start.
Proof.
  apply (distribute_splits 4 1 5 start (snd (distribute 4 1 5 0 0 start))
           (fst (distribute 4 1 5 0 0 start))).
  - lia.
  - lia.
  - vm_compute. reflexivity.
Defined.

Lemma distribute_constant_source (coin : Z) (turns : nat) :
  forall (maxFromState maxFromNational fromState fromNational : Z) (w : World),
    (forall i, random_source w i = coin) -> 0 <= coin < two53 ->
    fromState <= maxFromState -> fromNational <= maxFromNational ->
    fst (distribute turns maxFromState maxFromNational fromState fromNational w)
    = inr (if below_half coin
           then (let a := Z.min (Z.of_nat turns) (maxFromState - fromState) in
                 (fromState + a,
                  fromNational + Z.min (Z.of_nat turns - a) (maxFromNational - fromNational)))
           else (let b := Z.min (Z.of_nat turns) (maxFromNational - fromNational) in
                 (fromState + Z.min (Z.of_nat turns - b) (maxFromState - fromState),
                  fromNational + b))).
Proof.
  induction turns as [|turns IH]; intros mS mN fS fN w Hsrc Hcoin HS HN.
  - cbn [distribute]. unfold ret. cbn [fst]. destruct (below_half coin); cbv zeta;
      f_equal; f_equal; lia.
  - cbn [distribute].
    destruct (fS <? mS) eqn:ES; destruct (fN <? mN) eqn:EN; cbn [andb]; decided.
    + unfold bind, Math_random. rewrite Hsrc, (Z.mod_small coin two53 Hcoin).
      destruct (below_half coin) eqn:Ecoin;
        (rewrite IH; [|intros i; cbn [random_source]; apply Hsrc|trivial|lia|lia]);
        cbv zeta; f_equal; f_equal; lia.
    + rewrite IH; trivial; try lia.
      destruct (below_half coin); cbv zeta; f_equal; f_equal; lia.
    + rewrite IH; trivial; try lia.
      destruct (below_half coin); cbv zeta; f_equal; f_equal; lia.
    + rewrite IH; trivial; try lia.
      destruct (below_half coin); cbv zeta; f_equal; f_equal; lia.
Qed.

(** X5: the split can favour either pool: on a random source that always
    gives 0 the loop of lines 82-98 takes from the state pool first, as many
    as it may, and on one that always gives 1/2 it takes from the national
    pool first. *)
Theorem distribute_can_favour_either (turns : nat) (maxFromState maxFromNational : Z)
    (low high : World) :
  0 <= maxFromState -> 0 <= maxFromNational ->
  (forall i, random_source low i = 0) ->
  (forall i, random_source high i = two53 / 2) ->
  fst (distribute turns maxFromState maxFromNational 0 0 low)
  = inr (Z.min (Z.of_nat turns) maxFromState,
         Z.min (Z.of_nat turns - Z.min (Z.of_nat turns) maxFromState) maxFromNational)
  /\ fst (distribute turns maxFromState maxFromNational 0 0 high)
     = inr (Z.min (Z.of_nat turns - Z.min (Z.of_nat turns) maxFromNational) maxFromState,
            Z.min (Z.of_nat turns) maxFromNational).
Proof.
  intros HS HN Hlow Hhigh. split.
  - rewrite (distribute_constant_source 0); trivial; [|unfold two53; lia].
    change (below_half 0) with true. cbv zeta iota. f_equal. f_equal; lia.
  - rewrite (distribute_constant_source (two53 / 2)); trivial;
      [|split; [apply Z.leb_le | apply Z.ltb_lt]; reflexivity].
    change (below_half (two53 / 2)) with false. cbv zeta iota. f_equal. f_equal; lia.
Qed.

Lemma distribute_can_favour_either_witness :
  fst (distribute 4 3 6 0 0
         {| random_source := fun _ => 0; random_calls := 0; console := [] |})
  = inr (3, 1)
  /\ fst (distribute 4 3 6 0 0
            {| random_source := fun _ => two53 / 2; random_calls := 0; console := [] |})
     = inr (0, 4).
Proof.
  exact (distribute_can_favour_either 4 3 6
           {| random_source := fun _ => 0; random_calls := 0; console := [] |}
           {| random_source := fun _ => two53 / 2; random_calls := 0; console := [] |}
           ltac:(lia) ltac:(lia) (fun _ => eq_refl) (fun _ => eq_refl)).
Defined.

Lemma taken_by_pet_rule_le (profile : UserProfile.t) (nationalPool statePool : list Charity.t)
    (n0 s0 : Z) :
  let rule := hd {| applies := fun _ => false; getMinCount := fun _ => 0;
                    getCategory := fun _ => "" |} (createTailoringRules tt) in
  let taken := taken_by rule profile nationalPool statePool
                 {| national := []; state := [];
                    remainingNational := n0; remainingState := s0 |} in
  taken <= minAnimalCharitiesIfPets DEFAULT_CONSTRAINTS
  /\ taken <= len (filter is_animal nationalPool) + len (filter is_animal statePool).
Proof.
  cbv zeta. cbn [createTailoringRules hd]. unfold taken_by.
  cbn [getCategory getMinCount national state remainingNational remainingState].
  rewrite !available_animals.
  pose proof (len_nonneg (filter is_animal nationalPool)).
  pose proof (len_nonneg (filter is_animal statePool)).
  cbn [minAnimalCharitiesIfPets DEFAULT_CONSTRAINTS]. lia.
Qed.

(** X6: [applyTailoringRules] never throws.  What it selects comes from
    the two pools it is given, is of category ANIMAL_RELATED and counts at
    most [minAnimalCharitiesIfPets] items in all; what it reports as
    remaining is each target less what was taken from that pool, and is
    never negative.  For a profile without pets it selects nothing, draws no
    number and prints nothing. *)
Theorem applyTailoringRules_accounts (profile : UserProfile.t)
    (nationalPool statePool : list Charity.t) (n0 s0 : Z) (w w' : World)
    (r : thrown + Tailored) :
  0 <= n0 -> 0 <= s0 ->
  applyTailoringRules profile nationalPool statePool n0 s0 w = (r, w') ->
  exists t,
    r = inr t
    /\ incl (national t) nationalPool /\ incl (state t) statePool
    /\ Forall (fun c => is_animal c = true) (national t ++ state t)
    /\ len (national t) + len (state t) <= minAnimalCharitiesIfPets DEFAULT_CONSTRAINTS
    /\ remainingNational t = n0 - len (national t) /\ 0 <= remainingNational t
    /\ remainingState t = s0 - len (state t) /\ 0 <= remainingState t
    /\ (UserProfile.hasPets profile = false ->
        national t = [] /\ state t = [] /\ w' = w).
Proof.
  intros Hn Hs. destruct (UserProfile.hasPets profile) eqn:Hpets.
  - unfold applyTailoringRules, try_catch. cbv zeta.
    cbn [createTailoringRules forRules]. unfold bind.
    pose proof (start_inv nationalPool statePool n0 s0 Hn Hs) as Hinv.
    match goal with
    | |- context [applyRule ?p ?a ?b ?rule ?acc w] =>
        destruct (applyRule p a b rule acc w) as [ra w1] eqn:Ea;
        apply (applyRule_spec _ _ _ _ _ _ _ _ _ _ Hinv) in Ea
          as (acc' & newN & newS & -> & HN & HS & Hinv' & Hcat & Htaken)
    end.
    unfold ret. intros H. injection H as <- <-.
    cbn [applies] in Htaken. specialize (Htaken Hpets).
    pose proof (taken_by_pet_rule_le profile nationalPool statePool n0 s0) as [Hle _].
    cbv zeta in Hle. cbn [createTailoringRules hd] in Hle.
    cbn [national state app] in HN, HS.
    destruct Hinv' as [I1 I2 I3 I4 I5 I6 _ _].
    exists acc'. rewrite HN, HS in *.
    repeat (split; trivial); try lia; try discriminate.
    cbn [getCategory] in Hcat. eapply Forall_impl; [|exact Hcat].
    intros c Hc. unfold of_category in Hc. unfold is_animal. now apply String.eqb_eq.
  - unfold applyTailoringRules, try_catch. cbv zeta.
    cbn [createTailoringRules forRules]. unfold bind, applyRule. cbn [applies].
    rewrite Hpets. cbn [negb]. unfold ret. intros H. injection H as <- <-.
    eexists. split; [reflexivity|].
    cbn [national state remainingNational remainingState app].
    repeat (split; trivial); try (intros c []); try (unfold len; cbn; lia).
Qed.

Lemma applyTailoringRules_accounts_witness :
  exists t,
    fst (applyTailoringRules (profile_of pet_owner)
           (nationalPool exact_animal_charities)
           (statePool (profile_of pet_owner) exact_animal_charities) 10 2 start)
    = inr t
    /\ len (national t) + len (state t) <= minAnimalCharitiesIfPets DEFAULT_CONSTRAINTS
    /\ remainingNational t = 10 - len (national t)
    /\ remainingState t = 2 - len (state t).
Proof.
  destruct (applyTailoringRules_accounts (profile_of pet_owner)
              (nationalPool exact_animal_charities)
              (statePool (profile_of pet_owner) exact_animal_charities) 10 2 start
              (snd (applyTailoringRules (profile_of pet_owner)
                      (nationalPool exact_animal_charities)
                      (statePool (profile_of pet_owner) exact_animal_charities) 10 2 start))
              (fst (applyTailoringRules (profile_of pet_owner)
                      (nationalPool exact_animal_charities)
                      (statePool (profile_of pet_owner) exact_animal_charities) 10 2 start))
              ltac:(lia) ltac:(lia) ltac:(vm_compute; reflexivity))
    as (t & Ht & _ & _ & _ & Hlen & Hn & _ & Hs & _).
  exists t. repeat split; assumption.
Defined.

Lemma applyRule_try_console (profile : UserProfile.t) (nationalPool statePool : list Charity.t)
    (rule : TailoringRule) (acc : Tailored) (w w' : World) (r : thrown + Tailored) :
  applyRule_try profile nationalPool statePool rule acc w = (r, w') ->
  let total := len (available (getCategory rule tt) (national acc) nationalPool)
               + len (available (getCategory rule tt) (state acc) statePool) in
  exists later,
    console w'
    = console w
      ++ (if total <? getMinCount rule profile
          then [ {| entry_level := WARN;
                    entry_text := "Warning: Only " ++ show total ++ " "
                                  ++ getCategory rule tt
                                  ++ " charities available, need "
                                  ++ show (getMinCount rule profile);
                    entry_arg := None |} ]
          else [])
      ++ later
    /\ Forall (fun e => entry_level e = LOG) later.
Proof.
  unfold applyRule_try. cbv zeta.
  set (aN := available (getCategory rule tt) (national acc) nationalPool).
  set (aS := available (getCategory rule tt) (state acc) statePool).
  unfold bind at 1.
  assert (Htail : forall w0 : World,
             (if Z.min (getMinCount rule profile)
                   (Z.min (len aN + len aS) (remainingNational acc + remainingState acc))
                 <=? 0
              then ret acc
              else
                picked <- distribute
                            (Z.to_nat
                               (Z.min (getMinCount rule profile)
                                  (Z.min (len aN + len aS)
                                     (remainingNational acc + remainingState acc))))
                            (Z.min (remainingState acc) (len aS))
                            (Z.min (remainingNational acc) (len aN)) 0 0 ;;
                newStateCharities <- selectRandomItems aS (fst picked) ;;
                newNationalCharities <- selectRandomItems aN (snd picked) ;;
                console_log ("Applied " ++ getCategory rule tt ++ " rule: selected "
                             ++ show (snd picked) ++ " national + " ++ show (fst picked)
                             ++ " state charities") ;;
                ret {| national := national acc ++ newNationalCharities;
                       state := state acc ++ newStateCharities;
                       remainingNational := remainingNational acc - snd picked;
                       remainingState := remainingState acc - fst picked |}) w0 = (r, w') ->
             exists later,
               console w' = console w0 ++ later
               /\ Forall (fun e => entry_level e = LOG) later).
  { intros w0. destruct (_ <=? 0).
    - unfold ret. intros H. injection H as <- <-. exists []. rewrite app_nil_r.
      split; [reflexivity | apply Forall_nil].
    - unfold bind at 1.
      destruct (distribute _ _ _ 0 0 w0) as [rd w2] eqn:Ed.
      apply distribute_console in Ed as [Hc2 (picked & ->)].
      unfold bind at 1.
      destruct (selectRandomItems aS (fst picked) w2) as [rs w3] eqn:Es.
      pose proof (selectRandomItems_effects _ _ _ _ _ Es) as [Hc3 _].
      apply selectRandomItems_spec in Es as (newS & restS & -> & _ & _).
      unfold bind at 1.
      destruct (selectRandomItems aN (snd picked) w3) as [rn w4] eqn:En.
      pose proof (selectRandomItems_effects _ _ _ _ _ En) as [Hc4 _].
      apply selectRandomItems_spec in En as (newN & restN & -> & _ & _).
      plumbing. intros H. injection H as <- <-. cbn [console].
      eexists. split; [rewrite Hc4, Hc3, Hc2; reflexivity|].
      apply Forall_cons; [reflexivity | apply Forall_nil]. }
  destruct (len aN + len aS <? getMinCount rule profile);
    unfold console_warn, console_print, ret at 1; cbv beta iota;
    intros H; apply Htail in H as (later & Hcon & Hlog); cbn [console] in Hcon;
    exists later; (split; [|exact Hlog]); rewrite Hcon, <- ?app_assoc; reflexivity.
Qed.

(** X7: when the profile has pets and the two pools hold fewer than
    [minAnimalCharitiesIfPets] ANIMAL_RELATED charities between them,
    [applyTailoringRules] does not fail: it prints the warning that gives
    the number available and the number needed, then at most log lines, and
    selects no more items than are available. *)
Theorem tailoring_warns_on_shortfall (profile : UserProfile.t)
    (nationalPool statePool : list Charity.t) (n0 s0 : Z) (w w' : World)
    (r : thrown + Tailored) :
  UserProfile.hasPets profile = true ->
  len (filter is_animal nationalPool) + len (filter is_animal statePool)
  < minAnimalCharitiesIfPets DEFAULT_CONSTRAINTS ->
  0 <= n0 -> 0 <= s0 ->
  applyTailoringRules profile nationalPool statePool n0 s0 w = (r, w') ->
  exists t later,
    r = inr t
    /\ console w'
       = console w
         ++ {| entry_level := WARN;
               entry_text :=
                 "Warning: Only "
                 ++ show (len (filter is_animal nationalPool)
                          + len (filter is_animal statePool))
                 ++ " ANIMAL_RELATED charities available, need "
                 ++ show (minAnimalCharitiesIfPets DEFAULT_CONSTRAINTS);
               entry_arg := None |} :: later
    /\ Forall (fun e => entry_level e = LOG) later
    /\ len (national t) + len (state t)
       <= len (filter is_animal nationalPool) + len (filter is_animal statePool).
Proof.
  intros Hpets Hshort Hn Hs.
  unfold applyTailoringRules, try_catch. cbv zeta.
  cbn [createTailoringRules forRules]. unfold bind, applyRule. cbn [applies].
  rewrite Hpets. cbn [negb]. unfold try_catch.
  pose proof (start_inv nationalPool statePool n0 s0 Hn Hs) as Hinv.
  match goal with
  | |- context [applyRule_try ?p ?a ?b ?rule ?acc w] =>
      destruct (applyRule_try p a b rule acc w) as [ra w1] eqn:Ea;
      pose proof (applyRule_try_console _ _ _ _ _ _ _ _ Ea) as Hcon;
      apply (applyRule_try_spec _ _ _ _ _ _ _ _ _ _ Hinv) in Ea
        as (acc' & newN & newS & -> & HN & HS & _ & _ & Htaken)
  end.
  unfold ret. intros H. injection H as <- <-.
  cbv zeta in Hcon. cbn [getCategory getMinCount national state] in Hcon.
  rewrite !available_animals in Hcon.
  apply Z.ltb_lt in Hshort. rewrite Hshort in Hcon. destruct Hcon as (later & Hcon & Hlog).
  exists acc', later. split; [reflexivity|]. split; [exact Hcon|]. split; [exact Hlog|].
  pose proof (taken_by_pet_rule_le profile nationalPool statePool n0 s0) as [_ Hle].
  cbv zeta in Hle. cbn [createTailoringRules hd] in Hle.
  cbn [national state app] in HN, HS. rewrite HN, HS. lia.
Qed.

Lemma tailoring_warns_on_shortfall_witness :
  exists t later,
    fst (applyTailoringRules (profile_of pet_owner)
           (nationalPool only_state_charities)
           (statePool (profile_of pet_owner) only_state_charities) 7 5 start)
    = inr t
    /\ console (snd (applyTailoringRules (profile_of pet_owner)
                       (nationalPool only_state_charities)
                       (statePool (profile_of pet_owner) only_state_charities) 7 5 start))
       = console start
         ++ {| entry_level := WARN;
               entry_text :=
                 "Warning: Only "
                 ++ show (len (filter is_animal (nationalPool only_state_charities))
                          + len (filter is_animal
                                   (statePool (profile_of pet_owner) only_state_charities)))
                 ++ " ANIMAL_RELATED charities available, need "
                 ++ show (minAnimalCharitiesIfPets DEFAULT_CONSTRAINTS);
               entry_arg := None |} :: later
    /\ Forall (fun e => entry_level e = LOG) later
    /\ len (national t) + len (state t)
       <= len (filter is_animal (nationalPool only_state_charities))
          + len (filter is_animal (statePool (profile_of pet_owner) only_state_charities)).
Proof.
  apply (tailoring_warns_on_shortfall (profile_of pet_owner)
           (nationalPool only_state_charities)
           (statePool (profile_of pet_owner) only_state_charities) 7 5 start).
  - reflexivity.
  - apply Z.ltb_lt. vm_compute. reflexivity.
  - lia.
  - lia.
  - vm_compute. reflexivity.
Defined.

(** ** Reading the input *)






Lemma truthy_true (s : string) : truthy s = true <-> s <> "".
Proof.
  unfold truthy. destruct (String.eqb_spec s ""); cbn [negb]; split; congruence.
Qed.

Lemma truthy_false (s : string) : truthy s = false <-> s = "".
Proof.
  unfold truthy. destruct (String.eqb_spec s ""); cbn [negb]; split; congruence.
Qed.

(** X9: [parseUserProfile] succeeds exactly when [id], [name] and [state]
    are all non-empty: it then returns a profile with these three fields as
    they are, and touches neither the console nor the random source.
    Otherwise it logs the error once and throws "Failed to parse user
    profile: Profile missing required fields (id, name, state)". *)
Theorem parseUserProfile_requires_fields (rawProfile : RawUserProfile.t) (w w' : World)
    (r : thrown + UserProfile.t) :
  parseUserProfile rawProfile w = (r, w') ->
  (RawUserProfile.id rawProfile <> "" /\ RawUserProfile.name rawProfile <> ""
   /\ RawUserProfile.state rawProfile <> ""
   /\ w' = w
   /\ exists profile,
       r = inr profile
       /\ UserProfile.id profile = RawUserProfile.id rawProfile
       /\ UserProfile.name profile = RawUserProfile.name rawProfile
       /\ UserProfile.state profile = RawUserProfile.state rawProfile)
  \/ ((RawUserProfile.id rawProfile = "" \/ RawUserProfile.name rawProfile = ""
       \/ RawUserProfile.state rawProfile = "")
      /\ r = inl (JsError "Failed to parse user profile: Profile missing required fields (id, name, state)")
      /\ random_calls w' = random_calls w
      /\ console w'
         = console w
           ++ [ {| entry_level := ERROR;
                   entry_text := "Error parsing user profile:";
                   entry_arg :=
                     Some (ArgThrown
                             (JsError "Profile missing required fields (id, name, state)")) |} ]).
Proof.
  unfold parseUserProfile.
  destruct (truthy (RawUserProfile.id rawProfile)) eqn:Ei;
    [destruct (truthy (RawUserProfile.name rawProfile)) eqn:En;
     [destruct (truthy (RawUserProfile.state rawProfile)) eqn:Es|]|];
    cbn [negb orb]; plumbing; intros H; injection H as <- <-.
  - left. apply truthy_true in Ei, En, Es. repeat (split; trivial).
    eexists. split; [reflexivity|]. now repeat split.
  - right. apply truthy_false in Es. split; [now right; right|]. now repeat split.
  - right. apply truthy_false in En. split; [now right; left|]. now repeat split.
  - right. apply truthy_false in Ei. split; [now left|]. now repeat split.
Qed.

Lemma parseUserProfile_requires_fields_witness :
  exists profile,
    fst (parseUserProfile pet_owner start) = inr profile
    /\ UserProfile.id profile = RawUserProfile.id pet_owner
    /\ UserProfile.name profile = RawUserProfile.name pet_owner
    /\ UserProfile.state profile = RawUserProfile.state pet_owner.
Proof.
  destruct (parseUserProfile_requires_fields pet_owner start
              (snd (parseUserProfile pet_owner start))
              (fst (parseUserProfile pet_owner start)) ltac:(vm_compute; reflexivity))
    as [(_ & _ & _ & _ & Hp) | (_ & Hr & _)].
  - exact Hp.
  - discriminate Hr.
Defined.

Lemma value_acc_pos (d : Decimal.uint) :
  forall acc : positive, value_acc d (Z.pos acc) = Z.pos (Pos.of_uint_acc d acc).
Proof.
  induction d; intros acc; cbn [value_acc Pos.of_uint_acc]; trivial;
    rewrite <- IHd; f_equal; lia.
Qed.

Lemma value_acc_of_uint (d : Decimal.uint) : value_acc d 0 = Z.of_N (Pos.of_uint d).
Proof.
  induction d; cbn [value_acc Pos.of_uint Z.of_N]; trivial;
    first [ exact IHd
          | exact (value_acc_pos d 1) | exact (value_acc_pos d 2)
          | exact (value_acc_pos d 3) | exact (value_acc_pos d 4)
          | exact (value_acc_pos d 5) | exact (value_acc_pos d 6)
          | exact (value_acc_pos d 7) | exact (value_acc_pos d 8)
          | exact (value_acc_pos d 9) ].
Qed.

Lemma digits_of_numeral (d : Decimal.uint) :
  forall a : Z, digits (Some a) (NilEmpty.string_of_uint d) = Some (value_acc d a).
Proof.
  induction d; intros a; cbn [NilEmpty.string_of_uint digits value_acc]; trivial;
    match goal with
    | |- context [digit_of ?c] =>
        let v := eval vm_compute in (digit_of c) in change (digit_of c) with v
    end;
    cbv beta iota; rewrite IHd; f_equal; f_equal; lia.
Qed.

Lemma digits_of_pos (p : positive) :
  digits None (NilEmpty.string_of_uint (Pos.to_uint p)) = Some (Z.pos p).
Proof.
  pose proof (Unsigned.to_uint_nonnil p) as Hnil.
  pose proof (Unsigned.of_to p) as Hof.
  pose proof (value_acc_of_uint (Pos.to_uint p)) as Hval. rewrite Hof in Hval.
  cbn [Z.of_N] in Hval. rewrite <- Hval.
  destruct (Pos.to_uint p) as [|d|d|d|d|d|d|d|d|d|d]; [now elim Hnil|..];
    cbn [NilEmpty.string_of_uint digits value_acc];
    match goal with
    | |- context [digit_of ?c] =>
        let v := eval vm_compute in (digit_of c) in change (digit_of c) with v
    end;
    cbv beta iota; rewrite digits_of_numeral; reflexivity.
Qed.

Lemma skip_spaces_plain (c : ascii) (s : string) :
  is_space c = false -> (nat_of_ascii c < 194)%nat ->
  skip_spaces (String c s) = String c s.
Proof.
  intros Hs Hc. cbn [skip_spaces]. rewrite Hs.
  assert (H2 : forall c2, is_space2 c c2 = false).
  { intros c2. unfold is_space2. destruct (Nat.eqb_spec (nat_of_ascii c) 194); [lia|reflexivity]. }
  assert (H3 : forall c2 c3, is_space3 c c2 c3 = false).
  { intros c2 c3. unfold is_space3. cbv zeta.
    destruct (Nat.eqb_spec (nat_of_ascii c) 225); [lia|].
    destruct (Nat.eqb_spec (nat_of_ascii c) 226); [lia|].
    destruct (Nat.eqb_spec (nat_of_ascii c) 227); [lia|].
    destruct (Nat.eqb_spec (nat_of_ascii c) 239); [lia|]. reflexivity. }
  destruct s as [|c2 [|c3 s3]]; rewrite ?H2, ?H3; reflexivity.
Qed.

Lemma mathInt_show (z : Z) : mathInt (show z) = Some z.
Proof.
  unfold show. destruct z as [|p|p]; [reflexivity|..]; cbn [Z.to_int NilZero.string_of_int].
  - pose proof (digits_of_pos p) as Hd. pose proof (Unsigned.to_uint_nonnil p) as Hnil.
    unfold NilZero.string_of_uint.
    destruct (Pos.to_uint p) as [|d|d|d|d|d|d|d|d|d|d]; [now elim Hnil|..];
      unfold mathInt; cbn [NilEmpty.string_of_uint] in *;
      rewrite skip_spaces_plain by (vm_compute; trivial; lia); exact Hd.
  - pose proof (digits_of_pos p) as Hd. pose proof (Unsigned.to_uint_nonnil p) as Hnil.
    unfold NilZero.string_of_uint.
    destruct (Pos.to_uint p) as [|d|d|d|d|d|d|d|d|d|d]; [now elim Hnil|..];
      unfold mathInt; rewrite skip_spaces_plain by (vm_compute; trivial; lia);
      cbv iota; rewrite Hd; reflexivity.
Qed.

Lemma to_double_abs (n : Z) : Z.abs (to_double n) <= 2 * Z.abs n.
Proof.
  unfold to_double. destruct (nearest53_bounds (Z.abs n) (Z.abs_nonneg n)) as [Hlow Hup].
  rewrite Z.abs_mul, (Z.abs_eq (nearest53 (Z.abs n)) Hlow).
  pose proof (Z.sgn_spec n) as Hs. unfold two53 in Hup. nia.
Qed.

Lemma int_or_zero_show (z : Z) :
  Z.abs z < 10 ^ 20 -> int_or_zero (show z) = Finite (to_double z).
Proof.
  intros Hz. unfold int_or_zero, parseInt10. rewrite mathInt_show. cbn [option_map].
  unfold number_of. cbv zeta.
  pose proof (to_double_abs z) as Habs.
  assert (Hfin : (Z.abs (to_double z) <? 2 ^ 1024) = true).
  { apply Z.ltb_lt. apply Z.le_lt_trans with (2 * 10 ^ 20 - 1); [lia|]. reflexivity. }
  rewrite Hfin. destruct (Z.eqb_spec (to_double z) 0) as [->|_]; reflexivity.
Qed.

(** X10: the age of a profile is read back from its decimal numeral.  When
    the [age] column is an integer of at most 20 digits, as a template
    string prints it, [parseUserProfile] gives the double nearest to that
    integer as the age, which is the integer itself up to [2^53] in
    magnitude.  An [age] column that is empty, or that starts with an ASCII
    letter (a byte from "A" to "z"), gives the age 0. *)
Theorem age_is_read_back (rawProfile : RawUserProfile.t) (z : Z) (w w' : World)
    (profile : UserProfile.t) :
  parseUserProfile rawProfile w = (inr profile, w') ->
  (RawUserProfile.age rawProfile = show z -> Z.abs z < 10 ^ 20 ->
   UserProfile.age profile = Finite (to_double z))
  /\ (RawUserProfile.age rawProfile = show z -> - two53 <= z <= two53 ->
      UserProfile.age profile = Finite z)
  /\ (RawUserProfile.age rawProfile = "" -> UserProfile.age profile = Finite 0)
  /\ (forall c rest,
         RawUserProfile.age rawProfile = String c rest ->
         (65 <= nat_of_ascii c <= 122)%nat ->
         UserProfile.age profile = Finite 0).
Proof.
  intros Hrun. apply parseUserProfile_spec in Hrun as [_ Hr].
  destruct (profile_ok rawProfile); [|discriminate]. injection Hr as ->.
  unfold profile_of. cbn [UserProfile.age]. repeat split.
  - intros -> Hz. now apply int_or_zero_show.
  - intros -> Hz. rewrite int_or_zero_show, to_double_exact; trivial.
    change (10 ^ 20) with 100000000000000000000. unfold two53 in Hz. lia.
  - intros ->. reflexivity.
  - intros c rest -> Hc. unfold int_or_zero, parseInt10, mathInt.
    assert (Hsp : is_space c = false).
    { unfold is_space.
      destruct (Nat.eqb_spec (nat_of_ascii c) 32); [lia|].
      destruct (Nat.leb_spec (nat_of_ascii c) 13); [lia|].
      now rewrite andb_false_r. }
    assert (Hdig : digit_of c = None).
    { unfold digit_of. destruct (Nat.leb_spec (nat_of_ascii c) 57); [lia|].
      now rewrite andb_false_r. }
    rewrite skip_spaces_plain by (trivial; lia).
    destruct c as [b0 b1 b2 b3 b4 b5 b6 b7].
    destruct b0, b1, b2, b3, b4, b5, b6, b7;
      try (exfalso; cbn in Hc; lia);
      cbn [digits]; rewrite Hdig; reflexivity.
Qed.

Lemma age_is_read_back_witness :
  UserProfile.age (profile_of aged_owner) = Finite 9007199254740992
  /\ UserProfile.age (profile_of pet_owner) = Finite 35.
Proof.
  split.
  - destruct (age_is_read_back aged_owner 9007199254740993 start start
                (profile_of aged_owner)) as (Hnearest & _).
    + vm_compute. reflexivity.
    + apply Hnearest; reflexivity.
  - destruct (age_is_read_back pet_owner 35 start start (profile_of pet_owner))
      as (_ & Hexact & _).
    + vm_compute. reflexivity.
    + apply Hexact; [reflexivity | unfold two53; lia].
Defined.

Lemma includes_featured (featured : string) :
  includes ["NATIONAL"; "STATE"; ""] featured = true
  <-> featured = "NATIONAL" \/ featured = "STATE" \/ featured = "".
Proof.
  unfold includes. cbn [existsb]. rewrite !orb_true_iff, !String.eqb_eq.
  intuition congruence.
Qed.

(** X11: [validateCharity] never throws and calls no random number.  It
    answers [true], printing nothing, exactly for a charity with a non-empty
    [id] and [name], a [featured] that is NATIONAL, STATE or empty, and a
    non-empty [state] when it is featured for a state; for any other charity
    it answers [false] and prints one error with the charity. *)
Theorem validateCharity_accepts_exactly (charity : Charity.t) (w w' : World)
    (r : thrown + bool) :
  validateCharity charity w = (r, w') ->
  random_calls w' = random_calls w
  /\ ((r = inr true /\ w' = w
       /\ Charity.id charity <> "" /\ Charity.name charity <> ""
       /\ (Charity.featured charity = "NATIONAL" \/ Charity.featured charity = "STATE"
           \/ Charity.featured charity = "")
       /\ (Charity.featured charity = "STATE" -> Charity.state charity <> ""))
      \/ (r = inr false
          /\ (Charity.id charity = "" \/ Charity.name charity = ""
              \/ ~ (Charity.featured charity = "NATIONAL"
                    \/ Charity.featured charity = "STATE"
                    \/ Charity.featured charity = "")
              \/ (Charity.featured charity = "STATE" /\ Charity.state charity = ""))
          /\ exists text,
              console w'
              = console w
                ++ [ {| entry_level := ERROR; entry_text := text;
                        entry_arg := Some (ArgCharity charity) |} ])).
Proof.
  unfold validateCharity.
  destruct (truthy (Charity.id charity)) eqn:Ei; cbn [negb orb];
    [destruct (truthy (Charity.name charity)) eqn:En; cbn [negb orb]|].
  - destruct (includes ["NATIONAL"; "STATE"; ""] (Charity.featured charity)) eqn:Ef;
      cbn [negb].
    + rewrite andb_false_r.
      destruct (Charity.featured charity =? "STATE")%string eqn:Es; cbn [andb].
      * destruct (truthy (Charity.state charity)) eqn:Et; cbn [negb];
          plumbing; intros H; injection H as <- <-; (split; [reflexivity|]).
        -- left. apply truthy_true in Ei, En, Et. apply includes_featured in Ef.
           now repeat split.
        -- right. apply truthy_false in Et. apply String.eqb_eq in Es.
           split; [reflexivity|]. split; [now right; right; right|]. now eexists.
      * plumbing. intros H. injection H as <- <-. split; [reflexivity|]. left.
        apply truthy_true in Ei, En. apply includes_featured in Ef.
        apply String.eqb_neq in Es. now repeat split.
    + rewrite andb_true_r.
      destruct (truthy (Charity.featured charity)) eqn:Et.
      * plumbing. intros H. injection H as <- <-. split; [reflexivity|]. right.
        split; [reflexivity|]. split; [|now eexists]. right. right. left.
        intros Hin. apply includes_featured in Hin. congruence.
      * apply truthy_false in Et. exfalso.
        assert (Hin : includes ["NATIONAL"; "STATE"; ""] (Charity.featured charity) = true)
          by (apply includes_featured; now right; right).
        congruence.
  - plumbing. intros H. injection H as <- <-. split; [reflexivity|]. right.
    apply truthy_false in En. split; [reflexivity|]. split; [now right; left | now eexists].
  - plumbing. intros H. injection H as <- <-. split; [reflexivity|]. right.
    apply truthy_false in Ei. split; [reflexivity|]. split; [now left | now eexists].
Qed.

Lemma validateCharity_accepts_exactly_witness :
  random_calls (snd (validateCharity (row 1 "OTHER" "STATE" "") start)) = random_calls start
  /\ fst (validateCharity (row 1 "OTHER" "STATE" "") start) = inr false.
Proof.
  destruct (validateCharity_accepts_exactly (row 1 "OTHER" "STATE" "") start
              (snd (validateCharity (row 1 "OTHER" "STATE" "") start))
              (fst (validateCharity (row 1 "OTHER" "STATE" "") start))
              ltac:(vm_compute; reflexivity))
    as [Hc [(_ & _ & _ & _ & _ & Hstate) | (Hr & _)]].
  - now elim Hstate.
  - now split.
Defined.

(** ** The whole call, further *)

Lemma readCsvFile_other_text {T} (path : string) (f : file T) (w w' : World)
    (error : thrown) :
  readCsvFile path f w = (inl error, w') ->
  error <> JsError "No user profile found in profile CSV".
Proof.
  unfold readCsvFile.
  destruct f as [| | |rows|m|e]; try (destruct (len rows =? 0));
    plumbing; intros H; apply pair_equal_spec in H as [H _]; try discriminate H;
    injection H as <-; intros Hne; cbn [append] in Hne; discriminate Hne.
Qed.

Lemma loadInputs_other_text (charitiesPath profilePath : string)
    (charitiesFile : file Charity.t) (profileFile : file RawUserProfile.t)
    (w w' : World) (error : thrown) :
  loadInputs charitiesPath profilePath charitiesFile profileFile w = (inl error, w') ->
  error <> JsError "No user profile found in profile CSV".
Proof.
  unfold loadInputs. plumbing.
  destruct (readCsvFile charitiesPath charitiesFile _) as [[e1|raw] w1] eqn:E1.
  { intros H. injection H as <- <-. exact (readCsvFile_other_text _ _ _ _ _ E1). }
  destruct (readCsvFile profilePath profileFile w1) as [[e2|profiles] w2] eqn:E2.
  { intros H. injection H as <- <-. exact (readCsvFile_other_text _ _ _ _ _ E2). }
  apply readCsvFile_spec in E2 as [_ [(rows & Hr & [_ Hne]) | (m & Hr & _)]];
    [|discriminate].
  injection Hr as ->.
  destruct rows as [|first others]; [now elim Hne|].
  destruct (parseUserProfile first w2) as [r3 w3] eqn:E3.
  apply parseUserProfile_spec in E3 as [_ ->].
  destruct (profile_ok first); [|intros H; injection H as <- <-; discriminate].
  destruct (filterM validateCharity raw _) as [r4 w4] eqn:E4.
  apply filterM_validateCharity in E4 as [-> _].
  destruct (len (filter is_valid raw) <? totalCharities DEFAULT_CONSTRAINTS);
    intros H; [|discriminate].
  injection H as <- <-. intros Hne'. unfold insufficient_charities in Hne'.
  cbn [append] in Hne'. discriminate Hne'.
Qed.

Lemma try_failure_origin (charitiesPath profilePath : string)
    (charitiesFile : file Charity.t) (profileFile : file RawUserProfile.t)
    (w w' : World) (error : thrown) :
  selectCharities_try charitiesPath profilePath charitiesFile profileFile w
  = (inl error, w') ->
  loadInputs charitiesPath profilePath charitiesFile profileFile w = (inl error, w')
  \/ (exists a b c, error = JsError (insufficient_total a b c))
  \/ (exists x y, error = JsError (count_mismatch x y)).
Proof.
  intros Htry. pose proof Htry as Hcases. revert Htry.
  unfold selectCharities_try, planning, bind.
  destruct (loadInputs charitiesPath profilePath charitiesFile profileFile w)
    as [[e0|loaded_pair] w1] eqn:El.
  { intros H. injection H as <- <-. now left. }
  intros _. right.
  apply selectCharities_try_cases in Hcases
    as [(m & Hm & _ & _ & Hc & Hsame)
       | [(raw & first & _ & _ & _ & Hm & _)
         | (raw & first & plan & fN & fS & _ & _ & _ & _ & Hres)]].
  - exfalso. apply loadInputs_cases in El
      as [_ [(raw & first & others & Hl1 & Hl2 & Hok & Hv & _) | (m' & Hr & _)]];
      [|discriminate].
    assert (Hgood : good_inputs charitiesFile profileFile raw first).
    { split; [exact Hl1|]. split; [now exists others | exact Hok]. }
    destruct (Hsame raw first Hgood) as [Hlt _]. lia.
  - left. injection Hm as ->. now eexists _, _, _.
  - right. destruct (len fN + len fS =? expectedCount plan).
    + destruct Hres as (result & Hr & _). discriminate.
    + injection Hres as ->. now eexists _, _.
Qed.

(** X12: the error "No user profile found in profile CSV" of line 130 is
    never raised: a profile file without rows is rejected by [readCsvFile]
    before the test of line 129 is reached, so no call of [selectCharities]
    fails with that message. *)
Theorem no_profile_error_unreachable (charitiesPath profilePath : string)
    (charitiesFile : file Charity.t) (profileFile : file RawUserProfile.t)
    (w w' : World) (error : thrown) :
  selectCharities charitiesPath profilePath charitiesFile profileFile w = (inl error, w') ->
  error <> JsError (selection_failed "No user profile found in profile CSV").
Proof.
  intros Hrun He. subst error.
  apply selectCharities_wraps in Hrun as (r0 & w0 & Htry & _ & Hr).
  destruct r0 as [inner|result]; [|discriminate].
  symmetry in Hr. apply wrapped_inj in Hr.
  apply try_failure_origin in Htry as [Hload | [(a & b & c & ->) | (x & y & ->)]].
  - apply loadInputs_other_text in Hload. apply Hload.
    destruct inner as [m|]; cbn [message_of] in Hr; [now subst m | discriminate Hr].
  - cbn [message_of] in Hr. unfold insufficient_total in Hr. cbn [append] in Hr.
    discriminate Hr.
  - cbn [message_of] in Hr. unfold count_mismatch in Hr. cbn [append] in Hr.
    discriminate Hr.
Qed.

Lemma no_profile_error_unreachable_witness :
  fst (selectCharities "charities.csv" "profile.csv" (Content boundary_charities)
         (Content []) start)
  = inl (JsError (selection_failed "No valid data found in CSV file: profile.csv"))
  /\ JsError (selection_failed "No valid data found in CSV file: profile.csv")
     <> JsError (selection_failed "No user profile found in profile CSV").
Proof.
  split; [vm_compute; reflexivity|].
  apply (no_profile_error_unreachable "charities.csv" "profile.csv"
           (Content boundary_charities) (Content []) start
           (snd (selectCharities "charities.csv" "profile.csv" (Content boundary_charities)
                   (Content []) start))).
  vm_compute. reflexivity.
Defined.

Lemma filter_national_pool (raw from : list Charity.t) :
  incl from (nationalPool raw) ->
  filter is_national from = from
  /\ filter (fun c => (Charity.featured c =? "STATE")%string) from = [].
Proof.
  intros Hin. split.
  - apply filter_all, Forall_forall. intros c Hc.
    now apply Hin, nationalPool_In in Hc.
  - apply filter_none. intros c Hc. apply Hin, nationalPool_In in Hc as (_ & _ & Hc).
    now apply national_is_not_state.
Qed.

Lemma filter_state_pool (userProfile : UserProfile.t) (raw from : list Charity.t) :
  incl from (statePool userProfile raw) ->
  filter is_national from = []
  /\ filter (fun c => (Charity.featured c =? "STATE")%string) from = from.
Proof.
  intros Hin. split.
  - apply filter_none. intros c Hc. apply Hin, statePool_In in Hc as (_ & _ & Hc).
    apply state_of_is_not_national in Hc. now destruct (is_national c).
  - apply filter_all, Forall_forall. intros c Hc.
    apply Hin, statePool_In in Hc as (_ & _ & Hc).
    unfold is_state_of in Hc. now apply andb_prop in Hc.
Qed.

(** X13: whenever [selectCharities] returns, whatever the files hold, the
    result has exactly [totalCharities] items: the reduced count that line
    242 allows for never occurs.  Every item is featured nationally or for a
    state, and at least [totalCharities - maxStateCharities] of them are
    featured nationally. *)
Theorem returned_result_is_full (charitiesPath profilePath : string)
    (charitiesFile : file Charity.t) (profileFile : file RawUserProfile.t)
    (w w' : World) (result : list Charity.t) :
  selectCharities charitiesPath profilePath charitiesFile profileFile w = (inr result, w') ->
  len result = totalCharities DEFAULT_CONSTRAINTS
  /\ len (filter is_national result)
     + len (filter (fun c => (Charity.featured c =? "STATE")%string) result)
     = totalCharities DEFAULT_CONSTRAINTS
  /\ totalCharities DEFAULT_CONSTRAINTS - maxStateCharities DEFAULT_CONSTRAINTS
     <= len (filter is_national result).
Proof.
  intros Hrun. apply selectCharities_wraps in Hrun as (r0 & w0 & Htry & _ & Hr).
  destruct r0 as [error|result0]; [discriminate|]. injection Hr as ->.
  apply selectCharities_try_cases in Htry
    as [(m & Hm & _) | [(raw & first & _ & _ & _ & Hm & _)
                       | (raw & first & plan & fN & fS & _ & Ha & Hplan & Hasm & Hres)]];
    try discriminate.
  destruct (len fN + len fS =? expectedCount plan) eqn:Etest; [|discriminate].
  destruct Hres as (res & Hr & Hperm). injection Hr as <-. decided.
  pose proof (achievable_le_pools (nationalPool raw) (statePool (profile_of first) raw)) as Hle.
  unfold expectedCount in Etest.
  rewrite (wp_national _ _ _ Hplan), (wp_state _ _ _ Hplan) in Etest.
  pose proof (asm_national_incl _ _ _ _ Hasm) as HN. rewrite (wp_national _ _ _ Hplan) in HN.
  pose proof (asm_state_incl _ _ _ _ Hasm) as HS. rewrite (wp_state _ _ _ Hplan) in HS.
  destruct (filter_national_pool raw fN HN) as [HNn HNs].
  destruct (filter_state_pool (profile_of first) raw fS HS) as [HSn HSs].
  rewrite <- (len_Permutation _ _ Hperm),
    <- (len_Permutation _ _ (filter_Permutation is_national _ _ Hperm)),
    <- (len_Permutation _ _ (filter_Permutation _ _ _ Hperm)).
  rewrite !filter_app, HNn, HNs, HSn, HSs, app_nil_r. cbn [app]. rewrite len_app.
  pose proof (asm_state_len _ _ _ _ Hasm) as Hs.
  pose proof (wp_state_count _ _ _ Hplan) as Hcap. unfold stateCap in Hcap.
  cbn [totalCharities maxStateCharities DEFAULT_CONSTRAINTS] in *. lia.
Qed.

Lemma returned_result_is_full_witness :
  len (returned (run exact_animal_charities)) = totalCharities DEFAULT_CONSTRAINTS
  /\ len (filter is_national (returned (run exact_animal_charities)))
     + len (filter (fun c => (Charity.featured c =? "STATE")%string)
              (returned (run exact_animal_charities)))
     = totalCharities DEFAULT_CONSTRAINTS
  /\ totalCharities DEFAULT_CONSTRAINTS - maxStateCharities DEFAULT_CONSTRAINTS
     <= len (filter is_national (returned (run exact_animal_charities))).
Proof.
  apply (returned_result_is_full "charities.csv" "profile.csv"
           (Content exact_animal_charities) (Content [pet_owner]) start
           (snd (run exact_animal_charities))).
  vm_compute. reflexivity.
Defined.

(** X14: the shortfall of the capacity planning does not depend on what is
    drawn: for files that are read and a profile with its fields, when at
    least [totalCharities] candidates are valid but the national pool and at
    most [maxStateCharities] items of the state pool do not reach
    [totalCharities], every call fails with the same message, "Insufficient
    total charities", which gives the size of the national pool and the
    largest state share, after exactly one draw. *)
Theorem capacity_shortfall_is_fixed (charitiesPath profilePath : string)
    (raw : list Charity.t) (first : RawUserProfile.t) (others : list RawUserProfile.t)
    (w : World) :
  profile_ok first = true ->
  totalCharities DEFAULT_CONSTRAINTS <= len (filter is_valid raw) ->
  achievable (nationalPool raw) (statePool (profile_of first) raw)
  < totalCharities DEFAULT_CONSTRAINTS ->
  exists w',
    selectCharities charitiesPath profilePath (Content raw) (Content (first :: others)) w
    = (inl (JsError (selection_failed
                       (insufficient_total
                          (achievable (nationalPool raw) (statePool (profile_of first) raw))
                          (len (nationalPool raw))
                          (stateCap (statePool (profile_of first) raw))))), w')
    /\ random_calls w' = S (random_calls w).
Proof.
  intros Hok Hvalid Hshort.
  assert (Hraw : raw <> []).
  { intros ->. unfold len in Hvalid. cbn in Hvalid. lia. }
  pose proof (good_inputs_content raw first others Hraw Hok) as Hgood.
  destruct (planning charitiesPath profilePath (Content raw) (Content (first :: others)) w)
    as [r w1] eqn:Hplan.
  pose proof Hplan as Hcases. apply planning_cases in Hcases
    as [(m & -> & _ & _ & _ & Hm)
       | [(raw' & first' & Hg & _ & _ & -> & Hc)
         | (raw' & first' & plan & Hg & Ha & _)]].
  - destruct (Hm raw first Hgood) as [Hlt _]. lia.
  - apply good_inputs_of_content in Hg as (-> & -> & _ & _).
    destruct (planning_failure_surfaces _ _ _ _ _ _ _ Hplan) as (w' & Hrun & Hcalls).
    exists w'. split; [exact Hrun | congruence].
  - apply good_inputs_of_content in Hg as (-> & -> & _ & _). lia.
Qed.

Lemma capacity_shortfall_is_fixed_witness :
  exists w',
    selectCharities "charities.csv" "profile.csv" (Content only_state_charities)
      (Content [pet_owner]) start
    = (inl (JsError (selection_failed
                       (insufficient_total
                          (achievable (nationalPool only_state_charities)
                             (statePool (profile_of pet_owner) only_state_charities))
                          (len (nationalPool only_state_charities))
                          (stateCap (statePool (profile_of pet_owner)
                                       only_state_charities))))), w')
    /\ random_calls w' = S (random_calls start).
Proof.
  apply (capacity_shortfall_is_fixed "charities.csv" "profile.csv" only_state_charities
           pet_owner [] start).
  - reflexivity.
  - apply Z.leb_le. vm_compute. reflexivity.
  - apply Z.ltb_lt. vm_compute. reflexivity.
Defined.

(** ** The share of the state is random *)

Lemma readCsvFile_source {T} (path : string) (f : file T) (w w' : World)
    (r : thrown + list T) :
  readCsvFile path f w = (r, w') -> random_source w' = random_source w.
Proof.
  unfold readCsvFile.
  destruct f as [| | |rows|m|e]; try (destruct (len rows =? 0));
    plumbing; intros H; now injection H as <- <-.
Qed.

Lemma parseUserProfile_source (rawProfile : RawUserProfile.t) (w w' : World)
    (r : thrown + UserProfile.t) :
  parseUserProfile rawProfile w = (r, w') -> random_source w' = random_source w.
Proof.
  unfold parseUserProfile.
  destruct (negb (truthy (RawUserProfile.id rawProfile))
            || negb (truthy (RawUserProfile.name rawProfile))
            || negb (truthy (RawUserProfile.state rawProfile)))%bool;
    plumbing; intros H; now injection H as <- <-.
Qed.

Lemma validateCharity_source (c : Charity.t) (w w' : World) (r : thrown + bool) :
  validateCharity c w = (r, w') -> random_source w' = random_source w.
Proof.
  unfold validateCharity.
  destruct (negb (truthy (Charity.id c)) || negb (truthy (Charity.name c)))%bool;
    [|destruct (truthy (Charity.featured c)
                && negb (includes ["NATIONAL"; "STATE"; ""] (Charity.featured c)))%bool;
      [|destruct ((Charity.featured c =? "STATE")%string
                  && negb (truthy (Charity.state c)))%bool]];
    plumbing; intros H; now injection H as <- <-.
Qed.

Lemma filterM_validateCharity_source (l : list Charity.t) :
  forall (w w' : World) (r : thrown + list Charity.t),
    filterM validateCharity l w = (r, w') -> random_source w' = random_source w.
Proof.
  induction l as [|c l IH]; intros w w' r; cbn [filterM].
  - unfold ret. intros H. now injection H as <- <-.
  - unfold bind at 1. destruct (validateCharity c w) as [rc w1] eqn:Ec.
    pose proof (validateCharity_source _ _ _ _ Ec) as Hs1.
    apply validateCharity_spec in Ec as [-> _].
    unfold bind at 1. destruct (filterM validateCharity l w1) as [rl w2] eqn:El.
    pose proof (IH _ _ _ El) as Hs2.
    apply filterM_validateCharity in El as [-> _].
    unfold ret. intros H. injection H as <- <-. congruence.
Qed.

Lemma loadInputs_source (charitiesPath profilePath : string)
    (charitiesFile : file Charity.t) (profileFile : file RawUserProfile.t)
    (w w' : World) (r : thrown + UserProfile.t * list Charity.t) :
  loadInputs charitiesPath profilePath charitiesFile profileFile w = (r, w') ->
  random_source w' = random_source w.
Proof.
  unfold loadInputs. plumbing.
  destruct (readCsvFile charitiesPath charitiesFile _) as [[e1|raw] w1] eqn:E1;
    apply readCsvFile_source in E1; cbn [random_source] in E1.
  { intros H. injection H as <- <-. exact E1. }
  destruct (readCsvFile profilePath profileFile w1) as [[e2|profiles] w2] eqn:E2;
    apply readCsvFile_source in E2.
  { intros H. injection H as <- <-. congruence. }
  destruct profiles as [|first others].
  { intros H. injection H as <- <-. congruence. }
  destruct (parseUserProfile first w2) as [[e3|profile] w3] eqn:E3;
    apply parseUserProfile_source in E3.
  { intros H. injection H as <- <-. congruence. }
  destruct (filterM validateCharity raw _) as [[e4|valid] w4] eqn:E4;
    apply filterM_validateCharity_source in E4; cbn [random_source] in E4.
  { intros H. injection H as <- <-. congruence. }
  destruct (len valid <? totalCharities DEFAULT_CONSTRAINTS);
    intros H; injection H as <- <-; cbn [random_source]; congruence.
Qed.

Lemma planTargets_no_pets (userProfile : UserProfile.t) (validCharities : list Charity.t)
    (w w' : World) (r : thrown + Plan) :
  UserProfile.hasPets userProfile = false ->
  planTargets userProfile validCharities w = (r, w') ->
  let nationalPool := filter is_national validCharities in
  let statePool := filter (is_state_of userProfile) validCharities in
  let drawn :=
    floor_times (random_source w (random_calls w) mod two53) (stateCap statePool - 0 + 1) + 0 in
  totalCharities DEFAULT_CONSTRAINTS - drawn <= len nationalPool ->
  r = inr {| nationalCharities := nationalPool; stateCharities := statePool;
             selectedStateCount := drawn;
             selectedNationalCount := totalCharities DEFAULT_CONSTRAINTS - drawn |}.
Proof.
  intros Hpets. unfold planTargets. cbv zeta. plumbing.
  rewrite getRandomInt_exact
    by (pose proof (len_nonneg (filter (is_state_of userProfile) validCharities));
        cbn [maxStateCharities DEFAULT_CONSTRAINTS]; unfold two53; lia).
  cbn [random_source random_calls].
  unfold rebalanceForAnimals. rewrite Hpets. cbn [fst snd].
  unfold adjustTargets, stateCap.
  intros Hrun Hroom. revert Hrun.
  match goal with
  | |- context [?a >? ?b] => destruct (a >? b) eqn:Egt
  end; decided; [lia|].
  plumbing. intros H. now injection H as <- <-.
Qed.

Lemma try_decompose (charitiesPath profilePath : string)
    (charitiesFile : file Charity.t) (profileFile : file RawUserProfile.t)
    (w w' : World) (result : list Charity.t) :
  selectCharities_try charitiesPath profilePath charitiesFile profileFile w
  = (inr result, w') ->
  exists userProfile validCharities w1 plan w2,
    loadInputs charitiesPath profilePath charitiesFile profileFile w
    = (inr (userProfile, validCharities), w1)
    /\ planTargets userProfile validCharities w1 = (inr plan, w2)
    /\ fillSelection userProfile plan w2 = (inr result, w').
Proof.
  unfold selectCharities_try, planning, bind.
  destruct (loadInputs charitiesPath profilePath charitiesFile profileFile w)
    as [[e0|[userProfile validCharities]] w1]; [discriminate|].
  cbn [fst snd].
  destruct (planTargets userProfile validCharities w1) as [[e1|plan] w2] eqn:Ep;
    [discriminate|].
  unfold ret. cbn [fst snd]. intros Hfill.
  now exists userProfile, validCharities, w1, plan, w2.
Qed.

(** X15: the number of state charities is not fixed: for a profile without
    pets and candidates of pairwise distinct ids, every number from 0 to the
    smaller of [maxStateCharities] and the size of the state pool that
    leaves no more than the national pool can fill is the number of state
    charities of the result for some random source. *)
Theorem state_share_can_be_any (charitiesPath profilePath : string)
    (raw : list Charity.t) (first : RawUserProfile.t) (others : list RawUserProfile.t)
    (w : World) (k : Z) :
  profile_ok first = true ->
  UserProfile.hasPets (profile_of first) = false ->
  NoDup (map Charity.id raw) ->
  0 <= k <= stateCap (statePool (profile_of first) raw) ->
  totalCharities DEFAULT_CONSTRAINTS - k <= len (nationalPool raw) ->
  exists source result w',
    selectCharities charitiesPath profilePath (Content raw) (Content (first :: others))
      {| random_source := source; random_calls := random_calls w; console := console w |}
    = (inr result, w')
    /\ len (filter (fun c => (Charity.featured c =? "STATE")%string) result) = k.
Proof.
  intros Hok Hpets Hd Hk Hroom.
  assert (Hcap : stateCap (statePool (profile_of first) raw) <= 5).
  { unfold stateCap. cbn [maxStateCharities DEFAULT_CONSTRAINTS]. lia. }
  destruct (floor_times_reaches (stateCap (statePool (profile_of first) raw) - 0 + 1) k)
    as (k0 & Hk0 & Hfloor); [lia | unfold two53; lia |].
  set (w0 := {| random_source := fun _ => k0; random_calls := random_calls w;
                console := console w |}).
  assert (Hsupply : totalCharities DEFAULT_CONSTRAINTS
                    <= achievable (nationalPool raw) (statePool (profile_of first) raw)).
  { unfold achievable. lia. }
  destruct (success_when_supplied charitiesPath profilePath raw first others w0 Hok Hd Hsupply)
    as (result & w' & Hrun).
  exists (fun _ => k0), result, w'. split; [exact Hrun|].
  apply selectCharities_wraps in Hrun as (r0 & wt & Htry & _ & Hr).
  destruct r0 as [error|result0]; [discriminate|]. injection Hr as ->.
  apply try_decompose in Htry as (p & v & w1 & plan & w2 & Hload & Hplan & Hfill).
  pose proof (loadInputs_source _ _ _ _ _ _ _ Hload) as Hsrc.
  assert (Hraw : raw <> []).
  { intros ->. unfold achievable, stateCap, nationalPool, statePool, len in Hsupply.
    cbn in Hsupply. lia. }
  apply loadInputs_loaded in Hload as [_ Hr]; trivial.
  destruct (len (filter is_valid raw) <? totalCharities DEFAULT_CONSTRAINTS);
    [discriminate|].
  injection Hr as -> ->.
  pose proof (planTargets_no_pets _ _ _ _ _ Hpets Hplan) as Hp. cbv zeta in Hp.
  fold (nationalPool raw) in Hp. fold (statePool (profile_of first) raw) in Hp.
  rewrite Hsrc in Hp. cbn [random_source w0] in Hp.
  rewrite (Z.mod_small k0 two53 Hk0), Hfloor, Z.add_0_r in Hp.
  specialize (Hp Hroom). apply (f_equal (fun x => match x with inr a => a | inl _ => plan end))
    in Hp. subst plan.
  change (totalCharities DEFAULT_CONSTRAINTS) with 12 in *.
  apply fillSelection_spec in Hfill as (fN & fS & Hasm & Hres);
    [|unfold selectedNationalCount; lia|unfold selectedStateCount; lia].
  destruct (len fN + len fS =? _); [|discriminate].
  destruct Hres as (res & Hr & Hperm). injection Hr as <-.
  pose proof (asm_national_incl _ _ _ _ Hasm) as HN.
  pose proof (asm_state_incl _ _ _ _ Hasm) as HS.
  pose proof (asm_state_full _ _ _ _ Hasm) as Hfull.
  cbn [nationalCharities stateCharities selectedStateCount] in HN, HS, Hfull.
  destruct (filter_national_pool raw fN HN) as [_ HNs].
  destruct (filter_state_pool (profile_of first) raw fS HS) as [_ HSs].
  rewrite <- (len_Permutation _ _ (filter_Permutation _ _ _ Hperm)).
  rewrite filter_app, HNs, HSs. cbn [app].
  apply Hfull; [now apply statePool_ids | unfold stateCap in Hk; lia].
Qed.

Lemma state_share_can_be_any_witness :
  exists source result w',
    selectCharities "charities.csv" "profile.csv"
      (Content exact_animal_charities) (Content [petless_owner])
      {| random_source := source; random_calls := random_calls start; console := console start |}
    = (inr result, w')
    /\ len (filter (fun c => (Charity.featured c =? "STATE")%string) result) = 1.
Proof.
  apply (state_share_can_be_any "charities.csv" "profile.csv"
           exact_animal_charities petless_owner [] start 1).
  - reflexivity.
  - reflexivity.
  - apply distinct_by_computation. vm_compute. reflexivity.
  - split; apply Z.leb_le; vm_compute; reflexivity.
  - apply Z.leb_le. vm_compute. reflexivity.
Defined.

(** ** The command line *)

Lemma printed_printed (w : World) (a b : list console_entry) :
  printed (printed w a) b = printed w (a ++ b).
Proof.
  unfold printed. cbn [random_source random_calls console]. now rewrite app_assoc.
Qed.

Lemma console_print_printed (lv : level) (text : string) (w : World) :
  console_print lv text None w = (inr tt, printed w [line lv text]).
Proof. reflexivity. Qed.

Lemma truthy_nonempty (s : string) : s <> ""%string -> truthy s = true.
Proof.
  intros Hs. unfold truthy. destruct (String.eqb_spec s ""); [contradiction|reflexivity].
Qed.

Lemma validateCommandLineArgs_given (env : Process) (charitiesPath profilePath : string)
    (w : World) :
  given_paths env charitiesPath profilePath ->
  validateCommandLineArgs env w = (Returned (charitiesPath, profilePath), w).
Proof.
  intros (Hc & Hp & Hcn & Hpn). unfold validateCommandLineArgs. rewrite Hc, Hp.
  now rewrite (truthy_nonempty _ Hcn), (truthy_nonempty _ Hpn).
Qed.

Lemma validateCommandLineArgs_missing (env : Process) (w : World) :
  (forall charitiesPath profilePath, ~ given_paths env charitiesPath profilePath) ->
  validateCommandLineArgs env w
  = (Exited 1, printed w [line ERROR usage_line; line ERROR example_line]).
Proof.
  intros Hno. unfold validateCommandLineArgs.
  assert (Hexit : ((lift (console_print ERROR usage_line None) ;;
                    lift (console_print ERROR example_line None) ;;
                    process_exit 1)%proc : Proc (string * string)) w
                  = (Exited 1, printed w [line ERROR usage_line; line ERROR example_line])).
  { unfold andThen, lift, process_exit. rewrite !console_print_printed.
    now rewrite printed_printed. }
  destruct (nth_error (argv env) 2) as [c|] eqn:Ec; [|destruct (nth_error (argv env) 3); exact Hexit].
  destruct (nth_error (argv env) 3) as [p|] eqn:Ep; [|exact Hexit].
  destruct (truthy c) eqn:Tc; [|exact Hexit].
  destruct (truthy p) eqn:Tp; [|exact Hexit].
  exfalso. apply (Hno c p). repeat split; trivial.
  - intros ->. discriminate.
  - intros ->. discriminate.
Qed.

Lemma forEach_prints (result : list Charity.t) (index : Z) (w : World) :
  forEach result index
    (fun charity index =>
       try_catch
         (line <- formatCharityOutput charity ;; console_log line)
         (fun error =>
            console_error ("Error outputting charity " ++ show (index + 1) ++ ":")%string
              (ArgThrown error))) w
  = (inr tt, printed w (map (fun charity => line LOG (JSON_charity charity)) result)).
Proof.
  revert index w. induction result as [|charity result IH]; intros index w.
  - cbn [forEach map]. unfold ret, printed. rewrite app_nil_r. now destruct w.
  - cbn [forEach map]. unfold bind at 1.
    unfold try_catch at 1, bind at 1, formatCharityOutput, try_catch, ret, console_log.
    rewrite console_print_printed, IH, printed_printed. reflexivity.
Qed.

Lemma main_given (env : Process) (charitiesPath profilePath : string) (w : World) :
  given_paths env charitiesPath profilePath ->
  main env w
  = match selectCharities charitiesPath profilePath
            (charities_at env charitiesPath) (profiles_at env profilePath)
            (printed w (announcement charitiesPath profilePath)) with
    | (inr result, w1) =>
        (Returned tt,
         printed w1 ([line LOG "Selected Charities:"; line LOG "=================="]
                     ++ map (fun charity => line LOG (JSON_charity charity)) result
                     ++ [line LOG "";
                         line LOG ("Total charities selected: " ++ show (len result))]))
    | (inl (JsError message), w1) =>
        (Exited 1,
         printed w1 ([line ERROR ""; line ERROR "CHARITY SELECTION FAILED";
                      line ERROR "========================";
                      line ERROR ("Error: " ++ message)]
                     ++ if development env
                        then [line ERROR ("Stack trace: " ++ stack_of env message)]
                        else []))
    | (inl JsOther, w1) =>
        (Exited 1,
         printed w1 [line ERROR ""; line ERROR "CHARITY SELECTION FAILED";
                     line ERROR "========================";
                     {| entry_level := ERROR; entry_text := "Unknown error occurred:";
                        entry_arg := Some (ArgThrown JsOther) |}])
    end.
Proof.
  intros Hgiven. unfold main, catching.
  unfold andThen at 1. unfold lift at 1, console_log at 1. rewrite console_print_printed.
  unfold andThen at 1. unfold lift at 1, console_log at 1. rewrite console_print_printed.
  unfold andThen at 1. rewrite (validateCommandLineArgs_given _ _ _ _ Hgiven). cbn [fst snd].
  unfold andThen at 1. unfold lift at 1, console_log at 1. rewrite console_print_printed.
  unfold andThen at 1. unfold lift at 1, console_log at 1. rewrite console_print_printed.
  unfold andThen at 1. unfold lift at 1, console_log at 1. rewrite console_print_printed.
  rewrite !printed_printed. cbn [app]. fold (announcement charitiesPath profilePath).
  unfold andThen at 1. unfold lift at 1.
  destruct (selectCharities charitiesPath profilePath (charities_at env charitiesPath)
              (profiles_at env profilePath) (printed w (announcement charitiesPath profilePath)))
    as [[error|result] w1].
  - unfold andThen, lift, process_exit. rewrite !console_print_printed.
    destruct error as [message|].
    + unfold bind. rewrite console_print_printed. unfold development.
      destruct (NODE_ENV env) as [mode|]; [destruct (mode =? "development")%string|];
        rewrite ?console_print_printed; unfold ret; rewrite !printed_printed; reflexivity.
    + unfold console_error, console_print. unfold printed.
      cbn [random_source random_calls console]. rewrite <- !app_assoc. reflexivity.
  - unfold andThen at 1. unfold lift at 1, console_log at 1. rewrite console_print_printed.
    unfold andThen at 1. unfold lift at 1, console_log at 1. rewrite console_print_printed.
    unfold andThen at 1. unfold lift at 1. rewrite forEach_prints.
    unfold andThen, lift, console_log. rewrite !console_print_printed, !printed_printed.
    reflexivity.
Qed.

Lemma selectCharities_returns_twelve (charitiesPath profilePath : string)
    (charitiesFile : file Charity.t) (profileFile : file RawUserProfile.t)
    (w w' : World) (result : list Charity.t) :
  selectCharities charitiesPath profilePath charitiesFile profileFile w = (inr result, w') ->
  len result = 12.
Proof.
  intros Hrun. apply selectCharities_wraps in Hrun as (r0 & w0 & Htry & _ & Hr).
  destruct r0 as [error|result0]; [discriminate|]. injection Hr as ->.
  apply selectCharities_try_cases in Htry
    as [(m & Hm & _) | [(raw & first & _ & _ & _ & Hm & _)
                       | (raw & first & plan & fN & fS & _ & Ha & Hplan & Hasm & Hres)]];
    try discriminate.
  destruct (len fN + len fS =? expectedCount plan) eqn:Etest; [|discriminate].
  destruct Hres as (res & Hr & Hperm). injection Hr as <-. decided.
  pose proof (achievable_le_pools (nationalPool raw) (statePool (profile_of first) raw)) as Hle.
  unfold expectedCount in Etest.
  rewrite (wp_national _ _ _ Hplan), (wp_state _ _ _ Hplan) in Etest.
  rewrite <- (len_Permutation _ _ Hperm), len_app.
  cbn [totalCharities DEFAULT_CONSTRAINTS] in *. lia.
Qed.


Lemma main_missing (env : Process) (w : World) :
  (forall charitiesPath profilePath, ~ given_paths env charitiesPath profilePath) ->
  main env w
  = (Exited 1,
     printed w [line LOG "FreeWill Charity Selector"; line LOG "========================";
                line ERROR usage_line; line ERROR example_line]).
Proof.
  intros Hno. unfold main, catching.
  unfold andThen at 1. unfold lift at 1, console_log at 1. rewrite console_print_printed.
  unfold andThen at 1. unfold lift at 1, console_log at 1. rewrite console_print_printed.
  unfold andThen at 1. rewrite (validateCommandLineArgs_missing _ _ Hno).
  rewrite !printed_printed. reflexivity.
Qed.

(** X16: started with fewer than two arguments, or with an empty one,
    [main] prints the two lines of the heading, then the usage and the
    example on the error stream, and ends the process with code 1: no file
    is looked at, nothing is drawn, and the handler of [main] prints
    nothing, since leaving the process is not an exception. *)
Theorem main_without_paths_exits (env : Process) (w : World) :
  (List.length (argv env) < 4)%nat
  \/ nth_error (argv env) 2 = Some ""%string
  \/ nth_error (argv env) 3 = Some ""%string ->
  main env w
  = (Exited 1,
     printed w [line LOG "FreeWill Charity Selector"; line LOG "========================";
                line ERROR usage_line; line ERROR example_line]).
Proof.
  intros Hmiss.
  assert (Hno : forall c p, ~ given_paths env c p).
  { intros c p (Hc & Hp & Hcn & Hpn). destruct Hmiss as [Hlen|[He|He]].
    - assert (Hnone : nth_error (argv env) 3 = None) by (apply nth_error_None; lia).
      congruence.
    - rewrite He in Hc. injection Hc as <-. now apply Hcn.
    - rewrite He in Hp. injection Hp as <-. now apply Hpn. }
  exact (main_missing env w Hno).
Qed.

Lemma main_without_paths_exits_witness :
  main (command_line ["charities.csv"] boundary_charities) start
  = (Exited 1,
     printed start [line LOG "FreeWill Charity Selector"; line LOG "========================";
                    line ERROR usage_line; line ERROR example_line]).
Proof.
  apply (main_without_paths_exits (command_line ["charities.csv"] boundary_charities) start).
  left. cbn [command_line argv List.length]. lia.
Defined.

(** X17: when both paths are given and [selectCharities] rejects, the error
    is the wrapped one, and [main] prints an empty line, "CHARITY SELECTION
    FAILED", a rule and "Error: Charity selection failed: ..." on the error
    stream, after them the stack only when [NODE_ENV] is "development", and
    ends the process with code 1; the branch for a value that is no [Error]
    is not taken. *)
Theorem main_reports_failure (env : Process) (charitiesPath profilePath : string)
    (w w1 : World) (error : thrown) :
  given_paths env charitiesPath profilePath ->
  selectCharities charitiesPath profilePath
    (charities_at env charitiesPath) (profiles_at env profilePath)
    (printed w (announcement charitiesPath profilePath)) = (inl error, w1) ->
  exists reason,
    error = JsError (selection_failed reason)
    /\ main env w
       = (Exited 1,
          printed w1 ([line ERROR ""; line ERROR "CHARITY SELECTION FAILED";
                       line ERROR "========================";
                       line ERROR ("Error: " ++ selection_failed reason)]
                      ++ if development env
                         then [line ERROR ("Stack trace: "
                                           ++ stack_of env (selection_failed reason))]
                         else [])).
Proof.
  intros Hgiven Hrun. rewrite (main_given _ _ _ _ Hgiven), Hrun.
  apply selectCharities_wraps in Hrun as (r0 & w0 & _ & _ & Hr).
  destruct r0 as [error0|result0]; [|discriminate].
  exists (message_of error0). injection Hr as ->. split; reflexivity.
Qed.

Lemma main_reports_failure_witness :
  fst (main (command_line ["charities.csv"; "profile.csv"] only_state_charities) start)
  = Exited 1.
Proof.
  destruct (main_reports_failure
              (command_line ["charities.csv"; "profile.csv"] only_state_charities)
              "charities.csv" "profile.csv" start
              (snd (selectCharities "charities.csv" "profile.csv"
                      (Content only_state_charities) (Content [pet_owner])
                      (printed start (announcement "charities.csv" "profile.csv"))))
              (match fst (selectCharities "charities.csv" "profile.csv"
                            (Content only_state_charities) (Content [pet_owner])
                            (printed start (announcement "charities.csv" "profile.csv"))) with
               | inl error => error
               | inr _ => JsOther
               end))
    as (reason & _ & ->).
  - repeat split; discriminate.
  - vm_compute. reflexivity.
  - reflexivity.
Defined.

(** X18: when both paths are given and [selectCharities] returns, [main]
    returns too, without leaving the process: in this order it prints a
    heading, one line for each item of the result, which is the JSON text of
    its five fields, in the order of the result, an empty line and "Total
    charities selected: 12".  After the selection nothing goes to the error
    stream and nothing more is drawn. *)
Theorem main_prints_selection (env : Process) (charitiesPath profilePath : string)
    (w w1 : World) (result : list Charity.t) :
  given_paths env charitiesPath profilePath ->
  selectCharities charitiesPath profilePath
    (charities_at env charitiesPath) (profiles_at env profilePath)
    (printed w (announcement charitiesPath profilePath)) = (inr result, w1) ->
  main env w
  = (Returned tt,
     printed w1 ([line LOG "Selected Charities:"; line LOG "=================="]
                 ++ map (fun charity => line LOG (JSON_charity charity)) result
                 ++ [line LOG ""; line LOG "Total charities selected: 12"])).
Proof.
  intros Hgiven Hrun. rewrite (main_given _ _ _ _ Hgiven), Hrun.
  now rewrite (selectCharities_returns_twelve _ _ _ _ _ _ _ Hrun).
Qed.

Lemma main_prints_selection_witness :
  fst (main (command_line ["charities.csv"; "profile.csv"] boundary_charities) start)
  = Returned tt.
Proof.
  rewrite (main_prints_selection
             (command_line ["charities.csv"; "profile.csv"] boundary_charities)
             "charities.csv" "profile.csv" start
             (snd (selectCharities "charities.csv" "profile.csv"
                     (Content boundary_charities) (Content [pet_owner])
                     (printed start (announcement "charities.csv" "profile.csv"))))
             (returned (selectCharities "charities.csv" "profile.csv"
                          (Content boundary_charities) (Content [pet_owner])
                          (printed start (announcement "charities.csv" "profile.csv"))))).
  - reflexivity.
  - repeat split; discriminate.
  - vm_compute. reflexivity.
Defined.


(** ** The printed line of a charity *)

Lemma append_assoc_r (a b c : string) : ((a ++ b) ++ c)%string = (a ++ b ++ c)%string.
Proof. induction a as [|x a IH]; cbn [append]; [reflexivity|now rewrite IH]. Qed.

Lemma every_append (p : ascii -> bool) (a b : string) :
  every p (a ++ b) = (every p a && every p b)%bool.
Proof.
  induction a as [|x a IH]; cbn [append every]; [reflexivity|].
  now rewrite IH, andb_assoc.
Qed.

Lemma escape_char_above_controls (c : ascii) : above_controls (escape_char c) = true.
Proof.
  destruct c as [[] [] [] [] [] [] [] []]; vm_compute; reflexivity.
Qed.

Lemma escape_above_controls (s : string) : above_controls (escape s) = true.
Proof.
  unfold above_controls. induction s as [|c s IH]; cbn [escape]; [reflexivity|].
  pose proof (escape_char_above_controls c) as Hc. unfold above_controls in Hc.
  now rewrite every_append, IH, Hc.
Qed.

Lemma JSON_string_above_controls (s : string) : above_controls (JSON_string s) = true.
Proof.
  pose proof (escape_above_controls s) as Hs.
  unfold JSON_string, above_controls in *. rewrite !every_append. now rewrite Hs.
Qed.

Lemma unescape_head_escape_char (c : ascii) (rest : string) :
  unescape_head (escape_char c ++ rest) = Some (c, rest).
Proof.
  destruct c as [[] [] [] [] [] [] [] []]; vm_compute; reflexivity.
Qed.

Lemma escape_ends_at_quotation (s1 s2 r1 r2 : string) :
  (escape s1 ++ quotation ++ r1)%string = (escape s2 ++ quotation ++ r2)%string ->
  s1 = s2 /\ r1 = r2.
Proof.
  revert s2. induction s1 as [|c1 s1 IH]; intros [|c2 s2]; cbn [escape]; intros H.
  - cbn in H. injection H as ->. now split.
  - apply (f_equal unescape_head) in H.
    rewrite append_assoc_r, unescape_head_escape_char in H. discriminate.
  - apply (f_equal unescape_head) in H.
    rewrite append_assoc_r, unescape_head_escape_char in H. discriminate.
  - apply (f_equal unescape_head) in H.
    rewrite !append_assoc_r, !unescape_head_escape_char in H.
    injection H as -> H. apply IH in H as [-> ->]. now split.
Qed.

(** X20: [formatCharityOutput] never takes its [catch]: it prints nothing
    and returns the JSON text of the five fields.  That text has no byte
    below 32, whatever the fields hold, so every charity is printed on one
    line. *)
Theorem formatCharityOutput_one_line (charity : Charity.t) (w : World) :
  formatCharityOutput charity w = (inr (JSON_charity charity), w)
  /\ above_controls (JSON_charity charity) = true.
Proof.
  split; [reflexivity|].
  pose proof (JSON_string_above_controls (Charity.id charity)) as Hid.
  pose proof (JSON_string_above_controls (Charity.name charity)) as Hname.
  pose proof (JSON_string_above_controls (Charity.state charity)) as Hstate.
  pose proof (JSON_string_above_controls (Charity.category charity)) as Hcategory.
  pose proof (JSON_string_above_controls (Charity.featured charity)) as Hfeatured.
  unfold JSON_charity, JSON_key, above_controls in *. rewrite !every_append.
  rewrite Hid, Hname, Hstate, Hcategory, Hfeatured. reflexivity.
Qed.

(** X21: the printed line loses nothing: two charities that differ in one of
    the five fields are printed differently, whatever characters the fields
    hold. *)
Theorem formatCharityOutput_tells_apart (a b : Charity.t) (w : World) :
  a <> b -> fst (formatCharityOutput a w) <> fst (formatCharityOutput b w).
Proof.
  intros Hne H. apply Hne. change (@inr thrown string (JSON_charity a) = inr (JSON_charity b)) in H.
  injection H as HJ. unfold JSON_charity, JSON_key in HJ. rewrite !append_assoc_r in HJ.
  cbn [quotation append] in HJ.
  apply escape_ends_at_quotation in HJ as [Hid HJ].
  injection HJ as HJ. apply escape_ends_at_quotation in HJ as [Hname HJ].
  injection HJ as HJ. apply escape_ends_at_quotation in HJ as [Hstate HJ].
  injection HJ as HJ. apply escape_ends_at_quotation in HJ as [Hcategory HJ].
  injection HJ as HJ. apply escape_ends_at_quotation in HJ as [Hfeatured _].
  destruct a, b. cbn in *. congruence.
Qed.

Lemma formatCharityOutput_tells_apart_witness :
  fst (formatCharityOutput (row 1 "OTHER" "NATIONAL" "TEXAS") start)
  <> fst (formatCharityOutput (row 1 "OTHER" "STATE" "TEXAS") start).
Proof.
  apply (formatCharityOutput_tells_apart
           (row 1 "OTHER" "NATIONAL" "TEXAS") (row 1 "OTHER" "STATE" "TEXAS") start).
  intros H. apply (f_equal Charity.featured) in H. vm_compute in H. discriminate.
Defined.
